(** * clang-tidy [add_new_module.py]: a shallow embedding and its properties

    The script scaffolds a new clang-tidy module: it creates three
    directories and two template files and merges one entry into each of
    two shared files, [CMakeLists.txt] and [ClangTidyForceLinker.h].

    Conventions of the embedding.
    - A Python [str] is a [string]; characters are compared by their code,
      as Python compares code points.  The classification and case
      functions ([isalnum], [capitalize]) follow Python on the ASCII range,
      the range of the module names and of the two shared files; codes
      above 127 are classified as non-alphanumeric and left unchanged by
      the case functions.
    - A list of lines is a [list string]; an index [j] into [lines] is
      represented by the suffix [drop j lines] the loop still has to read,
      and each loop returns by how much it advanced [j].
    - The file system is a finite map from path strings to nodes; every
      effect (print, mkdir, write) is also recorded in a trace. *)

From Equations Require Import Equations.
From Stdlib Require Import Ascii String.
From stdpp Require Import gmap strings list.

(** ** Python string primitives *)

Definition nl : string := String "010" EmptyString.
Definition cr : ascii := "013"%char.
Definition lf : ascii := "010"%char.
Definition dq : string := String "034" EmptyString.

(** [s.startswith(p)] *)
Definition startswith (s p : string) : bool := String.prefix p s.

(** [a >= b] on [str]: lexicographic on character codes. *)
Definition str_ge (a b : string) : bool := String.leb b a.

(** [sub in s] *)
Fixpoint str_in (sub s : string) : bool :=
  String.prefix sub s ||
  match s with
  | EmptyString => false
  | String _ r => str_in sub r
  end.

(** [s.endswith(suf)] *)
Fixpoint endswith (s suf : string) : bool :=
  String.eqb s suf ||
  match s with
  | EmptyString => false
  | String _ r => endswith r suf
  end.

(** Truth value of a [str]: non-empty. *)
Definition str_true (s : string) : bool := negb (String.eqb s EmptyString).

(** [s * n] *)
Fixpoint str_repeat (s : string) (n : nat) : string :=
  match n with
  | 0 => EmptyString
  | S n' => s +:+ str_repeat s n'
  end.

(** [lines[i:j]] for [i <= j <= len(lines)] and in general. *)
Definition slice {A} (l : list A) (i j : nat) : list A := take (j - i) (drop i l).

Definition is_digit (c : ascii) : bool := (Ascii.leb "0" c && Ascii.leb c "9")%char.
Definition is_upper (c : ascii) : bool := (Ascii.leb "A" c && Ascii.leb c "Z")%char.
Definition is_lower (c : ascii) : bool := (Ascii.leb "a" c && Ascii.leb c "z")%char.
Definition is_alnum (c : ascii) : bool := is_digit c || is_upper c || is_lower c.

Definition to_upper (c : ascii) : ascii :=
  if is_lower c then ascii_of_nat (nat_of_ascii c - 32) else c.
Definition to_lower (c : ascii) : ascii :=
  if is_upper c then ascii_of_nat (nat_of_ascii c + 32) else c.

Fixpoint str_map (f : ascii -> ascii) (s : string) : string :=
  match s with
  | EmptyString => EmptyString
  | String c r => String (f c) (str_map f r)
  end.

Fixpoint str_forall (f : ascii -> bool) (s : string) : bool :=
  match s with
  | EmptyString => true
  | String c r => f c && str_forall f r
  end.

(** [s.isalnum()]: every character alphanumeric and at least one character. *)
Definition isalnum (s : string) : bool := str_true s && str_forall is_alnum s.

(** [s.capitalize()]: first character upper-cased, the rest lower-cased. *)
Definition capitalize (s : string) : string :=
  match s with
  | EmptyString => EmptyString
  | String c r => String (to_upper c) (str_map to_lower r)
  end.

(** [s.split(sep)] for a one-character separator: never the empty list. *)
Fixpoint str_split (sep : ascii) (s : string) : list string :=
  match s with
  | EmptyString => [EmptyString]
  | String c r =>
      if Ascii.eqb c sep then EmptyString :: str_split sep r
      else match str_split sep r with
           | [] => [String c EmptyString]
           | h :: t => String c h :: t
           end
  end.

(** [get_camel_name], line 266. *)
Definition get_camel_name (check_name : string) : string :=
  String.concat EmptyString (map capitalize (str_split "-" check_name)).

(** ** Paths: [os.path.join], [os.path.dirname], [os.path.basename] *)

Definition join2 (path b : string) : string :=
  if startswith b "/" then b
  else if negb (str_true path) || endswith path "/" then path +:+ b
  else path +:+ "/" +:+ b.

Definition path_join (a : string) (p : list string) : string := fold_left join2 p a.

(** [p[:i]] and [p[i:]] for [i = p.rfind('/') + 1]. *)
Fixpoint head_part (p : string) : string :=
  match p with
  | EmptyString => EmptyString
  | String c r =>
      if str_in "/" r then String c (head_part r)
      else if Ascii.eqb c "/" then String c EmptyString
      else EmptyString
  end.

Fixpoint basename (p : string) : string :=
  match p with
  | EmptyString => EmptyString
  | String c r =>
      if str_in "/" r then basename r
      else if Ascii.eqb c "/" then r
      else String c r
  end.

(** [head.rstrip('/')] *)
Fixpoint rstrip_slash (s : string) : string :=
  match s with
  | EmptyString => EmptyString
  | String c r =>
      if str_forall (Ascii.eqb "/") (String c r) then EmptyString
      else String c (rstrip_slash r)
  end.

Definition dirname (p : string) : string :=
  let head := head_part p in
  if str_true head && negb (str_forall (Ascii.eqb "/") head)
  then rstrip_slash head else head.

(** ** Text files: reading with universal newlines, [readlines] *)

(** Opening for reading with the default [newline=None] turns every
    ["\r\n"] and every lone ["\r"] into ["\n"]. *)
Fixpoint universal_newlines (s : string) : string :=
  match s with
  | EmptyString => EmptyString
  | String c r =>
      if Ascii.eqb c cr then
        match r with
        | String c' r' =>
            if Ascii.eqb c' lf then String lf (universal_newlines r')
            else String lf (universal_newlines r)
        | EmptyString => String lf EmptyString
        end
      else String c (universal_newlines r)
  end.

(** Cutting after every ["\n"], the terminators kept. *)
Fixpoint splitlines (s : string) : list string :=
  match s with
  | EmptyString => []
  | String c r =>
      if Ascii.eqb c lf then String c EmptyString :: splitlines r
      else match splitlines r with
           | [] => [String c EmptyString]
           | l :: ls => String c l :: ls
           end
  end.

Definition readlines (content : string) : list string :=
  splitlines (universal_newlines content).

(** Writing the lines one after the other with [newline="\n"]: no
    translation. *)
Definition writelines (lines : list string) : string :=
  String.concat EmptyString lines.

(** ** The ordered merge into [CMakeLists.txt] (lines 130-190) *)

(** Lines 133-134 and 222-223: [while j < len(lines) and not
    lines[j].startswith(p): j += 1]. *)
Fixpoint seek_prefix (p : string) (ls : list string) : nat :=
  match ls with
  | [] => 0
  | l :: r => if startswith l p then 0 else S (seek_prefix p r)
  end.

(** Lines 143-147 and 227-231: the inner loop that leaves a guarded block;
    it stops after the first line that starts with [close], or at the end. *)
Fixpoint skip_block (close : string) (ls : list string) : nat :=
  match ls with
  | [] => 0
  | l :: r => if startswith l close then 1 else S (skip_block close r)
  end.

(** Lines 141-157: the scan of the [add_subdirectory] list.  The result is
    the advance of [j] and the value of [add_subdirectory_line] after the
    loop (emptied when the line was met). *)
Equations? scan_subdirectories (add_subdirectory_line : string)
    (ls : list string) : nat * string by wf (length ls) lt :=
  scan_subdirectories add_subdirectory_line [] := (0, add_subdirectory_line);
  scan_subdirectories add_subdirectory_line (l :: r) :=
    if startswith l "if(" then
      let k := skip_block "endif()" (l :: r) in
      let '(j, line) :=
        scan_subdirectories add_subdirectory_line (drop k (l :: r)) in
      (k + j, line)
    else if startswith l "set(ALL_CLANG_TIDY_CHECKS" then
      (0, add_subdirectory_line)
    else if String.eqb l add_subdirectory_line then (0, EmptyString)
    else if str_ge l add_subdirectory_line then (0, add_subdirectory_line)
    else
      let '(j, line) := scan_subdirectories add_subdirectory_line r in
      (S j, line).
Proof.
  - rewrite length_drop. subst k. simpl.
    destruct (startswith l "endif()"); lia.
  - simpl. lia.
Qed.

(** Lines 165-169: advance past the [set(ALL_CLANG_TIDY_CHECKS] line. *)
Fixpoint seek_past_checks (ls : list string) : nat :=
  match ls with
  | [] => 0
  | l :: r =>
      if startswith l "set(ALL_CLANG_TIDY_CHECKS" then 1
      else S (seek_past_checks r)
  end.

(** Lines 175-183: the scan of the library list. *)
Fixpoint scan_libraries (clang_library_line : string) (ls : list string)
  : nat * string :=
  match ls with
  | [] => (0, clang_library_line)
  | l :: r =>
      if str_in ")" l then (0, clang_library_line)
      else if String.eqb l clang_library_line then (0, EmptyString)
      else if str_ge l clang_library_line then (0, clang_library_line)
      else let '(j, line) := scan_libraries clang_library_line r in (S j, line)
  end.

(** Lines 130-190: from [lines] to [linesout]. *)
Definition cmake_linesout (module module_camel : string) (lines : list string)
  : list string :=
  let linesout := [] in
  let i := 0 in
  let j := seek_prefix "add_subdirectory(" lines in
  let linesout := linesout ++ slice lines i j in
  let add_subdirectory_line := "add_subdirectory(" +:+ module +:+ ")" +:+ nl in
  let i := j in
  let '(k, add_subdirectory_line) :=
    scan_subdirectories add_subdirectory_line (drop j lines) in
  let j := j + k in
  let linesout := linesout ++ slice lines i j in
  let linesout :=
    if str_true add_subdirectory_line
    then linesout ++ [add_subdirectory_line] else linesout in
  let i := j in
  let j := j + seek_past_checks (drop j lines) in
  let linesout := linesout ++ slice lines i j in
  let clang_library_line := "  clangTidy" +:+ module_camel +:+ "Module" +:+ nl in
  let i := j in
  let '(k, clang_library_line) :=
    scan_libraries clang_library_line (drop j lines) in
  let j := j + k in
  let linesout := linesout ++ slice lines i j in
  let linesout :=
    if str_true clang_library_line
    then linesout ++ [clang_library_line] else linesout in
  linesout ++ drop j lines.

(** ** The ordered merge into [ClangTidyForceLinker.h] (lines 209-254) *)

Definition link_lines_of (module_camel : string) : list string :=
  [ "// This anchor is used to force the linker to link the "
      +:+ module_camel +:+ "Module." +:+ nl;
    "extern volatile int " +:+ module_camel +:+ "ModuleAnchorSource;" +:+ nl;
    "static int LLVM_ATTRIBUTE_UNUSED " +:+ module_camel
      +:+ "ModuleAnchorDestination =" +:+ nl;
    "    " +:+ module_camel +:+ "ModuleAnchorSource;" +:+ nl;
    nl ].

Definition anchor_comment : string := "// This anchor ".

(** [link_lines[0]]; the list has its five lines whenever the loop reads it. *)
Definition first_line (link_lines : list string) : string :=
  nth 0 link_lines EmptyString.

(** Lines 225-247: the scan of the anchor blocks.  The result is the advance
    of [j] and the value of [link_lines] after the loop. *)
Equations? scan_anchors (link_lines : list string) (ls : list string)
  : nat * list string by wf (length ls) lt :=
  scan_anchors link_lines [] := (0, link_lines);
  scan_anchors link_lines (l :: r) :=
    if startswith l "#if" then
      let k := skip_block "#endif" (l :: r) in
      let '(j, ll) := scan_anchors link_lines (drop k (l :: r)) in
      (k + j, ll)
    else if startswith l "} // namespace" then (0, link_lines)
    else if negb (startswith l anchor_comment) then
      let '(j, ll) := scan_anchors link_lines r in (S j, ll)
    else if String.eqb l (first_line link_lines) then (0, [])
    else if str_ge l (first_line link_lines) then (0, link_lines)
    else
      let '(j, ll) := scan_anchors link_lines r in (S j, ll).
Proof.
  - rewrite length_drop. subst k. simpl.
    destruct (startswith l "#endif"); lia.
  - simpl. lia.
  - simpl. lia.
Qed.

(** Lines 209-254: from [lines] to [linesout]. *)
Definition force_linker_linesout (module_camel : string) (lines : list string)
  : list string :=
  let linesout := [] in
  let link_lines := link_lines_of module_camel in
  let i := 0 in
  let j := seek_prefix anchor_comment lines in
  let '(k, link_lines) := scan_anchors link_lines (drop j lines) in
  let j := j + k in
  let linesout := linesout ++ slice lines i j in
  let linesout :=
    match link_lines with [] => linesout | _ => linesout ++ link_lines end in
  linesout ++ drop j lines.

(** ** The file system and the effects of the script *)

Inductive node : Type :=
| Dir
| File (content : string).

Inductive exn : Type :=
| FileNotFoundError (path : string)
| FileExistsError (path : string)
| NotADirectoryError (path : string)
| IsADirectoryError (path : string).

(** What a run does, in order: [print], [parser.print_usage], [os.mkdir] and
    the writing of a whole file. *)
Inductive event : Type :=
| EPrint (text : string)
| EUsage
| EMkdir (path : string)
| EWrite (path : string) (data : string).

Record world : Type := World { fs : gmap string node; trace : list event }.

Inductive result (A : Type) : Type :=
| Ok (a : A)
| Raise (e : exn).
Arguments Ok {A} a.
Arguments Raise {A} e.

(** State and exceptions: a raised exception ends the run and keeps the
    state reached so far. *)
Definition io (A : Type) : Type := world -> result A * world.

Definition ret {A} (a : A) : io A := fun w => (Ok a, w).

Definition bind {A B} (m : io A) (k : A -> io B) : io B :=
  fun w =>
    match m w with
    | (Ok a, w') => k a w'
    | (Raise e, w') => (Raise e, w')
    end.

Definition raise {A} (e : exn) : io A := fun w => (Raise e, w).

Notation "'let!' x ':=' c1 'in' c2" := (bind c1 (fun x => c2))
  (at level 10, x name, c1 at level 100, c2 at level 200).
Notation "c1 >> c2" := (bind c1 (fun _ => c2))
  (at level 90, right associativity).

Definition emit (e : event) : io unit :=
  fun w => (Ok tt, World (fs w) (trace w ++ [e])).

Definition print (text : string) : io unit := emit (EPrint text).
Definition print_usage : io unit := emit EUsage.

(** [os.path.exists] *)
Definition path_exists (p : string) : io bool :=
  fun w => (Ok (bool_decide (is_Some (fs w !! p))), w).

(** The current directory and the root are always there. *)
Definition parent_check (m : gmap string node) (p : string) : option exn :=
  let d := dirname p in
  if bool_decide (d = EmptyString) || bool_decide (d = "/") then None
  else match m !! d with
       | Some Dir => None
       | Some (File _) => Some (NotADirectoryError p)
       | None => Some (FileNotFoundError p)
       end.

(** [os.mkdir] *)
Definition mkdir (p : string) : io unit :=
  fun w =>
    match fs w !! p with
    | Some _ => (Raise (FileExistsError p), w)
    | None =>
        match parent_check (fs w) p with
        | Some e => (Raise e, w)
        | None => (Ok tt, World (<[p := Dir]> (fs w)) (trace w ++ [EMkdir p]))
        end
    end.

(** [with io.open(p, "w", encoding="utf8", newline="\n") as f] and all
    the [f.write] of the block, [data] being what they write in order. *)
Definition write_file (p data : string) : io unit :=
  fun w =>
    match parent_check (fs w) p with
    | Some e => (Raise e, w)
    | None =>
        match fs w !! p with
        | Some Dir => (Raise (IsADirectoryError p), w)
        | _ => (Ok tt, World (<[p := File data]> (fs w))
                             (trace w ++ [EWrite p data]))
        end
    end.

(** [with io.open(p, "r", encoding="utf8") as f: lines = f.readlines()] *)
Definition read_lines (p : string) : io (list string) :=
  fun w =>
    match fs w !! p with
    | Some (File content) => (Ok (readlines content), w)
    | Some Dir => (Raise (IsADirectoryError p), w)
    | None => (Raise (FileNotFoundError p), w)
    end.

(** ** The two template writers *)

Definition unlines (ls : list string) : string :=
  String.concat EmptyString (map (fun l => l +:+ nl) ls).

Definition cmake_template (clang_library_name module_cpp : string) : string :=
  unlines
    [ "set(LLVM_LINK_COMPONENTS";
      "  FrontendOpenMP";
      "  Support";
      "  )";
      EmptyString;
      "add_clang_library(" +:+ clang_library_name +:+ " STATIC";
      "  " +:+ module_cpp;
      EmptyString;
      "  LINK_LIBS";
      "  clangTidy";
      "  clangTidyUtils";
      EmptyString;
      "  DEPENDS";
      "  omp_gen";
      "  ClangDriverOptions";
      "  )";
      EmptyString;
      "clang_target_link_libraries(" +:+ clang_library_name;
      "  PRIVATE";
      "  clangAnalysis";
      "  clangAST";
      "  clangASTMatchers";
      "  clangBasic";
      "  clangLex";
      "  )" ].

(** Lines 24-63. *)
Definition write_cmake (module_path module_camel : string) : io unit :=
  let filename := path_join module_path ["CMakeLists.txt"] in
  let! b := path_exists filename in
  if b then ret tt
  else
    print ("Creating " +:+ filename +:+ "...") >>
    write_file filename
      (cmake_template ("clangTidy" +:+ module_camel +:+ "Module")
                      (module_camel +:+ "TidyModule.cpp")).

Definition module_cpp_template (namespace class_name module : string)
  : string :=
  unlines
    [ EmptyString;
      "//";
      "// Part of the LLVM Project, under the Apache License v2.0 with LLVM Exceptions.";
      "// See https://llvm.org/LICENSE.txt for license information.";
      "// SPDX-License-Identifier: Apache-2.0 WITH LLVM-exception";
      "//";
      "//===----------------------------------------------------------------------===//";
      EmptyString;
      "#include " +:+ dq +:+ "../ClangTidy.h" +:+ dq;
      "#include " +:+ dq +:+ "../ClangTidyModule.h" +:+ dq;
      "#include " +:+ dq +:+ "../ClangTidyModuleRegistry.h" +:+ dq;
      EmptyString;
      "namespace clang::tidy {";
      "namespace " +:+ namespace +:+ " {";
      EmptyString;
      "class " +:+ class_name +:+ " : public ClangTidyModule {";
      "public:";
      "  void addCheckFactories(ClangTidyCheckFactories &CheckFactories) override {";
      "  }";
      "};";
      EmptyString;
      "} // namespace " +:+ namespace;
      EmptyString;
      "// Register the " +:+ class_name
        +:+ " using this statically initialized variable.";
      "static ClangTidyModuleRegistry::Add<" +:+ namespace +:+ "::"
        +:+ class_name +:+ ">";
      "    X(" +:+ dq +:+ module +:+ "-module" +:+ dq +:+ ", " +:+ dq
        +:+ "Adds " +:+ module +:+ "-specific lint checks." +:+ dq +:+ ");";
      EmptyString;
      "// This anchor is used to force the linker to link in the generated object file";
      "// and thus register the " +:+ class_name +:+ ".";
      "volatile int " +:+ class_name +:+ "AnchorSource = 0;";
      EmptyString;
      "} // namespace clang::tidy" ].

(** Lines 67-120.  The subtraction on [nat] stops at zero, which is the
    [max(0, ...)] of line 79. *)
Definition write_module_cpp (module_path module module_camel namespace : string)
  : io unit :=
  let filename := path_join module_path [module_camel +:+ "TidyModule.cpp"] in
  let! b := path_exists filename in
  if b then print ("File already exists: " +:+ filename)
  else
    print ("Creating " +:+ filename +:+ "...") >>
    write_file filename
      ("//===--- " +:+ basename filename +:+ " - clang-tidy "
       +:+ str_repeat "-" (51 - String.length (basename filename))
       +:+ "-===//"
       +:+ module_cpp_template namespace (module_camel +:+ "Module") module).

(** ** The two merges, on the file system *)

(** Lines 123-199. *)
Definition update_clang_tidy_cmake (clang_tidy_path module module_camel : string)
  : io unit :=
  let cmake_path := path_join clang_tidy_path ["CMakeLists.txt"] in
  let! lines := read_lines cmake_path in
  let linesout := cmake_linesout module module_camel lines in
  if bool_decide (lines = linesout) then
    print ("Module already included: " +:+ cmake_path)
  else
    print ("Updating " +:+ cmake_path +:+ "...") >>
    write_file cmake_path (writelines linesout).

(** Lines 202-263. *)
Definition update_clang_tidy_force_linker (clang_tidy_path module_camel : string)
  : io unit :=
  let header_path := path_join clang_tidy_path ["ClangTidyForceLinker.h"] in
  let! lines := read_lines header_path in
  let linesout := force_linker_linesout module_camel lines in
  if bool_decide (lines = linesout) then
    print ("Module already has forced link: " +:+ header_path)
  else
    print ("Updating " +:+ header_path +:+ "...") >>
    write_file header_path (writelines linesout).

(** ** The entry point (lines 270-325) *)

(** What [parser.parse_args()] returns: [--description] (with its default
    when the option is absent) and the optional positional [module]. *)
Record Args : Type := { description : string; module : option string }.

(** Truth value of [args.module]: neither [None] nor the empty string. *)
Definition module_true (m : option string) : bool :=
  match m with
  | None => false
  | Some s => str_true s
  end.

(** [argv0] is [sys.argv[0]]. *)
Definition main (argv0 : string) (args : Args) : io unit :=
  if negb (module_true (module args)) then
    print "Module must be specified." >>
    print_usage
  else
    let module := default EmptyString (module args) in
    if negb (isalnum module) then
      print ("Module name must be alphanumeric: " +:+ module)
    else
      let module_camel := get_camel_name module in
      let clang_tidy_path := dirname argv0 in
      let module_path := path_join clang_tidy_path [module] in
      (let! b := path_exists module_path in
       if b then print ("Module path already exists: " +:+ module_path)
       else print ("Creating " +:+ module_path +:+ "...") >> mkdir module_path) >>
      write_cmake module_path module_camel >>
      write_module_cpp module_path module module_camel module >>
      let docs_path :=
        path_join clang_tidy_path [".."; "docs"; "clang-tidy"; "checks"; module] in
      (let! b := path_exists docs_path in
       if b then print ("Docs path already exists: " +:+ docs_path)
       else print ("Creating " +:+ docs_path +:+ "...") >> mkdir docs_path) >>
      let test_path :=
        path_join clang_tidy_path [".."; "test"; "clang-tidy"; "checkers"; module] in
      (let! b := path_exists test_path in
       if b then print ("Test path already exists: " +:+ test_path)
       else print ("Creating " +:+ test_path +:+ "...") >> mkdir test_path) >>
      update_clang_tidy_cmake clang_tidy_path module module_camel >>
      update_clang_tidy_force_linker clang_tidy_path module_camel >>
      print "Done. Now it's your turn!".

(** A run from a file system, with an empty trace. *)
Definition run {A} (m : io A) (files : gmap string node) : result A * world :=
  m (World files []).

(** * Notions for the statements *)

(** ** The command line *)

(** The usage error as the specification words it: a message, then the
    usage text, and nothing else. *)
Definition usage_error_reported (argv0 : string) (args : Args)
    (files : gmap string node) : Prop :=
  exists msg, run (main argv0 args) files
              = (Ok tt, World files [EPrint msg; EUsage]).

(** ** The results of the loops *)

(** The two candidate lines of the CMake merge (lines 138 and 172). *)
Definition add_subdirectory_line_of (module : string) : string :=
  "add_subdirectory(" +:+ module +:+ ")" +:+ nl.
Definition clang_library_line_of (module_camel : string) : string :=
  "  clangTidy" +:+ module_camel +:+ "Module" +:+ nl.

(** The values of [j] after each of the four loops of
    [update_clang_tidy_cmake], and of the two candidate variables after
    their loops. *)
Definition subdirs_start (lines : list string) : nat :=
  seek_prefix "add_subdirectory(" lines.
Definition subdirs_scan (module : string) (lines : list string) : nat * string :=
  scan_subdirectories (add_subdirectory_line_of module)
    (drop (subdirs_start lines) lines).
Definition subdirs_stop (module : string) (lines : list string) : nat :=
  subdirs_start lines + fst (subdirs_scan module lines).
Definition libs_start (module : string) (lines : list string) : nat :=
  subdirs_stop module lines
  + seek_past_checks (drop (subdirs_stop module lines) lines).
Definition libs_scan (module module_camel : string) (lines : list string)
  : nat * string :=
  scan_libraries (clang_library_line_of module_camel)
    (drop (libs_start module lines) lines).
Definition libs_stop (module module_camel : string) (lines : list string) : nat :=
  libs_start module lines + fst (libs_scan module module_camel lines).

(** The same for [update_clang_tidy_force_linker]. *)
Definition anchors_start (lines : list string) : nat :=
  seek_prefix anchor_comment lines.
Definition anchors_scan (module_camel : string) (lines : list string)
  : nat * list string :=
  scan_anchors (link_lines_of module_camel) (drop (anchors_start lines) lines).
Definition anchors_stop (module_camel : string) (lines : list string) : nat :=
  anchors_start lines + fst (anchors_scan module_camel lines).

(** What a candidate variable contributes to [linesout]: itself when it is
    still non-empty. *)
Definition pending (line : string) : list string :=
  if str_true line then [line] else [].

(** ** Guarded blocks *)

(** The shape the two guarded scans share: a line that starts with [opn]
    sends the scan after the next line that starts with [cls]; any other
    line either stops the scan or is passed. *)
Equations? guarded_scan (opn cls : string) (stop : string -> bool)
    (ls : list string) : nat by wf (length ls) lt :=
  guarded_scan opn cls stop [] := 0;
  guarded_scan opn cls stop (l :: r) :=
    if startswith l opn then
      let k := skip_block cls (l :: r) in
      k + guarded_scan opn cls stop (drop k (l :: r))
    else if stop l then 0
    else S (guarded_scan opn cls stop r).
Proof.
  - rewrite length_drop. subst k. simpl.
    destruct (startswith l cls); lia.
  - simpl. lia.
Qed.

(** The lines at which the scan of the [add_subdirectory] list stops. *)
Definition subdirs_stop_line (line l : string) : bool :=
  startswith l "set(ALL_CLANG_TIDY_CHECKS" || String.eqb l line || str_ge l line.

(** The lines at which the scan of the anchor blocks stops. *)
Definition anchors_stop_line (first l : string) : bool :=
  startswith l "} // namespace"
  || (startswith l anchor_comment && (String.eqb l first || str_ge l first)).

(** Every line that starts with [opn] has a later line that starts with
    [cls]. *)
Fixpoint blocks_closed (opn cls : string) (ls : list string) : bool :=
  match ls with
  | [] => true
  | l :: r =>
      (negb (startswith l opn) || existsb (fun x => startswith x cls) r)
      && blocks_closed opn cls r
  end.

(** Every line ends with a newline: the file does. *)
Definition all_terminated (lines : list string) : bool :=
  forallb (fun l => endswith l nl) lines.

(** The index [idx] lies inside a guarded block of [ls] that opens at or
    after [start]: after a line that starts with [opn] and not after the
    first later line that starts with [cls]. *)
Definition inside_block_from (opn cls : string) (ls : list string)
    (start idx : nat) : Prop :=
  exists o c lo lc,
    start <= o /\ o < idx /\ idx <= c /\
    ls !! o = Some lo /\ startswith lo opn = true /\
    ls !! c = Some lc /\ startswith lc cls = true /\
    (forall k lk, o < k -> k < c -> ls !! k = Some lk -> startswith lk cls = false).

(** Inside any guarded block of [ls]. *)
Definition inside_block (opn cls : string) (ls : list string) (idx : nat)
  : Prop :=
  inside_block_from opn cls ls 0 idx.

(** The lines the scan of the library list passes. *)
Definition library_passed (line l : string) : Prop :=
  str_in ")" l = false /\ String.eqb l line = false /\ str_ge l line = false.

(** ** Insertion into a list *)

(** Inserting a line into a list region as the specification words it:
    before the first line that is greater than or equal to it, or at the
    end. *)
Fixpoint insert_before_ge (line : string) (region : list string) : list string :=
  match region with
  | [] => [line]
  | l :: r =>
      if str_ge l line then line :: l :: r
      else l :: insert_before_ge line r
  end.

(** The same, except that nothing is inserted when the first line that is
    greater than or equal to the candidate is the candidate itself. *)
Fixpoint insert_unless_met (line : string) (region : list string) : list string :=
  match region with
  | [] => [line]
  | l :: r =>
      if String.eqb l line then l :: r
      else if str_ge l line then line :: l :: r
      else l :: insert_unless_met line r
  end.

(** What the fourth loop and the lines after it make of the lines that
    follow the [set(ALL_CLANG_TIDY_CHECKS] line. *)
Definition libs_merge (module_camel : string) (post : list string) : list string :=
  let '(k, line) := scan_libraries (clang_library_line_of module_camel) post in
  take k post ++ pending line ++ drop k post.

(** A line of text, for the examples. *)
Definition ln (s : string) : string := s +:+ nl.

(** The guarded scan reads through the lines [a], whatever follows them. *)
Definition read_through (opn cls : string) (stop : string -> bool)
    (a : list string) : Prop :=
  forall b, guarded_scan opn cls stop (a ++ b)
            = length a + guarded_scan opn cls stop b.

(** The third loop of the CMake merge finds the
    [set(ALL_CLANG_TIDY_CHECKS] line: there is one at or after the place
    where the second loop stopped. *)
Definition checks_marker_found (module : string) (lines : list string) : bool :=
  existsb (fun l => startswith l "set(ALL_CLANG_TIDY_CHECKS")
    (drop (subdirs_stop module lines) lines).

(** ** Lines of text *)

(** The character [c] does not occur in [s]. *)
Definition no_char (c : ascii) (s : string) : bool :=
  str_forall (fun x => negb (Ascii.eqb x c)) s.

(** A complete line as [readlines] gives them: a text without line end
    characters, then the newline. *)
Definition line_ok (l : string) : Prop :=
  exists b, l = b +:+ nl /\ no_char lf b = true /\ no_char cr b = true.

(** ** The steps of a run *)

(** The events that leave the file system alone. *)
Definition is_print (e : event) : bool :=
  match e with
  | EPrint _ | EUsage => true
  | EMkdir _ | EWrite _ _ => false
  end.

Definition prints_only (tr : list event) : Prop :=
  Forall (fun e => is_print e = true) tr.

(** An action whose result and file system depend on the file system
    alone, and which adds its events at the end of the trace. *)
Definition appends {A} (a : io A) : Prop :=
  forall m tr,
    a (World m tr)
    = (fst (run a m),
       World (fs (snd (run a m))) (tr ++ trace (snd (run a m)))).

(** A step of the script, with the one path it may create or rewrite:
    [pre] is what the step needs of the node at that path, [settled] says
    that there is nothing left for the step to do there, [writes]
    describes the nodes the step puts there. *)
Record step : Type := Step {
  act : io unit;
  target : string;
  pre : option node -> Prop;
  settled : option node -> Prop;
  writes : node -> Prop
}.

Record step_ok (s : step) : Prop := StepOk {
  ok_appends : appends (act s);
  ok_quiet : forall m,
    settled s (m !! target s) ->
    exists msgs, run (act s) m = (Ok tt, World m msgs) /\ prints_only msgs;
  ok_effect : forall m,
    pre s (m !! target s) ->
    (exists msgs, run (act s) m = (Ok tt, World m msgs)
                  /\ settled s (m !! target s)) \/
    (exists x tr, run (act s) m = (Ok tt, World (<[target s := x]> m) tr)
                  /\ settled s (Some x) /\ writes s x) \/
    (exists e msgs, run (act s) m = (Raise e, World m msgs) /\ prints_only msgs)
}.

(** A step [a] and a later step [b] do not disturb each other: what [b]
    writes at the path of [a] leaves [a] settled, and what [a] writes at the
    path of [b] is something [b] can start from. *)
Definition compatible (a b : step) : Prop :=
  target a = target b ->
  forall x, (writes b x -> settled a (Some x)) /\ (writes a x -> pre b (Some x)).

Fixpoint compatible_list (l : list step) : Prop :=
  match l with
  | [] => True
  | a :: r => Forall (compatible a) r /\ compatible_list r
  end.

(** The steps one after the other, then [last]. *)
Definition steps_then (steps : list step) (last : io unit) : io unit :=
  fold_right (fun s k => act s >> k) last steps.

(** The steps of [main].  A directory step is the test of lines 300-304,
    310-314 and 317-321, with its two messages. *)
Definition dir_step (found creating p : string) : step :=
  {| act := (let! b := path_exists p in
             if b then print found else print creating >> mkdir p);
     target := p;
     pre := fun _ => True;
     settled := fun v => is_Some v;
     writes := fun x => x = Dir |}.

Definition write_cmake_step (module_path module_camel : string) : step :=
  {| act := write_cmake module_path module_camel;
     target := path_join module_path ["CMakeLists.txt"];
     pre := fun _ => True;
     settled := fun v => is_Some v;
     writes := fun x => exists d, x = File d |}.

Definition write_module_cpp_step (module_path module module_camel : string)
  : step :=
  {| act := write_module_cpp module_path module module_camel module;
     target := path_join module_path [module_camel +:+ "TidyModule.cpp"];
     pre := fun _ => True;
     settled := fun v => is_Some v;
     writes := fun x => exists d, x = File d |}.

(** What the second run needs of the CMake file the first run finds. *)
Definition cmake_file_ok (module : string) (content : string) : Prop :=
  all_terminated (readlines content) = true /\
  checks_marker_found module (readlines content) = true.

(** What the second run needs of the header the first run finds. *)
Definition header_file_ok (content : string) : Prop :=
  all_terminated (readlines content) = true /\
  blocks_closed "#if" "#endif" (readlines content) = true.

Definition update_cmake_step (clang_tidy_path module module_camel : string)
  : step :=
  {| act := update_clang_tidy_cmake clang_tidy_path module module_camel;
     target := path_join clang_tidy_path ["CMakeLists.txt"];
     pre := fun v => forall c, v = Some (File c) -> cmake_file_ok module c;
     settled := fun v =>
       exists c, v = Some (File c) /\
         cmake_linesout module module_camel (readlines c) = readlines c;
     writes := fun x => exists d, x = File d |}.

Definition update_force_linker_step (clang_tidy_path module_camel : string)
  : step :=
  {| act := update_clang_tidy_force_linker clang_tidy_path module_camel;
     target := path_join clang_tidy_path ["ClangTidyForceLinker.h"];
     pre := fun v => forall c, v = Some (File c) -> header_file_ok c;
     settled := fun v =>
       exists c, v = Some (File c) /\
         force_linker_linesout module_camel (readlines c) = readlines c;
     writes := fun x => exists d, x = File d |}.

(** The steps of [main] for a module name that passed the validation. *)
Definition main_steps (argv0 module : string) : list step :=
  let module_camel := get_camel_name module in
  let clang_tidy_path := dirname argv0 in
  let module_path := path_join clang_tidy_path [module] in
  let docs_path :=
    path_join clang_tidy_path [".."; "docs"; "clang-tidy"; "checks"; module] in
  let test_path :=
    path_join clang_tidy_path [".."; "test"; "clang-tidy"; "checkers"; module] in
  [ dir_step ("Module path already exists: " +:+ module_path)
      ("Creating " +:+ module_path +:+ "...") module_path;
    write_cmake_step module_path module_camel;
    write_module_cpp_step module_path module module_camel;
    dir_step ("Docs path already exists: " +:+ docs_path)
      ("Creating " +:+ docs_path +:+ "...") docs_path;
    dir_step ("Test path already exists: " +:+ test_path)
      ("Creating " +:+ test_path +:+ "...") test_path;
    update_cmake_step clang_tidy_path module module_camel;
    update_force_linker_step clang_tidy_path module_camel ].

(** [clang_tidy_path], with the separator [os.path.join] puts after it. *)
Definition with_sep (path : string) : string :=
  if negb (str_true path) || endswith path "/" then path else path +:+ "/".

(** ** Names without their hyphens *)

(** [s.replace(c, "")] for a character [c]. *)
Fixpoint remove_char (c : ascii) (s : string) : string :=
  match s with
  | EmptyString => EmptyString
  | String x r =>
      if Ascii.eqb x c then remove_char c r else String x (remove_char c r)
  end.

(** ** Sorted lists *)

(** Every line is strictly smaller than the next one, in the order the
    merge compares lines with. *)
Fixpoint ascending (ls : list string) : bool :=
  match ls with
  | [] => true
  | a :: r =>
      match r with
      | [] => true
      | b :: _ => negb (str_ge a b) && ascending r
      end
  end.

(** ** What a run leaves of the tree it started from *)

(** Every node of [m] is still there in [m'], as it was; only a file at one
    of the [shared] paths may have got another content. *)
Definition kept_except (shared : list string) (m m' : gmap string node) : Prop :=
  forall p x, m !! p = Some x ->
    m' !! p = Some x \/
    (p ∈ shared /\ exists d d', x = File d /\ m' !! p = Some (File d')).

(** The message that comes before a change of the tree: ["Creating ..."]
    before a directory or a new file, ["Creating ..."] or ["Updating ..."]
    before a file is written. *)
Definition announces (a e : event) : Prop :=
  match e with
  | EMkdir p => a = EPrint ("Creating " +:+ p +:+ "...")
  | EWrite p _ =>
      a = EPrint ("Creating " +:+ p +:+ "...") \/
      a = EPrint ("Updating " +:+ p +:+ "...")
  | EPrint _ | EUsage => True
  end.

(** Every change of the tree in [tr] comes directly after its message;
    [prev] is the event before [tr]. *)
Fixpoint announced_after (prev : option event) (tr : list event) : Prop :=
  match tr with
  | [] => True
  | e :: r =>
      (is_print e = false -> exists a, prev = Some a /\ announces a e)
      /\ announced_after (Some e) r
  end.

Definition mutations_announced (tr : list event) : Prop :=
  announced_after None tr.

(** The two files [main] merges into: [CMakeLists.txt] and
    [ClangTidyForceLinker.h] beside the script. *)
Definition shared_files (argv0 : string) : list string :=
  [ path_join (dirname argv0) ["CMakeLists.txt"];
    path_join (dirname argv0) ["ClangTidyForceLinker.h"] ].

(** ** Plain text *)

(** A character of the ASCII range, on which the case functions are those
    of Python. *)
Definition is_ascii (c : ascii) : bool := Nat.ltb (nat_of_ascii c) 128.

(** * Lemmas on the loops *)

(** ** Slices *)

Lemma slice_drop {A} (l : list A) (i j : nat) :
  i <= j -> slice l i j ++ drop j l = drop i l.
Proof.
  intros Hij. unfold slice.
  replace (drop j l) with (drop (j - i) (drop i l))
    by (rewrite drop_drop; f_equal; lia).
  apply take_drop.
Qed.

Lemma take_slice {A} (l : list A) (i j : nat) :
  i <= j -> take i l ++ slice l i j = take j l.
Proof.
  intros Hij. unfold slice.
  rewrite take_take_drop. f_equal. lia.
Qed.

Lemma lookup_after {A} (pre rest : list A) (n k : nat) :
  length pre = n -> (pre ++ rest) !! (n + k) = rest !! k.
Proof.
  intros <-. rewrite lookup_app_r by lia. f_equal. lia.
Qed.

(** ** [skip_block] *)

Lemma skip_block_le cls ls : skip_block cls ls <= length ls.
Proof. induction ls as [|l r IH]; simpl; [lia|]. destruct (startswith l cls); lia. Qed.

Lemma skip_block_pos cls l r : 1 <= skip_block cls (l :: r).
Proof. simpl. destruct (startswith l cls); lia. Qed.

Lemma skip_block_lt_found cls ls :
  skip_block cls ls < length ls -> existsb (fun x => startswith x cls) ls = true.
Proof.
  induction ls as [|l r IH]; simpl; [lia|].
  destruct (startswith l cls); [done|]. simpl. intros H. apply IH. lia.
Qed.

Lemma skip_block_take_app cls ls b :
  existsb (fun x => startswith x cls) ls = true ->
  skip_block cls (take (skip_block cls ls) ls ++ b) = skip_block cls ls.
Proof.
  induction ls as [|l r IH]; simpl; [done|].
  destruct (startswith l cls) eqn:E; simpl; rewrite E; [done|].
  simpl. intros H. by rewrite IH.
Qed.

(** When a closing line is there, the inner loop stops just after the first
    one. *)
Lemma skip_block_spec cls ls :
  existsb (fun x => startswith x cls) ls = true ->
  exists k x,
    skip_block cls ls = S k /\ ls !! k = Some x /\ startswith x cls = true /\
    (forall i y, i < k -> ls !! i = Some y -> startswith y cls = false).
Proof.
  induction ls as [|l r IH]; simpl; [done|].
  destruct (startswith l cls) eqn:E; simpl.
  - intros _. exists 0, l. repeat split; [done..|]. intros; lia.
  - intros (k & x & -> & Hx & Hc & Hbefore)%IH.
    exists (S k), x. repeat split; [done..|].
    intros [|i] y Hi; simpl; [congruence|]. apply Hbefore. lia.
Qed.

Lemma existsb_lookup {A} (f : A -> bool) (ls : list A) i x :
  ls !! i = Some x -> f x = true -> existsb f ls = true.
Proof.
  intros Hx Hf. apply existsb_exists. exists x. split; [|done].
  apply list_elem_of_In. by eapply list_elem_of_lookup_2.
Qed.

(** ** The guarded scan *)

Section GuardedScan.
Variables (opn cls : string) (stop : string -> bool).

Local Abbreviation gscan := (guarded_scan opn cls stop).

Lemma gscan_nil : gscan [] = 0.
Proof. by simp guarded_scan. Qed.

Lemma gscan_cons l r :
  gscan (l :: r) =
  if startswith l opn then
    skip_block cls (l :: r) + gscan (drop (skip_block cls (l :: r)) (l :: r))
  else if stop l then 0 else S (gscan r).
Proof. by simp guarded_scan. Qed.

(** Induction on the lines in the order the scan reads them. *)
Lemma gscan_ind (P : list string -> Prop) :
  P [] ->
  (forall l r,
      startswith l opn = true ->
      P (drop (skip_block cls (l :: r)) (l :: r)) -> P (l :: r)) ->
  (forall l r, startswith l opn = false -> stop l = true -> P (l :: r)) ->
  (forall l r, startswith l opn = false -> stop l = false -> P r -> P (l :: r)) ->
  forall ls, P ls.
Proof.
  intros Hnil Hopen Hstop Hpass ls.
  induction ls as [ls IH] using (induction_ltof1 _ (@length string)).
  unfold ltof in IH. destruct ls as [|l r]; [done|].
  destruct (startswith l opn) eqn:Eo.
  - apply Hopen; [done|]. apply IH. rewrite length_drop.
    pose proof (skip_block_pos cls l r). simpl in *. lia.
  - destruct (stop l) eqn:Es; [by apply Hstop|].
    apply Hpass; [done..|]. apply IH. simpl. lia.
Qed.

Lemma gscan_le ls : gscan ls <= length ls.
Proof.
  induction ls as [|l r Ho IH|l r Ho Hs|l r Ho Hs IH] using gscan_ind;
    rewrite ?gscan_nil, ?gscan_cons, ?Ho, ?Hs; simpl; try lia.
  rewrite length_drop in IH.
  pose proof (skip_block_le cls (l :: r)). simpl in *. lia.
Qed.

(** Where the scan stops before the end, it stops on a line that is not a
    block opener and that the stop test accepts. *)
Lemma gscan_stop_line ls :
  gscan ls < length ls ->
  exists l, ls !! gscan ls = Some l /\ startswith l opn = false /\ stop l = true.
Proof.
  induction ls as [|l r Ho IH|l r Ho Hs|l r Ho Hs IH] using gscan_ind;
    rewrite ?gscan_nil, ?gscan_cons, ?Ho, ?Hs; simpl; try lia.
  - intros H. pose proof (skip_block_le cls (l :: r)) as Hle.
    destruct IH as (x & Hx & ?).
    { rewrite length_drop. simpl in *. lia. }
    exists x. split; [|done]. rewrite lookup_drop in Hx. exact Hx.
  - intros _. by exists l.
  - intros H. destruct IH as (x & Hx & ?); [lia|]. by exists x.
Qed.

(** The lines read before a stop inside [ls] are read in the same way
    whatever follows them. *)
Lemma gscan_take_app ls b :
  gscan ls < length ls ->
  gscan (take (gscan ls) ls ++ b) = gscan ls + gscan b.
Proof.
  induction ls as [|l r Ho IH|l r Ho Hs|l r Ho Hs IH] using gscan_ind;
    rewrite ?gscan_nil, ?gscan_cons, ?Ho, ?Hs; simpl length; try lia.
  - intros H.
    set (k := skip_block cls (l :: r)) in *.
    set (j := gscan (drop k (l :: r))) in *.
    pose proof (skip_block_pos cls l r) as Hpos. fold k in Hpos.
    assert (Hk : k < length (l :: r)) by (simpl; lia).
    pose proof (skip_block_lt_found _ _ Hk) as Hfound.
    destruct k as [|k'] eqn:Ek; [lia|].
    rewrite <- Ek in *.
    assert (Hsplit : take (k + j) (l :: r) = take k (l :: r) ++ take j (drop k (l :: r)))
      by (by rewrite take_take_drop).
    rewrite Hsplit, <- app_assoc.
    assert (Hhd : exists t, take k (l :: r) = l :: t).
    { rewrite Ek. simpl. eauto. }
    destruct Hhd as [t Ht].
    pose proof (skip_block_take_app cls (l :: r)
                  (take j (drop k (l :: r)) ++ b) Hfound) as Hsk.
    fold k in Hsk. rewrite Ht in Hsk |- *.
    simpl app in Hsk |- *. rewrite gscan_cons, Ho, Hsk.
    replace (l :: t ++ take j (drop k (l :: r)) ++ b)
      with (take k (l :: r) ++ take j (drop k (l :: r)) ++ b)
      by (by rewrite Ht).
    rewrite drop_app_length'; [|rewrite length_take; lia].
    rewrite IH; [lia|]. rewrite length_drop. simpl in *. lia.
  - intros _. simpl. lia.
  - intros H. simpl take. simpl app. rewrite gscan_cons, Ho, Hs.
    rewrite IH; lia.
Qed.

(** Lines that are neither openers nor stops are passed one by one. *)
Lemma gscan_pass_app a b :
  Forall (fun l => startswith l opn = false /\ stop l = false) a ->
  gscan (a ++ b) = length a + gscan b.
Proof.
  induction 1 as [|l a [Ho Hs] _ IH]; [done|].
  simpl. by rewrite gscan_cons, Ho, Hs, IH.
Qed.

Lemma blocks_closed_drop n ls :
  blocks_closed opn cls ls = true -> blocks_closed opn cls (drop n ls) = true.
Proof.
  revert n. induction ls as [|l r IH]; intros [|n]; simpl; try done.
  intros [_ H]%andb_prop. by apply IH.
Qed.

(** The same as [gscan_take_app] when every block is closed: the scan then
    cannot leave the lines from inside a block. *)
Lemma gscan_closed_app ls b :
  blocks_closed opn cls ls = true ->
  gscan (take (gscan ls) ls ++ b) = gscan ls + gscan b.
Proof.
  induction ls as [|l r Ho IH|l r Ho Hs|l r Ho Hs IH] using gscan_ind;
    rewrite ?gscan_nil, ?gscan_cons, ?Ho, ?Hs; try done.
  - intros Hc.
    assert (Hfound : existsb (fun x => startswith x cls) (l :: r) = true).
    { simpl in Hc. rewrite Ho in Hc. simpl in Hc.
      apply andb_prop in Hc as [Hc _]. simpl. rewrite Hc. apply orb_true_r. }
    set (k := skip_block cls (l :: r)) in *.
    set (j := gscan (drop k (l :: r))) in *.
    pose proof (skip_block_pos cls l r) as Hpos. fold k in Hpos.
    pose proof (skip_block_le cls (l :: r)) as Hle. fold k in Hle.
    rewrite <- take_take_drop, <- app_assoc.
    pose proof (skip_block_take_app cls (l :: r)
                  (take j (drop k (l :: r)) ++ b) Hfound) as Hsk.
    fold k in Hsk.
    destruct (take k (l :: r)) as [|l' t] eqn:Ht.
    { destruct k; [lia|done]. }
    assert (l' = l) as -> by (destruct k; [lia|]; simpl in Ht; congruence).
    simpl app in Hsk |- *. rewrite gscan_cons, Ho, Hsk.
    replace (l :: t ++ take j (drop k (l :: r)) ++ b)
      with (take k (l :: r) ++ take j (drop k (l :: r)) ++ b)
      by (by rewrite Ht).
    rewrite drop_app_length'; [|rewrite length_take; lia].
    rewrite IH; [lia|]. by apply blocks_closed_drop.
  - intros [_ Hc]%andb_prop. simpl take. simpl app.
    rewrite gscan_cons, Ho, Hs, IH; [lia|done].
Qed.

(** The scan never stops inside a guarded block that starts at or after
    the line the scan started from. *)
Lemma gscan_not_inside ls :
  (forall l, startswith l opn = true -> startswith l cls = false) ->
  ~ inside_block opn cls ls (gscan ls).
Proof.
  intros Hdisj.
  induction ls as [|l r Ho IH|l r Ho Hs|l r Ho Hs IH] using gscan_ind;
    rewrite ?gscan_nil, ?gscan_cons, ?Ho, ?Hs;
    intros (o & c & lo & lc & _ & Hoi & Hic & Hlo & Hopen & Hlc & Hclose & Hfirst);
    try lia.
  - set (k := skip_block cls (l :: r)) in *.
    set (j := gscan (drop k (l :: r))) in *.
    assert (Hfound : existsb (fun x => startswith x cls) (l :: r) = true)
      by (by eapply existsb_lookup).
    destruct (skip_block_spec _ _ Hfound) as (k' & x & Hk & Hx & Hxc & Hbefore).
    fold k in Hk.
    destruct (decide (k <= o)) as [Hge|Hlt].
    + apply IH. exists (o - k), (c - k), lo, lc.
      rewrite !lookup_drop.
      replace (k + (o - k)) with o by lia.
      replace (k + (c - k)) with c by lia.
      repeat split; [lia|lia|fold j; lia|done..|].
      intros i y Hi1 Hi2. rewrite lookup_drop. apply Hfirst; lia.
    + assert (o <> k').
      { intros ->. rewrite Hx in Hlo. injection Hlo as ->.
        rewrite (Hdisj _ Hopen) in Hxc. done. }
      assert (c = k') as ->.
      { destruct (decide (c < k')) as [H1|H1].
        - rewrite (Hbefore c lc H1 Hlc) in Hclose. done.
        - destruct (decide (c = k')) as [|H2]; [done|].
          rewrite (Hfirst k' x) in Hxc; [done|lia|lia|done]. }
      lia.
  - destruct o as [|o].
    + simpl in Hlo. injection Hlo as ->. congruence.
    + destruct c as [|c]; [lia|]. apply IH.
      exists o, c, lo, lc. repeat split; [lia|lia|lia|done..|].
      intros i y Hi1 Hi2 Hy. apply (Hfirst (S i) y); [lia|lia|done].
Qed.

(** A guarded block met by the scan is left after its closing line,
    whatever the lines in between are. *)
Lemma gscan_block_opaque o body c rest :
  startswith o opn = true -> startswith o cls = false ->
  Forall (fun l => startswith l cls = false) body ->
  startswith c cls = true ->
  gscan (o :: body ++ c :: rest) = S (length body) + 1 + gscan rest.
Proof.
  intros Ho Hoc Hbody Hc.
  assert (Hsk : forall b, Forall (fun l => startswith l cls = false) b ->
                skip_block cls (b ++ c :: rest) = S (length b)).
  { induction 1 as [|l b Hl _ IH]; simpl; [by rewrite Hc|by rewrite Hl, IH]. }
  rewrite gscan_cons, Ho.
  change (o :: body ++ c :: rest) with ((o :: body) ++ c :: rest).
  rewrite Hsk by (by constructor).
  replace (S (length (o :: body))) with (length ((o :: body) ++ [c]))
    by (rewrite length_app; simpl; lia).
  replace ((o :: body) ++ c :: rest) with (((o :: body) ++ [c]) ++ rest)
    by (by rewrite <- app_assoc).
  rewrite drop_app_length. rewrite length_app. simpl. lia.
Qed.
End GuardedScan.

Lemma inside_block_from_drop opn cls ls start idx :
  inside_block_from opn cls ls start idx ->
  inside_block opn cls (drop start ls) (idx - start).
Proof.
  intros (o & c & lo & lc & H1 & H2 & H3 & Hlo & Ho & Hlc & Hc & Hfirst).
  exists (o - start), (c - start), lo, lc. rewrite !lookup_drop.
  replace (start + (o - start)) with o by lia.
  replace (start + (c - start)) with c by lia.
  repeat split; [lia|lia|lia|done..|].
  intros k lk Hk1 Hk2. rewrite lookup_drop. apply Hfirst; lia.
Qed.

(** ** The plain loops *)

Lemma seek_prefix_le p ls : seek_prefix p ls <= length ls.
Proof. induction ls as [|l r IH]; simpl; [lia|]. destruct (startswith l p); lia. Qed.

Lemma seek_prefix_before p ls :
  Forall (fun l => startswith l p = false) (take (seek_prefix p ls) ls).
Proof.
  induction ls as [|l r IH]; simpl; [done|].
  destruct (startswith l p) eqn:E; simpl; [done|]. by constructor.
Qed.

Lemma seek_prefix_hit p ls :
  seek_prefix p ls < length ls ->
  exists l, ls !! seek_prefix p ls = Some l /\ startswith l p = true.
Proof.
  induction ls as [|l r IH]; simpl; [lia|].
  destruct (startswith l p) eqn:E; simpl; [by exists l|].
  intros H. apply IH. lia.
Qed.

Lemma seek_prefix_app p a b :
  Forall (fun l => startswith l p = false) a ->
  seek_prefix p (a ++ b) = length a + seek_prefix p b.
Proof. induction 1 as [|l a Hl _ IH]; [done|]. simpl. by rewrite Hl, IH. Qed.

Lemma seek_past_checks_le ls : seek_past_checks ls <= length ls.
Proof.
  induction ls as [|l r IH]; simpl; [lia|].
  destruct (startswith l _); lia.
Qed.

Lemma seek_past_checks_app a mk b :
  Forall (fun l => startswith l "set(ALL_CLANG_TIDY_CHECKS" = false) a ->
  startswith mk "set(ALL_CLANG_TIDY_CHECKS" = true ->
  seek_past_checks (a ++ mk :: b) = S (length a).
Proof.
  intros Ha Hmk. induction Ha as [|l a Hl _ IH]; simpl.
  - by rewrite Hmk.
  - by rewrite Hl, IH.
Qed.

(** When the marker line is there, the loop stops just after the first one. *)
Lemma seek_past_checks_found ls :
  existsb (fun l => startswith l "set(ALL_CLANG_TIDY_CHECKS") ls = true ->
  exists a mk b,
    ls = a ++ mk :: b /\
    Forall (fun l => startswith l "set(ALL_CLANG_TIDY_CHECKS" = false) a /\
    startswith mk "set(ALL_CLANG_TIDY_CHECKS" = true /\
    seek_past_checks ls = S (length a).
Proof.
  induction ls as [|l r IH]; [done|]. cbn [existsb seek_past_checks].
  destruct (startswith l "set(ALL_CLANG_TIDY_CHECKS") eqn:E.
  - intros _. by exists [], l, r.
  - intros (a & mk & b & -> & Ha & Hmk & Hk)%IH.
    exists (l :: a), mk, b. repeat split; [by constructor|done|].
    by rewrite Hk.
Qed.

(** ** The scan of the library list *)

Lemma scan_libraries_le line ls : fst (scan_libraries line ls) <= length ls.
Proof.
  induction ls as [|l r IH]; simpl; [lia|].
  destruct (str_in ")" l), (String.eqb l line), (str_ge l line); simpl; try lia.
  destruct (scan_libraries line r). simpl in *. lia.
Qed.

Lemma scan_libraries_app line a b :
  Forall (library_passed line) a ->
  scan_libraries line (a ++ b)
  = (length a + fst (scan_libraries line b), snd (scan_libraries line b)).
Proof.
  induction 1 as [|l a (H1 & H2 & H3) _ IH]; simpl.
  - by destruct (scan_libraries line b).
  - by rewrite H1, H2, H3, IH.
Qed.

Lemma scan_libraries_before line ls :
  Forall (library_passed line) (take (fst (scan_libraries line ls)) ls).
Proof.
  induction ls as [|l r IH]; simpl; [done|].
  destruct (str_in ")" l) eqn:E1; [done|].
  destruct (String.eqb l line) eqn:E2; [done|].
  destruct (str_ge l line) eqn:E3; [done|].
  destruct (scan_libraries line r) as [j x]. simpl in *. by constructor.
Qed.

(** The candidate is emptied exactly when the scan stopped on it. *)
Lemma scan_libraries_met line ls :
  snd (scan_libraries line ls) = EmptyString ->
  line = EmptyString \/
  exists r, drop (fst (scan_libraries line ls)) ls = line :: r.
Proof.
  induction ls as [|l r IH]; simpl; [by left|].
  destruct (str_in ")" l) eqn:E1; [by left|].
  destruct (String.eqb_spec l line) as [->|Hne]; simpl; [right; by exists r|].
  destruct (str_ge l line) eqn:E3; [by left|].
  destruct (scan_libraries line r) as [j x]. simpl in *. done.
Qed.

Lemma scan_libraries_snd line ls :
  snd (scan_libraries line ls) = line \/ snd (scan_libraries line ls) = EmptyString.
Proof.
  induction ls as [|l r IH]; simpl; [by left|].
  destruct (str_in ")" l); [by left|].
  destruct (String.eqb l line); [by right|].
  destruct (str_ge l line); [by left|].
  destruct (scan_libraries line r) as [j x]. simpl in *. done.
Qed.

(** ** The two guarded scans are instances of [guarded_scan] *)

Lemma scan_subdirectories_fst line ls :
  fst (scan_subdirectories line ls)
  = guarded_scan "if(" "endif()" (subdirs_stop_line line) ls.
Proof.
  induction ls as [|l r Ho IH|l r Ho Hs|l r Ho Hs IH]
    using (gscan_ind "if(" "endif()" (subdirs_stop_line line));
    simp scan_subdirectories guarded_scan; [done|..]; rewrite Ho; cbn zeta.
  - destruct (scan_subdirectories line (drop _ (l :: r))) as [j x].
    simpl in *. by rewrite IH.
  - rewrite Hs. unfold subdirs_stop_line in Hs.
    destruct (startswith l "set(ALL_CLANG_TIDY_CHECKS"); [done|].
    destruct (String.eqb l line); [done|].
    destruct (str_ge l line); [done|]. done.
  - rewrite Hs. unfold subdirs_stop_line in Hs.
    destruct (startswith l "set(ALL_CLANG_TIDY_CHECKS"); [done|].
    destruct (String.eqb l line); [done|].
    destruct (str_ge l line); [done|].
    destruct (scan_subdirectories line r) as [j x]. simpl in *. by rewrite IH.
Qed.

(** The value of [add_subdirectory_line] after the loop: emptied when the
    loop stopped on the line itself. *)
Lemma scan_subdirectories_snd line ls :
  snd (scan_subdirectories line ls)
  = match ls !! fst (scan_subdirectories line ls) with
    | Some l =>
        if startswith l "set(ALL_CLANG_TIDY_CHECKS" then line
        else if String.eqb l line then EmptyString else line
    | None => line
    end.
Proof.
  induction ls as [|l r Ho IH|l r Ho Hs|l r Ho Hs IH]
    using (gscan_ind "if(" "endif()" (subdirs_stop_line line));
    simp scan_subdirectories; [done|..]; rewrite Ho; cbn zeta.
  - destruct (scan_subdirectories line (drop _ (l :: r))) as [j x].
    cbn [fst snd] in *. by rewrite lookup_drop in IH.
  - unfold subdirs_stop_line in Hs.
    destruct (startswith l "set(ALL_CLANG_TIDY_CHECKS") eqn:E1; simpl; [by rewrite E1|].
    destruct (String.eqb l line) eqn:E2; simpl; [by rewrite E1, E2|].
    destruct (str_ge l line) eqn:E3; simpl; [by rewrite E1, E2|done].
  - unfold subdirs_stop_line in Hs.
    destruct (startswith l "set(ALL_CLANG_TIDY_CHECKS") eqn:E1; [done|].
    destruct (String.eqb l line) eqn:E2; [done|].
    destruct (str_ge l line) eqn:E3; [done|].
    destruct (scan_subdirectories line r) as [j x]. by simpl in *.
Qed.

Lemma scan_anchors_fst link_lines ls :
  fst (scan_anchors link_lines ls)
  = guarded_scan "#if" "#endif" (anchors_stop_line (first_line link_lines)) ls.
Proof.
  induction ls as [|l r Ho IH|l r Ho Hs|l r Ho Hs IH]
    using (gscan_ind "#if" "#endif" (anchors_stop_line (first_line link_lines)));
    simp scan_anchors guarded_scan; [done|..]; rewrite Ho; cbn zeta.
  - destruct (scan_anchors link_lines (drop _ (l :: r))) as [j x].
    simpl in *. by rewrite IH.
  - rewrite Hs. unfold anchors_stop_line in Hs.
    destruct (startswith l "} // namespace"); [done|].
    destruct (startswith l anchor_comment); [|done]. simpl in *.
    destruct (String.eqb l (first_line link_lines)); [done|].
    destruct (str_ge l (first_line link_lines)); [done|]. done.
  - rewrite Hs. unfold anchors_stop_line in Hs.
    destruct (startswith l "} // namespace"); [done|].
    destruct (startswith l anchor_comment); simpl in *.
    + destruct (String.eqb l (first_line link_lines)); [done|].
      destruct (str_ge l (first_line link_lines)); [done|].
      destruct (scan_anchors link_lines r) as [j x]. simpl in *. by rewrite IH.
    + destruct (scan_anchors link_lines r) as [j x]. simpl in *. by rewrite IH.
Qed.

(** The value of [link_lines] after the loop: emptied when the loop stopped
    on the first of the lines. *)
Lemma scan_anchors_snd link_lines ls :
  snd (scan_anchors link_lines ls)
  = match ls !! fst (scan_anchors link_lines ls) with
    | Some l =>
        if startswith l "} // namespace" then link_lines
        else if String.eqb l (first_line link_lines) then [] else link_lines
    | None => link_lines
    end.
Proof.
  induction ls as [|l r Ho IH|l r Ho Hs|l r Ho Hs IH]
    using (gscan_ind "#if" "#endif" (anchors_stop_line (first_line link_lines)));
    simp scan_anchors; [done|..]; rewrite Ho; cbn zeta.
  - destruct (scan_anchors link_lines (drop _ (l :: r))) as [j x].
    cbn [fst snd] in *. by rewrite lookup_drop in IH.
  - unfold anchors_stop_line in Hs.
    destruct (startswith l "} // namespace") eqn:E1; simpl; [by rewrite E1|].
    destruct (startswith l anchor_comment) eqn:E0; [|done]. simpl in *.
    destruct (String.eqb l (first_line link_lines)) eqn:E2; simpl; [by rewrite E1, E2|].
    destruct (str_ge l (first_line link_lines)) eqn:E3; simpl; [by rewrite E1, E2|done].
  - unfold anchors_stop_line in Hs.
    destruct (startswith l "} // namespace") eqn:E1; [done|].
    destruct (startswith l anchor_comment) eqn:E0; simpl in *.
    + destruct (String.eqb l (first_line link_lines)) eqn:E2; [done|].
      destruct (str_ge l (first_line link_lines)) eqn:E3; [done|].
      destruct (scan_anchors link_lines r) as [j x]. by simpl in *.
    + destruct (scan_anchors link_lines r) as [j x]. by simpl in *.
Qed.

(** ** The shape of [linesout] *)

Lemma subdirs_start_le lines : subdirs_start lines <= length lines.
Proof. apply seek_prefix_le. Qed.

Lemma subdirs_stop_le module lines :
  subdirs_start lines <= subdirs_stop module lines <= length lines.
Proof.
  unfold subdirs_stop, subdirs_scan. rewrite scan_subdirectories_fst.
  pose proof (subdirs_start_le lines).
  pose proof (gscan_le "if(" "endif()"
                (subdirs_stop_line (add_subdirectory_line_of module))
                (drop (subdirs_start lines) lines)) as H1.
  rewrite length_drop in H1. lia.
Qed.

Lemma libs_start_le module lines :
  subdirs_stop module lines <= libs_start module lines <= length lines.
Proof.
  unfold libs_start. pose proof (subdirs_stop_le module lines).
  pose proof (seek_past_checks_le (drop (subdirs_stop module lines) lines)) as H1.
  rewrite length_drop in H1. lia.
Qed.

Lemma libs_stop_le module module_camel lines :
  libs_start module lines <= libs_stop module module_camel lines <= length lines.
Proof.
  unfold libs_stop, libs_scan. pose proof (libs_start_le module lines).
  pose proof (scan_libraries_le (clang_library_line_of module_camel)
                (drop (libs_start module lines) lines)) as H1.
  rewrite length_drop in H1. lia.
Qed.

Lemma anchors_stop_le module_camel lines :
  anchors_start lines <= anchors_stop module_camel lines <= length lines.
Proof.
  unfold anchors_stop, anchors_scan. rewrite scan_anchors_fst.
  pose proof (seek_prefix_le anchor_comment lines). fold (anchors_start lines) in *.
  pose proof (gscan_le "#if" "#endif"
                (anchors_stop_line (first_line (link_lines_of module_camel)))
                (drop (anchors_start lines) lines)) as H1.
  rewrite length_drop in H1. lia.
Qed.

(** [linesout] is [lines] with the two candidate variables, as the loops
    left them, put in at the places where the second and the fourth loop
    stopped. *)
Lemma cmake_linesout_shape module module_camel lines :
  cmake_linesout module module_camel lines
  = take (subdirs_stop module lines) lines
    ++ pending (snd (subdirs_scan module lines))
    ++ slice lines (subdirs_stop module lines) (libs_stop module module_camel lines)
    ++ pending (snd (libs_scan module module_camel lines))
    ++ drop (libs_stop module module_camel lines) lines.
Proof.
  pose proof (subdirs_stop_le module lines) as H2.
  pose proof (libs_start_le module lines) as H3.
  pose proof (libs_stop_le module module_camel lines) as H4.
  unfold cmake_linesout.
  fold (add_subdirectory_line_of module) (clang_library_line_of module_camel).
  fold (subdirs_start lines). fold (subdirs_scan module lines).
  destruct (subdirs_scan module lines) as [k2 line2] eqn:E2.
  assert (Hj2 : subdirs_start lines + k2 = subdirs_stop module lines)
    by (unfold subdirs_stop; by rewrite E2).
  rewrite Hj2. fold (libs_start module lines).
  fold (libs_scan module module_camel lines).
  destruct (libs_scan module module_camel lines) as [k4 line4] eqn:E4.
  assert (Hj4 : libs_start module lines + k4 = libs_stop module module_camel lines)
    by (unfold libs_stop; by rewrite E4).
  rewrite Hj4. cbn [snd app].
  assert (Hs : slice lines 0 (subdirs_start lines)
               ++ slice lines (subdirs_start lines) (subdirs_stop module lines)
               = take (subdirs_stop module lines) lines).
  { unfold slice at 1. rewrite drop_0, Nat.sub_0_r. apply take_slice. lia. }
  assert (Hm : slice lines (subdirs_stop module lines) (libs_start module lines)
               ++ slice lines (libs_start module lines)
                    (libs_stop module module_camel lines)
               = slice lines (subdirs_stop module lines)
                   (libs_stop module module_camel lines)).
  { unfold slice. rewrite <- (take_slice (drop _ lines) (libs_start module lines
        - subdirs_stop module lines) (libs_stop module module_camel lines
        - subdirs_stop module lines)) by lia.
    f_equal. unfold slice. rewrite drop_drop. f_equal; [lia|f_equal; lia]. }
  unfold pending.
  destruct (str_true line2), (str_true line4);
    rewrite Hs, <- ?app_assoc, ?Hm; simpl;
    rewrite <- ?app_assoc; try done;
    by rewrite (app_assoc (slice lines _ (libs_start module lines))), Hm.
Qed.

Lemma force_linker_linesout_shape module_camel lines :
  force_linker_linesout module_camel lines
  = take (anchors_stop module_camel lines) lines
    ++ snd (anchors_scan module_camel lines)
    ++ drop (anchors_stop module_camel lines) lines.
Proof.
  unfold force_linker_linesout. fold (anchors_start lines).
  fold (anchors_scan module_camel lines).
  destruct (anchors_scan module_camel lines) as [k ll] eqn:E.
  assert (Hj : anchors_start lines + k = anchors_stop module_camel lines)
    by (unfold anchors_stop; by rewrite E).
  rewrite Hj. unfold slice. rewrite drop_0, Nat.sub_0_r. cbn [snd app].
  destruct ll; [done|]. by rewrite <- app_assoc.
Qed.

(** Nothing pending: [linesout] is [lines]. *)
Lemma cmake_linesout_unchanged module module_camel lines :
  snd (subdirs_scan module lines) = EmptyString ->
  snd (libs_scan module module_camel lines) = EmptyString ->
  cmake_linesout module module_camel lines = lines.
Proof.
  intros H2 H4. rewrite cmake_linesout_shape, H2, H4. simpl.
  pose proof (subdirs_stop_le module lines).
  pose proof (libs_start_le module lines).
  pose proof (libs_stop_le module module_camel lines).
  rewrite slice_drop by lia. apply take_drop.
Qed.

Lemma force_linker_linesout_unchanged module_camel lines :
  snd (anchors_scan module_camel lines) = [] ->
  force_linker_linesout module_camel lines = lines.
Proof.
  intros H. rewrite force_linker_linesout_shape, H. apply take_drop.
Qed.

Lemma pending_cases line : pending line = [] \/ pending line = [line].
Proof. unfold pending. destruct (str_true line); auto. Qed.

(** ** Facts on the marker prefixes *)

Lemma startswith_cons_ne (c d : ascii) (s p : string) :
  c <> d -> startswith (String c s) (String d p) = false.
Proof.
  intros Hne. unfold startswith. simpl.
  destruct (ascii_dec d c) as [->|]; done.
Qed.

Lemma startswith_first (l : string) (d : ascii) (p : string) :
  startswith l (String d p) = true -> exists s, l = String d s.
Proof.
  unfold startswith. destruct l as [|c s]; simpl; [done|].
  destruct (ascii_dec d c) as [->|]; [eauto|done].
Qed.

Lemma startswith_cons (c d : ascii) (s p : string) :
  startswith (String c s) (String d p) = bool_decide (d = c) && startswith s p.
Proof.
  unfold startswith. cbn [String.prefix].
  destruct (ascii_dec d c) as [->|Hne].
  - by rewrite bool_decide_eq_true_2.
  - by rewrite bool_decide_eq_false_2.
Qed.

Lemma checks_not_if l :
  startswith l "set(ALL_CLANG_TIDY_CHECKS" = true -> startswith l "if(" = false.
Proof. intros [s ->]%startswith_first. by apply startswith_cons_ne. Qed.

Lemma if_not_endif l :
  startswith l "if(" = true -> startswith l "endif()" = false.
Proof. intros [s ->]%startswith_first. by apply startswith_cons_ne. Qed.

Lemma hash_if_not_endif l :
  startswith l "#if" = true -> startswith l "#endif" = false.
Proof.
  intros H. destruct (startswith_first _ _ _ H) as [s ->].
  rewrite startswith_cons in H |- *. simpl in H |- *.
  destruct s as [|c s]; [done|].
  rewrite startswith_cons in H |- *.
  apply andb_prop in H as [<-%bool_decide_eq_true _].
  by rewrite bool_decide_eq_false_2.
Qed.

Lemma add_subdirectory_line_true module :
  str_true (add_subdirectory_line_of module) = true.
Proof. done. Qed.

Lemma pending_true line : str_true line = true -> pending line = [line].
Proof. unfold pending. by intros ->. Qed.

(** ** The candidate variables after their loops *)

Lemma scan_subdirectories_snd_cases line ls :
  snd (scan_subdirectories line ls) = line \/
  snd (scan_subdirectories line ls) = EmptyString.
Proof.
  rewrite scan_subdirectories_snd.
  destruct (ls !! _) as [l|]; [|by left].
  destruct (startswith l _); [by left|].
  destruct (String.eqb l line); [by right|by left].
Qed.

Lemma scan_anchors_snd_cases link_lines ls :
  snd (scan_anchors link_lines ls) = link_lines \/
  snd (scan_anchors link_lines ls) = [].
Proof.
  rewrite scan_anchors_snd.
  destruct (ls !! _) as [l|]; [|by left].
  destruct (startswith l _); [by left|].
  destruct (String.eqb l _); [by right|by left].
Qed.

Lemma startswith_nil s : startswith s EmptyString = true.
Proof. by destruct s. Qed.

Lemma startswith_app p s : startswith (p +:+ s) p = true.
Proof.
  induction p as [|c p IH]; [apply startswith_nil|].
  change (String c p +:+ s) with (String c (p +:+ s)).
  rewrite startswith_cons, IH. by rewrite bool_decide_eq_true_2.
Qed.

Lemma add_subdirectory_line_prefix module :
  startswith (add_subdirectory_line_of module) "add_subdirectory(" = true.
Proof. apply startswith_app. Qed.

Lemma first_line_anchor module_camel :
  startswith (first_line (link_lines_of module_camel)) anchor_comment = true.
Proof.
  change (first_line (link_lines_of module_camel))
    with (anchor_comment
          +:+ ("is used to force the linker to link the "
               +:+ module_camel +:+ "Module." +:+ nl)).
  apply startswith_app.
Qed.

(** * The command line: validation and the camel-case name *)

Lemma prefix_char (c d : ascii) (r : string) :
  String.prefix (String c EmptyString) (String d r) = bool_decide (c = d).
Proof.
  simpl. destruct (ascii_dec c d) as [->|Hne].
  - rewrite bool_decide_eq_true_2 by done. by destruct r.
  - by rewrite bool_decide_eq_false_2.
Qed.

Lemma alnum_no_hyphen (s : string) :
  str_forall is_alnum s = true -> str_in "-" s = false.
Proof.
  induction s as [|c r IH]; [done|].
  cbn [str_forall str_in]. intros [Hc Hr]%andb_prop.
  rewrite prefix_char, (IH Hr), orb_false_r.
  apply bool_decide_eq_false_2. intros <-. discriminate Hc.
Qed.

Lemma alnum_single_segment (s : string) :
  str_forall is_alnum s = true -> str_split "-" s = [s].
Proof.
  induction s as [|c r IH]; [done|].
  cbn [str_forall str_split]. intros [Hc Hr]%andb_prop.
  rewrite (IH Hr).
  destruct (Ascii.eqb_spec c "-") as [->|_]; [discriminate Hc|done].
Qed.

(** C7: ["MyModule2"] passes the validation of [main] and is a single
    segment, but [get_camel_name] is [str.capitalize] on that segment, which
    also lower-cases the characters after the first: the result is
    ["Mymodule2"]. *)
Theorem C7_camel_of_MyModule2 :
  isalnum "MyModule2" = true /\
  str_split "-" "MyModule2" = ["MyModule2"] /\
  get_camel_name "MyModule2" = capitalize "MyModule2" /\
  get_camel_name "MyModule2" = "Mymodule2".
Proof. repeat split; reflexivity. Qed.

(** The transform is not the identity on ["MyModule2"]. *)
Lemma C7_counterexample : get_camel_name "MyModule2" <> "MyModule2".
Proof. vm_compute. discriminate. Qed.

(** C9: the value of [--description] has no influence on a run: the result,
    the final file system and the whole trace of prints, directory creations
    and writes are the same for any two descriptions. *)
Theorem C9_description_unused (argv0 d1 d2 : string) (m : option string)
    (w : world) :
  main argv0 {| description := d1; module := m |} w
  = main argv0 {| description := d2; module := m |} w.
Proof. reflexivity. Qed.

(** C10: a module name with a hyphen is rejected by the [isalnum] test of
    [main]: the run prints the rejection and nothing else happens; and
    every name that reaches [get_camel_name] through [main] is one segment,
    so that the result is [capitalize] of the whole name. *)
Theorem C10_hyphen_rejected (argv0 : string) (args : Args) (m : string)
    (files : gmap string node) :
  module args = Some m ->
  str_in "-" m = true ->
  isalnum m = false /\
  run (main argv0 args) files
  = (Ok tt, World files [EPrint ("Module name must be alphanumeric: " +:+ m)]) /\
  (forall m', isalnum m' = true ->
     str_split "-" m' = [m'] /\ get_camel_name m' = capitalize m').
Proof.
  intros Hm Hin.
  assert (Hal : isalnum m = false).
  { unfold isalnum. destruct (str_forall is_alnum m) eqn:E.
    - apply alnum_no_hyphen in E. congruence.
    - apply andb_false_r. }
  split; [done|]. split.
  - assert (Ht : str_true m = true) by (by destruct m).
    unfold run, main. rewrite Hm.
    change (module_true (Some m)) with (str_true m). rewrite Ht.
    change (default EmptyString (Some m)) with m. rewrite Hal. reflexivity.
  - intros m' [_ H]%andb_prop. unfold get_camel_name.
    rewrite (alnum_single_segment _ H). done.
Qed.

Lemma C10_witness :
  let args := {| description := "FIXME: Write a short description";
                 module := Some "my-module" |} in
  module args = Some "my-module" /\
  str_in "-" "my-module" = true /\
  (isalnum "my-module" = false /\
   run (main "clang-tidy/add_new_module.py" args) ∅
   = (Ok tt, World ∅ [EPrint "Module name must be alphanumeric: my-module"]) /\
   (forall m', isalnum m' = true ->
      str_split "-" m' = [m'] /\ get_camel_name m' = capitalize m')).
Proof.
  intros args. split; [reflexivity|]. split; [reflexivity|].
  exact (C10_hyphen_rejected "clang-tidy/add_new_module.py" args "my-module" ∅
           eq_refl eq_refl).
Defined.

(** C6: a missing (or empty) module name gives the message and the usage
    text, a name that is not alphanumeric gives the rejection message alone;
    in both cases the run ends there: the file system is the one the run
    started from and nothing but the prints is in the trace. *)
Theorem C6_usage_errors (argv0 : string) (args : Args)
    (files : gmap string node) :
  (module_true (module args) = false ->
   run (main argv0 args) files
   = (Ok tt, World files [EPrint "Module must be specified."; EUsage])) /\
  (forall m, module args = Some m -> m <> EmptyString -> isalnum m = false ->
   run (main argv0 args) files
   = (Ok tt, World files [EPrint ("Module name must be alphanumeric: " +:+ m)])).
Proof.
  split.
  - intros H. unfold run, main. rewrite H. reflexivity.
  - intros m Hm Hne Hal.
    assert (Ht : str_true m = true) by (by destruct m).
    unfold run, main. rewrite Hm.
    change (module_true (Some m)) with (str_true m). rewrite Ht.
    change (default EmptyString (Some m)) with m. rewrite Hal. reflexivity.
Qed.

Lemma C6_witness :
  let missing := {| description := "FIXME: Write a short description";
                    module := None |} in
  let bad := {| description := "FIXME: Write a short description";
                module := Some "my-module!" |} in
  (module_true (module missing) = false /\
   run (main "add_new_module.py" missing) ∅
   = (Ok tt, World ∅ [EPrint "Module must be specified."; EUsage])) /\
  (module bad = Some "my-module!" /\ "my-module!" <> EmptyString /\
   isalnum "my-module!" = false /\
   run (main "add_new_module.py" bad) ∅
   = (Ok tt, World ∅ [EPrint "Module name must be alphanumeric: my-module!"])).
Proof.
  intros missing bad. split.
  - split; [reflexivity|].
    exact (proj1 (C6_usage_errors "add_new_module.py" missing ∅) eq_refl).
  - assert (Hne : "my-module!" <> EmptyString) by discriminate.
    split; [reflexivity|]. split; [exact Hne|]. split; [reflexivity|].
    exact (proj2 (C6_usage_errors "add_new_module.py" bad ∅)
             "my-module!" eq_refl Hne eq_refl).
Defined.

(** The rejection of a non-alphanumeric name does not print the usage text. *)
Lemma C6_counterexample :
  isalnum "my-module!" = false /\
  ~ usage_error_reported "add_new_module.py"
      {| description := "d"; module := Some "my-module!" |} ∅.
Proof.
  split; [reflexivity|]. intros [msg H]. vm_compute in H. discriminate H.
Qed.

(** * The two merges *)

(** ** Runs of the two merges on the file system *)

Lemma run_update_cmake_unchanged clang_tidy_path module module_camel files content :
  files !! path_join clang_tidy_path ["CMakeLists.txt"] = Some (File content) ->
  cmake_linesout module module_camel (readlines content) = readlines content ->
  run (update_clang_tidy_cmake clang_tidy_path module module_camel) files
  = (Ok tt, World files
              [EPrint ("Module already included: "
                       +:+ path_join clang_tidy_path ["CMakeLists.txt"])]).
Proof.
  intros Hf Hout. unfold run, update_clang_tidy_cmake, bind, read_lines.
  cbn [fs trace]. rewrite Hf, Hout. by rewrite bool_decide_eq_true_2.
Qed.

Lemma run_update_force_linker_unchanged clang_tidy_path module_camel files content :
  files !! path_join clang_tidy_path ["ClangTidyForceLinker.h"] = Some (File content) ->
  force_linker_linesout module_camel (readlines content) = readlines content ->
  run (update_clang_tidy_force_linker clang_tidy_path module_camel) files
  = (Ok tt, World files
              [EPrint ("Module already has forced link: "
                       +:+ path_join clang_tidy_path ["ClangTidyForceLinker.h"])]).
Proof.
  intros Hf Hout. unfold run, update_clang_tidy_force_linker, bind, read_lines.
  cbn [fs trace]. rewrite Hf, Hout. by rewrite bool_decide_eq_true_2.
Qed.

(** ** C5: the lines of the file are kept *)

Lemma linesout_kept (module module_camel : string) (lines : list string) :
  (exists a b c s l,
      lines = a ++ b ++ c /\
      cmake_linesout module module_camel lines = a ++ s ++ b ++ l ++ c /\
      (s = [] \/ s = [add_subdirectory_line_of module]) /\
      (l = [] \/ l = [clang_library_line_of module_camel])) /\
  (exists a c s,
      lines = a ++ c /\
      force_linker_linesout module_camel lines = a ++ s ++ c /\
      (s = [] \/ s = link_lines_of module_camel)).
Proof.
  split.
  - pose proof (subdirs_stop_le module lines).
    pose proof (libs_start_le module lines).
    pose proof (libs_stop_le module module_camel lines).
    exists (take (subdirs_stop module lines) lines),
      (slice lines (subdirs_stop module lines) (libs_stop module module_camel lines)),
      (drop (libs_stop module module_camel lines) lines),
      (pending (snd (subdirs_scan module lines))),
      (pending (snd (libs_scan module module_camel lines))).
    split; [by rewrite slice_drop, take_drop by lia|].
    split; [apply cmake_linesout_shape|]. split.
    + destruct (scan_subdirectories_snd_cases (add_subdirectory_line_of module)
                  (drop (subdirs_start lines) lines)) as [E|E];
        unfold subdirs_scan; rewrite E; [apply pending_cases|by left].
    + destruct (scan_libraries_snd (clang_library_line_of module_camel)
                  (drop (libs_start module lines) lines)) as [E|E];
        unfold libs_scan; rewrite E; [apply pending_cases|by left].
  - exists (take (anchors_stop module_camel lines) lines),
      (drop (anchors_stop module_camel lines) lines),
      (snd (anchors_scan module_camel lines)).
    split; [by rewrite take_drop|].
    split; [apply force_linker_linesout_shape|].
    destruct (scan_anchors_snd_cases (link_lines_of module_camel)
                (drop (anchors_start lines) lines)) as [E|E];
      unfold anchors_scan; rewrite E; auto.
Qed.

(** On the file system, a merge changes nothing or puts [linesout], written
    line after line, in the place of the file it read. *)
Lemma update_cmake_frame clang_tidy_path module module_camel files :
  let path := path_join clang_tidy_path ["CMakeLists.txt"] in
  let after := fs (snd (run (update_clang_tidy_cmake clang_tidy_path
                               module module_camel) files)) in
  after = files \/
  exists content,
    files !! path = Some (File content) /\
    after = <[path := File (writelines
                (cmake_linesout module module_camel (readlines content)))]> files.
Proof.
  intros path after. subst after.
  unfold run, update_clang_tidy_cmake, bind, read_lines, write_file, print, emit.
  cbn [fs trace]. fold path.
  destruct (files !! path) as [[|content]|] eqn:E; cbn [fst snd fs]; [by left| |by left].
  destruct (bool_decide _); cbn [fst snd fs trace]; [by left|].
  destruct (parent_check files path); cbn [fst snd fs]; [by left|].
  rewrite E. cbn [fst snd fs]. right. by exists content.
Qed.

Lemma update_force_linker_frame clang_tidy_path module_camel files :
  let path := path_join clang_tidy_path ["ClangTidyForceLinker.h"] in
  let after := fs (snd (run (update_clang_tidy_force_linker clang_tidy_path
                               module_camel) files)) in
  after = files \/
  exists content,
    files !! path = Some (File content) /\
    after = <[path := File (writelines
                (force_linker_linesout module_camel (readlines content)))]> files.
Proof.
  intros path after. subst after.
  unfold run, update_clang_tidy_force_linker, bind, read_lines, write_file,
    print, emit.
  cbn [fs trace]. fold path.
  destruct (files !! path) as [[|content]|] eqn:E; cbn [fst snd fs]; [by left| |by left].
  destruct (bool_decide _); cbn [fst snd fs trace]; [by left|].
  destruct (parent_check files path); cbn [fst snd fs]; [by left|].
  rewrite E. cbn [fst snd fs]. right. by exists content.
Qed.

(** C5: [linesout] is [lines] with at most the [add_subdirectory] line and
    the library line put in at two places (CMake file), or with at most the
    five link lines put in at one place (header): every line of [lines] is
    there, unchanged and in the same order.  On the file system, each
    routine leaves everything as it is or replaces the one file it read by
    these lines. *)
Theorem C5_lines_kept (clang_tidy_path module module_camel : string)
    (lines : list string) (files : gmap string node) :
  (exists a b c s l,
      lines = a ++ b ++ c /\
      cmake_linesout module module_camel lines = a ++ s ++ b ++ l ++ c /\
      (s = [] \/ s = [add_subdirectory_line_of module]) /\
      (l = [] \/ l = [clang_library_line_of module_camel])) /\
  (exists a c s,
      lines = a ++ c /\
      force_linker_linesout module_camel lines = a ++ s ++ c /\
      (s = [] \/ s = link_lines_of module_camel)) /\
  (let path := path_join clang_tidy_path ["CMakeLists.txt"] in
   let after := fs (snd (run (update_clang_tidy_cmake clang_tidy_path
                                module module_camel) files)) in
   after = files \/
   exists content,
     files !! path = Some (File content) /\
     after = <[path := File (writelines
                 (cmake_linesout module module_camel (readlines content)))]>
               files) /\
  (let path := path_join clang_tidy_path ["ClangTidyForceLinker.h"] in
   let after := fs (snd (run (update_clang_tidy_force_linker clang_tidy_path
                                module_camel) files)) in
   after = files \/
   exists content,
     files !! path = Some (File content) /\
     after = <[path := File (writelines
                 (force_linker_linesout module_camel (readlines content)))]>
               files).
Proof.
  destruct (linesout_kept module module_camel lines) as [H1 H2].
  split; [exact H1|]. split; [exact H2|]. split.
  - apply update_cmake_frame.
  - apply update_force_linker_frame.
Qed.

(** ** C4: nothing to put in, nothing written *)

(** C4: when the two loops of the CMake merge both met their candidate
    line (each variable is emptied), or when [linesout] equals [lines], the
    run prints "Module already included" and the file system is the one it
    started from; the same for the header when the loop met the first link
    line, with "Module already has forced link". *)
Theorem C4_no_write_when_nothing_pending (clang_tidy_path module module_camel : string)
    (files : gmap string node) (content : string) :
  (files !! path_join clang_tidy_path ["CMakeLists.txt"] = Some (File content) ->
   (snd (subdirs_scan module (readlines content)) = EmptyString /\
    snd (libs_scan module module_camel (readlines content)) = EmptyString) \/
   cmake_linesout module module_camel (readlines content) = readlines content ->
   run (update_clang_tidy_cmake clang_tidy_path module module_camel) files
   = (Ok tt, World files
               [EPrint ("Module already included: "
                        +:+ path_join clang_tidy_path ["CMakeLists.txt"])])) /\
  (files !! path_join clang_tidy_path ["ClangTidyForceLinker.h"]
     = Some (File content) ->
   snd (anchors_scan module_camel (readlines content)) = [] \/
   force_linker_linesout module_camel (readlines content) = readlines content ->
   run (update_clang_tidy_force_linker clang_tidy_path module_camel) files
   = (Ok tt, World files
               [EPrint ("Module already has forced link: "
                        +:+ path_join clang_tidy_path ["ClangTidyForceLinker.h"])])).
Proof.
  split; intros Hf H.
  - eapply run_update_cmake_unchanged; [done|].
    destruct H as [[H2 H4]|H]; [|done]. by apply cmake_linesout_unchanged.
  - eapply run_update_force_linker_unchanged; [done|].
    destruct H as [H|H]; [|done]. by apply force_linker_linesout_unchanged.
Qed.

Lemma C4_witness :
  let cmake := writelines
      [ln "add_subdirectory(foo)"; ln "set(ALL_CLANG_TIDY_CHECKS";
       ln "  clangTidyFooModule"; ln "  )"] in
  let files : gmap string node := {[ "ct/CMakeLists.txt" := File cmake ]} in
  files !! path_join "ct" ["CMakeLists.txt"] = Some (File cmake) /\
  snd (subdirs_scan "foo" (readlines cmake)) = EmptyString /\
  snd (libs_scan "foo" "Foo" (readlines cmake)) = EmptyString /\
  run (update_clang_tidy_cmake "ct" "foo" "Foo") files
  = (Ok tt, World files [EPrint "Module already included: ct/CMakeLists.txt"]).
Proof.
  intros cmake files.
  assert (H1 : files !! path_join "ct" ["CMakeLists.txt"] = Some (File cmake))
    by reflexivity.
  assert (H2 : snd (subdirs_scan "foo" (readlines cmake)) = EmptyString)
    by (vm_compute; reflexivity).
  assert (H3 : snd (libs_scan "foo" "Foo" (readlines cmake)) = EmptyString)
    by (vm_compute; reflexivity).
  split; [exact H1|]. split; [exact H2|]. split; [exact H3|].
  exact (proj1 (C4_no_write_when_nothing_pending "ct" "foo" "Foo" files cmake)
           H1 (or_introl (conj H2 H3))).
Defined.

(** The [add_subdirectory] line is met, the library line is not: the file
    is written. *)
Lemma C4_counterexample :
  let cmake := writelines
      [ln "add_subdirectory(foo)"; ln "set(ALL_CLANG_TIDY_CHECKS"; ln "  )"] in
  let cmake' := writelines
      [ln "add_subdirectory(foo)"; ln "set(ALL_CLANG_TIDY_CHECKS";
       ln "  clangTidyFooModule"; ln "  )"] in
  let files : gmap string node :=
    <["ct" := Dir]> {[ "ct/CMakeLists.txt" := File cmake ]} in
  snd (subdirs_scan "foo" (readlines cmake)) = EmptyString /\
  run (update_clang_tidy_cmake "ct" "foo" "Foo") files
  = (Ok tt, World (<["ct/CMakeLists.txt" := File cmake']> files)
              [EPrint "Updating ct/CMakeLists.txt...";
               EWrite "ct/CMakeLists.txt" cmake']) /\
  cmake' <> cmake.
Proof.
  intros cmake cmake' files. split; [vm_compute; reflexivity|].
  split; [vm_compute; reflexivity|]. vm_compute. discriminate.
Qed.

(** ** C3: guarded blocks *)

Lemma scan_subdirectories_block line a o body c rest :
  Forall (fun l => startswith l "if(" = false /\ subdirs_stop_line line l = false) a ->
  startswith o "if(" = true ->
  Forall (fun l => startswith l "endif()" = false) body ->
  startswith c "endif()" = true ->
  scan_subdirectories line (a ++ o :: body ++ c :: rest)
  = (length a + length body + 2 + fst (scan_subdirectories line rest),
     snd (scan_subdirectories line rest)).
Proof.
  intros Ha Ho Hbody Hc.
  assert (Hfst : fst (scan_subdirectories line (a ++ o :: body ++ c :: rest))
                 = length a + length body + 2 + fst (scan_subdirectories line rest)).
  { rewrite !scan_subdirectories_fst, gscan_pass_app by done.
    rewrite gscan_block_opaque by (done || by apply if_not_endif). lia. }
  apply injective_projections; [done|]. cbn [snd].
  rewrite scan_subdirectories_snd, Hfst.
  replace (a ++ o :: body ++ c :: rest) with ((a ++ o :: body ++ [c]) ++ rest)
    by (rewrite <- app_assoc; simpl; by rewrite <- app_assoc).
  rewrite lookup_after by (rewrite !length_app; simpl; rewrite length_app; simpl; lia).
  by rewrite <- scan_subdirectories_snd.
Qed.

Lemma scan_anchors_block link_lines a o body c rest :
  Forall (fun l => startswith l "#if" = false
                   /\ anchors_stop_line (first_line link_lines) l = false) a ->
  startswith o "#if" = true ->
  Forall (fun l => startswith l "#endif" = false) body ->
  startswith c "#endif" = true ->
  scan_anchors link_lines (a ++ o :: body ++ c :: rest)
  = (length a + length body + 2 + fst (scan_anchors link_lines rest),
     snd (scan_anchors link_lines rest)).
Proof.
  intros Ha Ho Hbody Hc.
  assert (Hfst : fst (scan_anchors link_lines (a ++ o :: body ++ c :: rest))
                 = length a + length body + 2 + fst (scan_anchors link_lines rest)).
  { rewrite !scan_anchors_fst, gscan_pass_app by done.
    rewrite gscan_block_opaque by (done || by apply hash_if_not_endif). lia. }
  apply injective_projections; [done|]. cbn [snd].
  rewrite scan_anchors_snd, Hfst.
  replace (a ++ o :: body ++ c :: rest) with ((a ++ o :: body ++ [c]) ++ rest)
    by (rewrite <- app_assoc; simpl; by rewrite <- app_assoc).
  rewrite lookup_after by (rewrite !length_app; simpl; rewrite length_app; simpl; lia).
  by rewrite <- scan_anchors_snd.
Qed.

(** C3: from the line where its list starts (the first line that starts
    with [add_subdirectory(], the first anchor comment), a scan that meets
    a block opener goes on after the next closing line, so that it never
    stops inside a block that opens at or after the start of the list; the
    lines of such a block have no influence on the scan, which resumes
    after the block as if it started there. *)
Theorem C3_blocks_skipped_from_list_start (module module_camel : string)
    (lines : list string) :
  ~ inside_block_from "if(" "endif()" lines
      (subdirs_start lines) (subdirs_stop module lines) /\
  ~ inside_block_from "#if" "#endif" lines
      (anchors_start lines) (anchors_stop module_camel lines) /\
  (forall a o body c rest,
      Forall (fun l => startswith l "if(" = false /\
                subdirs_stop_line (add_subdirectory_line_of module) l = false) a ->
      startswith o "if(" = true ->
      Forall (fun l => startswith l "endif()" = false) body ->
      startswith c "endif()" = true ->
      scan_subdirectories (add_subdirectory_line_of module)
        (a ++ o :: body ++ c :: rest)
      = (length a + length body + 2
         + fst (scan_subdirectories (add_subdirectory_line_of module) rest),
         snd (scan_subdirectories (add_subdirectory_line_of module) rest))) /\
  (forall a o body c rest,
      Forall (fun l => startswith l "#if" = false /\
                anchors_stop_line (first_line (link_lines_of module_camel)) l
                = false) a ->
      startswith o "#if" = true ->
      Forall (fun l => startswith l "#endif" = false) body ->
      startswith c "#endif" = true ->
      scan_anchors (link_lines_of module_camel) (a ++ o :: body ++ c :: rest)
      = (length a + length body + 2
         + fst (scan_anchors (link_lines_of module_camel) rest),
         snd (scan_anchors (link_lines_of module_camel) rest))).
Proof.
  split; [|split; [|split]].
  - intros H%inside_block_from_drop. revert H.
    unfold subdirs_stop, subdirs_scan. rewrite scan_subdirectories_fst.
    replace (subdirs_start lines + _ - subdirs_start lines)
      with (guarded_scan "if(" "endif()"
              (subdirs_stop_line (add_subdirectory_line_of module))
              (drop (subdirs_start lines) lines)) by lia.
    apply gscan_not_inside, if_not_endif.
  - intros H%inside_block_from_drop. revert H.
    unfold anchors_stop, anchors_scan. rewrite scan_anchors_fst.
    replace (anchors_start lines + _ - anchors_start lines)
      with (guarded_scan "#if" "#endif"
              (anchors_stop_line (first_line (link_lines_of module_camel)))
              (drop (anchors_start lines) lines)) by lia.
    apply gscan_not_inside, hash_if_not_endif.
  - intros. by apply scan_subdirectories_block.
  - intros. by apply scan_anchors_block.
Qed.

Lemma C3_witness :
  let a := [ln "add_subdirectory(misc)"] in
  let body := [ln "  add_subdirectory(mpi)"] in
  let rest := [ln "add_subdirectory(objc)"] in
  Forall (fun l => startswith l "if(" = false /\
            subdirs_stop_line (add_subdirectory_line_of "mz") l = false) a /\
  startswith (ln "if(CLANG_TIDY_ENABLE_STATIC_ANALYZER)") "if(" = true /\
  Forall (fun l => startswith l "endif()" = false) body /\
  startswith (ln "endif()") "endif()" = true /\
  scan_subdirectories (add_subdirectory_line_of "mz")
    (a ++ ln "if(CLANG_TIDY_ENABLE_STATIC_ANALYZER)" :: body ++ ln "endif()" :: rest)
  = (4, add_subdirectory_line_of "mz").
Proof.
  intros a body rest.
  assert (Ha : Forall (fun l => startswith l "if(" = false /\
            subdirs_stop_line (add_subdirectory_line_of "mz") l = false) a)
    by (repeat constructor).
  assert (Hb : Forall (fun l => startswith l "endif()" = false) body)
    by (repeat constructor).
  split; [exact Ha|]. split; [reflexivity|]. split; [exact Hb|].
  split; [reflexivity|].
  exact (proj1 (proj2 (proj2 (C3_blocks_skipped_from_list_start "mz" "Mz" [])))
           a (ln "if(CLANG_TIDY_ENABLE_STATIC_ANALYZER)") body (ln "endif()") rest
           Ha eq_refl Hb eq_refl).
Defined.

(** The search for the start of the list does not look at blocks: in a
    header, the first anchor comment is after the [#ifndef] of the include
    guard, and the link lines are put in before the [#endif] that closes
    it; in a CMake file whose first [add_subdirectory(] line is in an
    [if(] block, the candidate is put in inside that block. *)
Lemma C3_counterexample :
  let header :=
    [ln "#ifndef LLVM_CLANG_TOOLS_EXTRA_CLANG_TIDY_CLANGTIDYFORCELINKER_H";
     ln "namespace clang::tidy {";
     ln "// This anchor is used to force the linker to link the ZirconModule.";
     ln "extern volatile int ZirconModuleAnchorSource;";
     ln "} // namespace clang::tidy";
     ln "#endif"] in
  let cmake :=
    [ln "if(CLANG_TIDY_ENABLE_STATIC_ANALYZER)";
     ln "add_subdirectory(mpi)";
     ln "endif()";
     ln "set(ALL_CLANG_TIDY_CHECKS";
     ln "  )"] in
  (inside_block "#if" "#endif" header (anchors_stop "Abc" header) /\
   force_linker_linesout "Abc" header
   = take 2 header ++ link_lines_of "Abc" ++ drop 2 header) /\
  (inside_block "if(" "endif()" cmake (subdirs_stop "abc" cmake) /\
   cmake_linesout "abc" "Abc" cmake
   = [ln "if(CLANG_TIDY_ENABLE_STATIC_ANALYZER)";
      ln "add_subdirectory(abc)";
      ln "add_subdirectory(mpi)";
      ln "endif()";
      ln "set(ALL_CLANG_TIDY_CHECKS";
      ln "  clangTidyAbcModule";
      ln "  )"]).
Proof.
  intros header cmake. split; split; try (vm_compute; reflexivity).
  - exists 0, 5, (ln "#ifndef LLVM_CLANG_TOOLS_EXTRA_CLANG_TIDY_CLANGTIDYFORCELINKER_H"),
      (ln "#endif").
    change (anchors_stop "Abc" header) with 2.
    repeat split; try lia; try reflexivity.
    intros k lk Hk1 Hk2 Hlk.
    do 5 (destruct k as [|k]; [first [lia | injection Hlk as <-; reflexivity]|]).
    lia.
  - exists 0, 2, (ln "if(CLANG_TIDY_ENABLE_STATIC_ANALYZER)"), (ln "endif()").
    change (subdirs_stop "abc" cmake) with 1.
    repeat split; try lia; try reflexivity.
    intros k lk Hk1 Hk2 Hlk.
    do 2 (destruct k as [|k]; [first [lia | injection Hlk as <-; reflexivity]|]).
    lia.
Qed.

(** ** C2: where the [add_subdirectory] line goes *)

(** The scan of a list of lines without block opener that is followed by
    the [set(ALL_CLANG_TIDY_CHECKS] line. *)
Lemma scan_subdirectories_region line region mk post :
  str_true line = true ->
  Forall (fun l => startswith l "if(" = false /\
            startswith l "set(ALL_CLANG_TIDY_CHECKS" = false) region ->
  startswith mk "set(ALL_CLANG_TIDY_CHECKS" = true ->
  fst (scan_subdirectories line (region ++ mk :: post)) <= length region /\
  take (fst (scan_subdirectories line (region ++ mk :: post))) region
  ++ pending (snd (scan_subdirectories line (region ++ mk :: post)))
  ++ drop (fst (scan_subdirectories line (region ++ mk :: post))) region
  = insert_unless_met line region.
Proof.
  intros Hline Hregion Hmk.
  induction Hregion as [|l r [Hl1 Hl2] _ IH]; cbn [app]; simp scan_subdirectories.
  - rewrite (checks_not_if _ Hmk), Hmk. cbn. by rewrite pending_true.
  - rewrite Hl1, Hl2. cbn [insert_unless_met].
    destruct (String.eqb l line); [cbn; split; [lia|done]|].
    destruct (str_ge l line); [cbn; rewrite pending_true by done; split; [lia|done]|].
    destruct (scan_subdirectories line (r ++ mk :: post)) as [j x].
    cbn [fst snd length take drop app] in *. destruct IH as [IH1 IH2].
    split; [lia|]. by rewrite IH2.
Qed.

Lemma cmake_linesout_region (module module_camel : string)
    (pre region post : list string) (mk : string) :
  Forall (fun l => startswith l "add_subdirectory(" = false) pre ->
  startswith (hd EmptyString region) "add_subdirectory(" = true ->
  Forall (fun l => startswith l "if(" = false /\
            startswith l "set(ALL_CLANG_TIDY_CHECKS" = false) region ->
  startswith mk "set(ALL_CLANG_TIDY_CHECKS" = true ->
  cmake_linesout module module_camel (pre ++ region ++ mk :: post)
  = pre ++ insert_unless_met (add_subdirectory_line_of module) region
    ++ mk :: libs_merge module_camel post.
Proof.
  intros Hpre Hne Hregion Hmk.
  set (line := add_subdirectory_line_of module).
  set (lines := pre ++ region ++ mk :: post).
  destruct (scan_subdirectories_region line region mk post
              (add_subdirectory_line_true module) Hregion Hmk) as [Hk Hins].
  assert (Hstart : subdirs_start lines = length pre).
  { unfold subdirs_start, lines. rewrite seek_prefix_app by done.
    destruct region as [|l r]; [done|]. simpl in Hne |- *. rewrite Hne. lia. }
  assert (Hdrop1 : drop (subdirs_start lines) lines = region ++ mk :: post).
  { rewrite Hstart. unfold lines. by rewrite drop_app_length. }
  set (k := fst (scan_subdirectories line (region ++ mk :: post))) in *.
  assert (Hstop : subdirs_stop module lines = length pre + k).
  { unfold subdirs_stop, subdirs_scan. by rewrite Hdrop1, Hstart. }
  assert (Hdrop2 : drop (subdirs_stop module lines) lines
                   = drop k region ++ mk :: post).
  { rewrite Hstop. unfold lines. rewrite drop_app_add.
    rewrite drop_app_le by lia. done. }
  assert (Hlibs : libs_start module lines = length pre + length region + 1).
  { unfold libs_start. rewrite Hdrop2, Hstop.
    rewrite seek_past_checks_app; [rewrite length_drop; lia| |done].
    apply Forall_drop.
    eapply Forall_impl; [exact Hregion|]. by intros l [_ ?]. }
  assert (Hdrop3 : drop (libs_start module lines) lines = post).
  { rewrite Hlibs. unfold lines.
    replace (pre ++ region ++ mk :: post) with ((pre ++ region ++ [mk]) ++ post)
      by (rewrite <- !app_assoc; by simpl).
    rewrite drop_app_length'; [done|]. rewrite !length_app. simpl. lia. }
  rewrite cmake_linesout_shape.
  unfold libs_stop, libs_scan, libs_merge.
  rewrite Hdrop3, Hlibs. unfold subdirs_scan. rewrite Hdrop1, Hstop.
  fold line. fold k.
  destruct (scan_libraries (clang_library_line_of module_camel) post)
    as [k4 line4] eqn:E4.
  pose proof (scan_libraries_le (clang_library_line_of module_camel) post) as Hk4.
  rewrite E4 in Hk4. cbn [fst snd] in *.
  unfold lines.
  rewrite take_app_add.
  rewrite take_app_le by lia.
  unfold slice. rewrite drop_app_add.
  rewrite drop_app_le by lia.
  replace (length pre + length region + 1 + k4 - (length pre + k))
    with (length (drop k region) + S k4) by (rewrite length_drop; lia).
  rewrite take_app_add. cbn [take].
  replace (pre ++ region ++ mk :: post) with ((pre ++ region ++ [mk]) ++ post)
    by (rewrite <- !app_assoc; by simpl).
  replace (length pre + length region + 1 + k4)
    with (length (pre ++ region ++ [mk]) + k4)
    by (rewrite !length_app; simpl; lia).
  rewrite drop_app_add.
  rewrite <- Hins. by rewrite <- !app_assoc.
Qed.

(** The scan of a list of library lines that is followed by the line with
    the closing parenthesis. *)
Lemma libs_merge_region module_camel libs close tail :
  Forall (fun l => str_in ")" l = false) libs ->
  str_in ")" close = true ->
  libs_merge module_camel (libs ++ close :: tail)
  = insert_unless_met (clang_library_line_of module_camel) libs ++ close :: tail.
Proof.
  intros Hlibs Hclose. unfold libs_merge.
  set (line := clang_library_line_of module_camel).
  induction Hlibs as [|l r Hl _ IH]; cbn [app scan_libraries insert_unless_met].
  - rewrite Hclose. cbn. by rewrite pending_true.
  - rewrite Hl. destruct (String.eqb l line); [done|].
    destruct (str_ge l line); [cbn; by rewrite pending_true|].
    destruct (scan_libraries line (r ++ close :: tail)) as [j x].
    cbn [take drop app]. by rewrite <- IH.
Qed.

(** C2: in a CMake file made of any lines without [add_subdirectory(],
    then a list that starts with an [add_subdirectory(] line and has no
    [if(] line, the [set(ALL_CLANG_TIDY_CHECKS] line, a list of library
    lines and the line with the closing parenthesis, each candidate goes
    into its list right before the first line that is greater than or equal
    to it (at the end of the list when there is none), unless that line is
    the candidate itself, in which case the list is left as it is; all
    other lines are kept where they are. *)
Theorem C2_insertion_point (module module_camel : string)
    (pre region libs tail : list string) (mk close : string) :
  Forall (fun l => startswith l "add_subdirectory(" = false) pre ->
  startswith (hd EmptyString region) "add_subdirectory(" = true ->
  Forall (fun l => startswith l "if(" = false /\
            startswith l "set(ALL_CLANG_TIDY_CHECKS" = false) region ->
  startswith mk "set(ALL_CLANG_TIDY_CHECKS" = true ->
  Forall (fun l => str_in ")" l = false) libs ->
  str_in ")" close = true ->
  cmake_linesout module module_camel
    (pre ++ region ++ mk :: libs ++ close :: tail)
  = pre ++ insert_unless_met (add_subdirectory_line_of module) region
    ++ mk :: insert_unless_met (clang_library_line_of module_camel) libs
    ++ close :: tail.
Proof.
  intros Hpre Hne Hregion Hmk Hlibs Hclose.
  rewrite cmake_linesout_region by done.
  by rewrite libs_merge_region.
Qed.

Lemma C2_witness :
  let region := [ln "add_subdirectory(alpha)"; ln "add_subdirectory(zeta)"] in
  let pre := [ln "# Checks."] in
  let mk := ln "set(ALL_CLANG_TIDY_CHECKS" in
  let libs := [ln "  clangTidyAlphaModule"; ln "  clangTidyZetaModule"] in
  let close := ln "  )" in
  Forall (fun l => startswith l "add_subdirectory(" = false) pre /\
  startswith (hd EmptyString region) "add_subdirectory(" = true /\
  Forall (fun l => startswith l "if(" = false /\
            startswith l "set(ALL_CLANG_TIDY_CHECKS" = false) region /\
  startswith mk "set(ALL_CLANG_TIDY_CHECKS" = true /\
  Forall (fun l => str_in ")" l = false) libs /\
  str_in ")" close = true /\
  cmake_linesout "bar" "Bar" (pre ++ region ++ mk :: libs ++ close :: [])
  = pre ++ [ln "add_subdirectory(alpha)"; ln "add_subdirectory(bar)";
            ln "add_subdirectory(zeta)"]
    ++ mk :: [ln "  clangTidyAlphaModule"; ln "  clangTidyBarModule";
              ln "  clangTidyZetaModule"] ++ close :: [].
Proof.
  intros region pre mk libs close.
  assert (H1 : Forall (fun l => startswith l "add_subdirectory(" = false) pre)
    by (repeat constructor).
  assert (H3 : Forall (fun l => startswith l "if(" = false /\
                    startswith l "set(ALL_CLANG_TIDY_CHECKS" = false) region)
    by (repeat constructor).
  assert (H5 : Forall (fun l => str_in ")" l = false) libs)
    by (repeat constructor).
  split; [exact H1|]. split; [reflexivity|]. split; [exact H3|].
  split; [reflexivity|]. split; [exact H5|]. split; [reflexivity|].
  exact (C2_insertion_point "bar" "Bar" pre region libs [] mk close
           H1 eq_refl H3 eq_refl H5 eq_refl).
Defined.

(** A list that has the candidate already: the first line that is greater
    than or equal to the candidate is the candidate, and nothing is put in
    before it. *)
Lemma C2_counterexample :
  let region := [ln "add_subdirectory(alpha)"; ln "add_subdirectory(bar)";
                 ln "add_subdirectory(zeta)"] in
  let mk := ln "set(ALL_CLANG_TIDY_CHECKS" in
  let post := [ln "  clangTidyBarModule"; ln "  )"] in
  insert_before_ge (add_subdirectory_line_of "bar") region
  = [ln "add_subdirectory(alpha)"; ln "add_subdirectory(bar)";
     ln "add_subdirectory(bar)"; ln "add_subdirectory(zeta)"] /\
  cmake_linesout "bar" "Bar" (region ++ mk :: post) = region ++ mk :: post /\
  cmake_linesout "bar" "Bar" (region ++ mk :: post)
  <> insert_before_ge (add_subdirectory_line_of "bar") region
     ++ mk :: libs_merge "Bar" post.
Proof.
  intros region mk post. split; [vm_compute; reflexivity|].
  split; [vm_compute; reflexivity|]. vm_compute. discriminate.
Qed.

(** * Running a merge on its own result *)

(** ** Reading through a prefix *)

Lemma read_through_take opn cls stop ls :
  guarded_scan opn cls stop ls < length ls \/ blocks_closed opn cls ls = true ->
  read_through opn cls stop (take (guarded_scan opn cls stop ls) ls).
Proof.
  intros H b. pose proof (gscan_le opn cls stop ls).
  rewrite length_take, Nat.min_l by lia.
  destruct H; [by apply gscan_take_app|by apply gscan_closed_app].
Qed.

Lemma read_through_rest opn cls stop ls :
  read_through opn cls stop (take (guarded_scan opn cls stop ls) ls) ->
  guarded_scan opn cls stop (drop (guarded_scan opn cls stop ls) ls) = 0.
Proof.
  intros H. specialize (H (drop (guarded_scan opn cls stop ls) ls)).
  pose proof (gscan_le opn cls stop ls).
  rewrite take_drop, length_take in H. lia.
Qed.

Lemma scan_subdirectories_app line a b :
  read_through "if(" "endif()" (subdirs_stop_line line) a ->
  scan_subdirectories line (a ++ b)
  = (length a + fst (scan_subdirectories line b),
     snd (scan_subdirectories line b)).
Proof.
  intros Ha.
  assert (Hfst : fst (scan_subdirectories line (a ++ b))
                 = length a + fst (scan_subdirectories line b))
    by (by rewrite !scan_subdirectories_fst, Ha).
  apply injective_projections; [done|]. cbn [snd].
  rewrite scan_subdirectories_snd, Hfst, lookup_after by done.
  by rewrite <- scan_subdirectories_snd.
Qed.

Lemma scan_anchors_app link_lines a b :
  read_through "#if" "#endif" (anchors_stop_line (first_line link_lines)) a ->
  scan_anchors link_lines (a ++ b)
  = (length a + fst (scan_anchors link_lines b),
     snd (scan_anchors link_lines b)).
Proof.
  intros Ha.
  assert (Hfst : fst (scan_anchors link_lines (a ++ b))
                 = length a + fst (scan_anchors link_lines b))
    by (by rewrite !scan_anchors_fst, Ha).
  apply injective_projections; [done|]. cbn [snd].
  rewrite scan_anchors_snd, Hfst, lookup_after by done.
  by rewrite <- scan_anchors_snd.
Qed.

(** ** [linesout] for lines cut at the places where the loops stop *)

Lemma cmake_linesout_cut module module_camel a0 a1 m0 mk u line2 :
  Forall (fun l => startswith l "add_subdirectory(" = false) a0 ->
  (exists l rest, a1 ++ m0 ++ [mk] = l :: rest
                  /\ startswith l "add_subdirectory(" = true) ->
  read_through "if(" "endif()"
    (subdirs_stop_line (add_subdirectory_line_of module)) a1 ->
  scan_subdirectories (add_subdirectory_line_of module) (m0 ++ mk :: u)
  = (0, line2) ->
  Forall (fun l => startswith l "set(ALL_CLANG_TIDY_CHECKS" = false) m0 ->
  startswith mk "set(ALL_CLANG_TIDY_CHECKS" = true ->
  cmake_linesout module module_camel (a0 ++ a1 ++ m0 ++ mk :: u)
  = a0 ++ a1 ++ pending line2 ++ m0 ++ mk :: libs_merge module_camel u.
Proof.
  intros Ha0 (l & rest & Hhd & Hl) Ha1 Hscan Hm0 Hmk.
  set (lines := a0 ++ a1 ++ m0 ++ mk :: u).
  assert (Hstart : subdirs_start lines = length a0).
  { unfold subdirs_start, lines. rewrite seek_prefix_app by done.
    replace (a1 ++ m0 ++ mk :: u) with ((a1 ++ m0 ++ [mk]) ++ u)
      by (rewrite <- !app_assoc; by simpl).
    rewrite Hhd. simpl. rewrite Hl. lia. }
  assert (Hdrop1 : drop (subdirs_start lines) lines = a1 ++ m0 ++ mk :: u).
  { rewrite Hstart. unfold lines. by rewrite drop_app_length. }
  assert (Hscan1 : subdirs_scan module lines = (length a1 + 0, line2)).
  { unfold subdirs_scan. rewrite Hdrop1, scan_subdirectories_app by done.
    by rewrite Hscan. }
  assert (Hstop : subdirs_stop module lines = length a0 + length a1).
  { unfold subdirs_stop. rewrite Hscan1, Hstart. simpl. lia. }
  assert (Hdrop2 : drop (subdirs_stop module lines) lines = m0 ++ mk :: u).
  { rewrite Hstop. unfold lines. rewrite app_assoc.
    rewrite drop_app_length'; [done|]. by rewrite length_app. }
  assert (Hlibs : libs_start module lines
                  = length a0 + length a1 + length m0 + 1).
  { unfold libs_start. rewrite Hdrop2, Hstop.
    rewrite seek_past_checks_app by done. lia. }
  assert (Hdrop3 : drop (libs_start module lines) lines = u).
  { rewrite Hlibs. unfold lines.
    replace (a0 ++ a1 ++ m0 ++ mk :: u) with ((a0 ++ a1 ++ m0 ++ [mk]) ++ u)
      by (rewrite <- !app_assoc; by simpl).
    rewrite drop_app_length'; [done|]. rewrite !length_app. simpl. lia. }
  rewrite cmake_linesout_shape.
  unfold libs_stop, libs_scan, libs_merge.
  rewrite Hdrop3, Hlibs, Hscan1, Hstop. cbn [snd].
  destruct (scan_libraries (clang_library_line_of module_camel) u)
    as [k4 line4] eqn:E4.
  pose proof (scan_libraries_le (clang_library_line_of module_camel) u) as Hk4.
  rewrite E4 in Hk4. cbn [fst snd] in *.
  unfold lines, slice.
  replace (a0 ++ a1 ++ m0 ++ mk :: u) with ((a0 ++ a1) ++ (m0 ++ [mk]) ++ u)
    by (rewrite <- !app_assoc; by simpl).
  rewrite take_app_length' by (by rewrite length_app).
  rewrite drop_app_length' by (by rewrite length_app).
  replace (length a0 + length a1 + length m0 + 1 + k4 - (length a0 + length a1))
    with (length (m0 ++ [mk]) + k4) by (rewrite length_app; simpl; lia).
  rewrite take_app_add.
  replace (length a0 + length a1 + length m0 + 1 + k4)
    with (length (a0 ++ a1) + (length (m0 ++ [mk]) + k4))
    by (rewrite !length_app; simpl; lia).
  rewrite drop_app_add, drop_app_add.
  rewrite <- !app_assoc. by simpl.
Qed.

Lemma force_linker_linesout_cut module_camel a0 a1 tl ll :
  Forall (fun l => startswith l anchor_comment = false) a0 ->
  (a1 ++ tl = [] \/
   exists l rest, a1 ++ tl = l :: rest /\ startswith l anchor_comment = true) ->
  read_through "#if" "#endif"
    (anchors_stop_line (first_line (link_lines_of module_camel))) a1 ->
  scan_anchors (link_lines_of module_camel) tl = (0, ll) ->
  force_linker_linesout module_camel (a0 ++ a1 ++ tl) = a0 ++ a1 ++ ll ++ tl.
Proof.
  intros Ha0 Hhd Ha1 Hscan.
  set (lines := a0 ++ a1 ++ tl).
  assert (Hstart : anchors_start lines = length a0).
  { unfold anchors_start, lines. rewrite seek_prefix_app by done.
    destruct Hhd as [->|(l & rest & -> & Hl)]; simpl; [lia|]. rewrite Hl. lia. }
  assert (Hscan1 : anchors_scan module_camel lines = (length a1 + 0, ll)).
  { unfold anchors_scan. rewrite Hstart. unfold lines.
    rewrite drop_app_length, scan_anchors_app by done. by rewrite Hscan. }
  assert (Hstop : anchors_stop module_camel lines = length a0 + length a1).
  { unfold anchors_stop. rewrite Hscan1, Hstart. simpl. lia. }
  rewrite force_linker_linesout_shape, Hscan1, Hstop. cbn [snd].
  unfold lines. rewrite (app_assoc a0 a1 tl).
  rewrite take_app_length', drop_app_length' by (by rewrite length_app).
  by rewrite <- !app_assoc.
Qed.

(** ** A scan that starts on its candidate *)

Lemma scan_subdirectories_self module t :
  scan_subdirectories (add_subdirectory_line_of module)
    (add_subdirectory_line_of module :: t) = (0, EmptyString).
Proof.
  simp scan_subdirectories.
  change (startswith (add_subdirectory_line_of module) "if(") with false.
  change (startswith (add_subdirectory_line_of module) "set(ALL_CLANG_TIDY_CHECKS")
    with false.
  cbn match. by rewrite String.eqb_refl.
Qed.

Lemma scan_subdirectories_zero_met line tl :
  str_true line = true ->
  scan_subdirectories line tl = (0, EmptyString) ->
  exists t, tl = line :: t.
Proof.
  intros Hline H. pose proof (scan_subdirectories_snd line tl) as Hs.
  rewrite H in Hs. cbn [fst snd] in Hs.
  destruct tl as [|l t]; cbn in Hs; [by subst line|].
  destruct (startswith l _); [by subst line|].
  destruct (String.eqb_spec l line) as [->|]; [by exists t|by subst line].
Qed.

Lemma scan_anchors_self module_camel t :
  scan_anchors (link_lines_of module_camel)
    (first_line (link_lines_of module_camel) :: t) = (0, []).
Proof.
  simp scan_anchors.
  change (startswith (first_line (link_lines_of module_camel)) "#if") with false.
  change (startswith (first_line (link_lines_of module_camel)) "} // namespace")
    with false.
  rewrite first_line_anchor.
  cbn match. cbn [negb]. by rewrite String.eqb_refl.
Qed.

Lemma scan_anchors_zero_met module_camel tl :
  scan_anchors (link_lines_of module_camel) tl = (0, []) ->
  exists t, tl = first_line (link_lines_of module_camel) :: t.
Proof.
  intros H. pose proof (scan_anchors_snd (link_lines_of module_camel) tl) as Hs.
  rewrite H in Hs. cbn [fst snd] in Hs.
  destruct tl as [|l t]; cbn [lookup list_lookup] in Hs; [done|].
  destruct (startswith l _); [done|].
  destruct (String.eqb_spec l (first_line (link_lines_of module_camel)))
    as [->|]; [by exists t|done].
Qed.

(** ** The library merge on its own result *)

Lemma libs_merge_idem module_camel u :
  str_in ")" (clang_library_line_of module_camel) = false ->
  libs_merge module_camel (libs_merge module_camel u) = libs_merge module_camel u.
Proof.
  intros Hparen. set (line := clang_library_line_of module_camel) in *.
  assert (Hself : forall t, scan_libraries line (line :: t) = (0, EmptyString)).
  { intros t. cbn [scan_libraries]. by rewrite Hparen, String.eqb_refl. }
  unfold libs_merge at 2. fold line.
  destruct (scan_libraries line u) as [k x] eqn:E.
  pose proof (scan_libraries_before line u) as Hbefore.
  pose proof (scan_libraries_le line u) as Hle.
  pose proof (scan_libraries_met line u) as Hmet.
  pose proof (scan_libraries_snd line u) as Hsnd.
  rewrite E in Hbefore, Hle, Hmet, Hsnd. cbn [fst snd] in *.
  assert (Hrest : exists t, pending x ++ drop k u = line :: t).
  { destruct Hsnd as [->| ->].
    - rewrite pending_true by done. eauto.
    - destruct (Hmet eq_refl) as [Hl|[r Hr]]; [done|]. rewrite Hr. simpl. eauto. }
  destruct Hrest as [t Ht].
  unfold libs_merge. fold line.
  rewrite Ht, scan_libraries_app, Hself by done. cbn [fst snd].
  rewrite Nat.add_0_r, take_app_length, drop_app_length.
  by rewrite E, <- Ht.
Qed.

(** ** The CMake merge on its own result *)

Lemma drop_lookup_cons {A} (ls : list A) i x :
  ls !! i = Some x -> drop i ls = x :: drop (S i) ls.
Proof. intros H. by rewrite (drop_S _ _ _ H). Qed.

Lemma cmake_linesout_idem module module_camel lines :
  checks_marker_found module lines = true ->
  str_in ")" (clang_library_line_of module_camel) = false ->
  cmake_linesout module module_camel (cmake_linesout module module_camel lines)
  = cmake_linesout module module_camel lines.
Proof.
  intros Hfound Hparen. unfold checks_marker_found in Hfound.
  set (line := add_subdirectory_line_of module) in *.
  set (stop := subdirs_stop_line line).
  set (j1 := subdirs_start lines) in *.
  set (r := drop j1 lines) in *.
  set (k := guarded_scan "if(" "endif()" stop r).
  assert (Hstop : subdirs_stop module lines = j1 + k).
  { unfold subdirs_stop, subdirs_scan. by rewrite scan_subdirectories_fst. }
  rewrite Hstop in Hfound.
  assert (Hdrop : drop (j1 + k) lines = drop k r)
    by (unfold r; by rewrite drop_drop).
  rewrite Hdrop in Hfound.
  destruct (seek_past_checks_found _ Hfound) as (m0 & mk & u & Htl & Hm0 & Hmk & _).
  pose proof (gscan_le "if(" "endif()" stop r) as Hkle.
  assert (Hk : k < length r).
  { assert (length (drop k r) <> 0) by (rewrite Htl, length_app; simpl; lia).
    rewrite length_drop in *. lia. }
  assert (Hthrough : read_through "if(" "endif()" stop (take k r))
    by (apply read_through_take; by left).
  assert (Hr : r = take k r ++ m0 ++ mk :: u) by (by rewrite <- Htl, take_drop).
  assert (Hlines : lines = take j1 lines ++ take k r ++ m0 ++ mk :: u)
    by (rewrite <- Hr; unfold r; by rewrite take_drop).
  assert (Hscan : exists line2,
             scan_subdirectories line (m0 ++ mk :: u) = (0, line2)).
  { exists (snd (scan_subdirectories line (m0 ++ mk :: u))).
    apply injective_projections; [|done]. cbn [fst].
    rewrite scan_subdirectories_fst, <- Htl. by apply read_through_rest. }
  destruct Hscan as [line2 Hscan].
  assert (Hj1 : j1 < length lines).
  { unfold r in Hk. rewrite length_drop in Hk. lia. }
  destruct (seek_prefix_hit _ _ Hj1) as (l0 & Hl0 & Hpre). fold j1 in Hl0.
  assert (Hr0 : r = l0 :: drop (S j1) lines) by (by apply drop_lookup_cons).
  assert (Hhead : forall t, exists l rest,
             take k r ++ t ++ m0 ++ [mk] = l :: rest
             /\ (startswith l "add_subdirectory(" = true \/
                 exists t', t = l :: t' /\ take k r = [])).
  { intros t. destruct (take k r) as [|x a1] eqn:Ea.
    - destruct t as [|y t']; [|exists y; eexists; split; [done|right; eauto]].
      simpl in Hr. rewrite Hr0 in Hr.
      destruct m0 as [|x m0']; simpl in *; injection Hr as -> _;
        eexists; eexists; eauto.
    - rewrite Hr0 in Ea. destruct k; [done|]. simpl in Ea. injection Ea as <- _.
      exists l0. eexists. simpl. eauto. }
  assert (Hout : cmake_linesout module module_camel lines
                 = take j1 lines ++ take k r ++ pending line2 ++ m0
                   ++ mk :: libs_merge module_camel u).
  { rewrite Hlines at 1. apply cmake_linesout_cut; try done.
    - apply seek_prefix_before.
    - destruct (Hhead []) as (l & rest & Ht & [Hl|(t' & ? & _)]); [|done].
      exists l, rest. by rewrite app_nil_l in Ht. }
  rewrite Hout.
  assert (Hline2 : line2 = line \/ line2 = EmptyString).
  { pose proof (scan_subdirectories_snd_cases line (m0 ++ mk :: u)) as H.
    by rewrite Hscan in H. }
  assert (Hmet : exists t, pending line2 ++ m0 ++ mk :: libs_merge module_camel u
                           = line :: t).
  { destruct Hline2 as [->| ->].
    - rewrite pending_true by done. simpl. eauto.
    - destruct (scan_subdirectories_zero_met line _ eq_refl Hscan) as [t Ht].
      destruct m0 as [|x m0']; simpl in Ht.
      + injection Ht as -> _. discriminate Hmk.
      + injection Ht as -> _. simpl. eauto. }
  destruct Hmet as [t Ht].
  replace (take j1 lines ++ take k r ++ pending line2 ++ m0
           ++ mk :: libs_merge module_camel u)
    with (take j1 lines ++ take k r ++ (pending line2 ++ m0)
          ++ mk :: libs_merge module_camel u) at 1
    by (by rewrite <- !app_assoc).
  rewrite (cmake_linesout_cut module module_camel _ _ _ _ _ EmptyString).
  - rewrite libs_merge_idem by done. by rewrite <- !app_assoc.
  - apply seek_prefix_before.
  - destruct (Hhead (pending line2)) as (l & rest & Hl & [Hp|(t' & Hp & Hnil)]).
    + exists l, rest. by rewrite <- !app_assoc.
    + exists l, rest. split; [by rewrite <- !app_assoc|].
      rewrite Hp in Ht. simpl in Ht. injection Ht as -> _.
      apply add_subdirectory_line_prefix.
  - done.
  - rewrite <- app_assoc, Ht. apply scan_subdirectories_self.
  - apply Forall_app. split; [|done].
    destruct (pending_cases line2) as [->| ->]; [done|].
    destruct Hline2 as [->| ->]; by repeat constructor.
  - done.
Qed.

(** ** The header merge on its own result *)

Lemma force_linker_linesout_idem module_camel lines :
  blocks_closed "#if" "#endif" lines = true ->
  force_linker_linesout module_camel
    (force_linker_linesout module_camel lines)
  = force_linker_linesout module_camel lines.
Proof.
  intros Hclosed.
  set (ll0 := link_lines_of module_camel).
  set (stop := anchors_stop_line (first_line ll0)).
  set (j1 := anchors_start lines).
  set (r := drop j1 lines).
  set (k := guarded_scan "#if" "#endif" stop r).
  assert (Hthrough : read_through "#if" "#endif" stop (take k r)).
  { apply read_through_take. right. by apply blocks_closed_drop. }
  assert (Hlines : lines = take j1 lines ++ take k r ++ drop k r)
    by (unfold r; by rewrite !take_drop).
  assert (Hscan : exists ll, scan_anchors ll0 (drop k r) = (0, ll)).
  { exists (snd (scan_anchors ll0 (drop k r))).
    apply injective_projections; [|done]. cbn [fst].
    rewrite scan_anchors_fst. by apply read_through_rest. }
  destruct Hscan as [ll Hscan].
  assert (Hll : ll = ll0 \/ ll = []).
  { pose proof (scan_anchors_snd_cases ll0 (drop k r)) as H.
    by rewrite Hscan in H. }
  assert (Hr : r = [] \/ exists l rest,
               r = l :: rest /\ startswith l anchor_comment = true).
  { destruct (decide (j1 < length lines)) as [Hlt|Hge].
    - destruct (seek_prefix_hit _ _ Hlt) as (l0 & Hl0 & Hpre).
      right. exists l0, (drop (S j1) lines). split; [|done].
      by apply drop_lookup_cons.
    - left. apply drop_ge. lia. }
  assert (Hout : force_linker_linesout module_camel lines
                 = take j1 lines ++ take k r ++ ll ++ drop k r).
  { rewrite Hlines at 1. apply force_linker_linesout_cut; try done.
    - apply seek_prefix_before.
    - by rewrite take_drop. }
  rewrite Hout.
  assert (Hmet : exists t, ll ++ drop k r = first_line ll0 :: t).
  { destruct Hll as [->| ->].
    - simpl. eauto.
    - simpl. by apply scan_anchors_zero_met. }
  destruct Hmet as [t Ht].
  rewrite (force_linker_linesout_cut module_camel _ _ _ []).
  - done.
  - apply seek_prefix_before.
  - right. destruct (take k r) as [|x a1] eqn:Ea.
    + exists (first_line ll0), t. by rewrite Ht.
    + destruct Hr as [Hnil|(l & rest & Hl & Hpre)]; [by rewrite Hnil, take_nil in Ea|].
      rewrite Hl in Ea. destruct k; [done|]. simpl in Ea. injection Ea as <- _.
      exists l. eexists. simpl. eauto.
  - done.
  - rewrite Ht. apply scan_anchors_self.
Qed.

(** * Text files: what is written is what is read back *)

Lemma append_cons (c : ascii) (a b : string) :
  String c a +:+ b = String c (a +:+ b).
Proof. done. Qed.

Lemma append_nil_r (s : string) : s +:+ EmptyString = s.
Proof. induction s as [|c s IH]; [done|]. by rewrite append_cons, IH. Qed.

Lemma append_assoc (a b c : string) : (a +:+ b) +:+ c = a +:+ (b +:+ c).
Proof. induction a as [|x a IH]; [done|]. by rewrite !append_cons, IH. Qed.

Lemma str_forall_app f (a b : string) :
  str_forall f (a +:+ b) = str_forall f a && str_forall f b.
Proof.
  induction a as [|x a IH]; [done|]. rewrite append_cons. cbn [str_forall].
  by rewrite IH, andb_assoc.
Qed.

Lemma no_char_app c (a b : string) :
  no_char c (a +:+ b) = no_char c a && no_char c b.
Proof. apply str_forall_app. Qed.

Lemma writelines_cons l ls : writelines (l :: ls) = l +:+ writelines ls.
Proof.
  unfold writelines. destruct ls as [|l' ls]; simpl; [by rewrite append_nil_r|done].
Qed.

(** ** [splitlines] *)

Lemma splitlines_line b s :
  no_char lf b = true ->
  splitlines ((b +:+ nl) +:+ s) = (b +:+ nl) :: splitlines s.
Proof.
  induction b as [|c b IH]; [done|].
  rewrite !append_cons. cbn [no_char str_forall splitlines].
  intros [Hc Hb]%andb_prop. apply negb_true_iff in Hc. rewrite Hc.
  by rewrite (IH Hb).
Qed.

Lemma splitlines_writelines ls :
  Forall line_ok ls -> splitlines (writelines ls) = ls.
Proof.
  induction 1 as [|l ls (b & -> & Hlf & _) _ IH]; [done|].
  by rewrite writelines_cons, splitlines_line, IH.
Qed.

Lemma universal_newlines_id s :
  no_char cr s = true -> universal_newlines s = s.
Proof.
  induction s as [|c s IH]; [done|].
  cbn [no_char str_forall universal_newlines].
  intros [Hc Hs]%andb_prop. apply negb_true_iff in Hc. rewrite Hc.
  by rewrite (IH Hs).
Qed.

Lemma line_ok_no_cr l : line_ok l -> no_char cr l = true.
Proof. intros (b & -> & _ & Hcr). by rewrite no_char_app, Hcr. Qed.

Lemma writelines_no_cr ls :
  Forall line_ok ls -> no_char cr (writelines ls) = true.
Proof.
  induction 1 as [|l ls Hl _ IH]; [done|].
  by rewrite writelines_cons, no_char_app, (line_ok_no_cr _ Hl), IH.
Qed.

(** Complete lines, written and read back, are the same lines. *)
Lemma readlines_writelines ls :
  Forall line_ok ls -> readlines (writelines ls) = ls.
Proof.
  intros H. unfold readlines.
  rewrite universal_newlines_id by (by apply writelines_no_cr).
  by apply splitlines_writelines.
Qed.

(** ** The lines [readlines] gives *)

Lemma universal_newlines_no_cr s : no_char cr (universal_newlines s) = true.
Proof.
  assert (H : forall n s, String.length s <= n ->
                no_char cr (universal_newlines s) = true).
  { clear s. induction n as [|n IH]; intros [|c s] Hn; simpl in Hn; try done; [lia|].
    cbn [universal_newlines].
    destruct (Ascii.eqb c cr) eqn:Ec.
    - destruct s as [|c' s']; [done|].
      destruct (Ascii.eqb c' lf); cbn [no_char str_forall];
        change (str_forall _ ?x) with (no_char cr x);
        rewrite IH; simpl in *; try done; lia.
    - cbn [no_char str_forall]. rewrite Ec. cbn.
      change (str_forall _ ?x) with (no_char cr x). apply IH. lia. }
  by apply (H (String.length s)).
Qed.

Lemma splitlines_no_cr s :
  no_char cr s = true -> Forall (fun l => no_char cr l = true) (splitlines s).
Proof.
  induction s as [|c s IH]; [done|].
  cbn [no_char str_forall splitlines].
  intros [Hc Hs]%andb_prop. specialize (IH Hs).
  destruct (Ascii.eqb c lf).
  - constructor; [|done]. cbn. by rewrite Hc.
  - destruct (splitlines s) as [|l ls].
    + repeat constructor. cbn. by rewrite Hc.
    + inversion IH; subst. constructor; [|done].
      cbn [no_char str_forall]. rewrite Hc. done.
Qed.

(** Every line is a text without newline, followed by a newline or not. *)
Lemma splitlines_shape s :
  Forall (fun l => exists b, no_char lf b = true /\ (l = b +:+ nl \/ l = b))
    (splitlines s).
Proof.
  induction s as [|c s IH]; [done|]. cbn [splitlines].
  destruct (Ascii.eqb_spec c lf) as [->|Hne].
  - constructor; [|done]. exists EmptyString. split; [done|by left].
  - assert (Hc : negb (Ascii.eqb c lf) = true)
      by (apply negb_true_iff; by apply Ascii.eqb_neq).
    destruct (splitlines s) as [|l ls].
    + repeat constructor. exists (String c EmptyString). split; [|by right].
      cbn. by rewrite Hc.
    + inversion IH as [|? ? (b & Hb & Hl) Hls]; subst. constructor; [|done].
      exists (String c b). split; [cbn; by rewrite Hc|].
      destruct Hl as [->| ->]; [by left|by right].
Qed.

Lemma endswith_nl_has_lf s : endswith s nl = true -> no_char lf s = false.
Proof.
  induction s as [|c s IH]; [done|]. cbn [endswith no_char str_forall].
  intros [H|H]%orb_prop.
  - apply String.eqb_eq in H. injection H as -> ->. done.
  - change (str_forall _ s) with (no_char lf s). rewrite (IH H). apply andb_false_r.
Qed.

(** When every line read ends with a newline, every line is complete. *)
Lemma readlines_line_ok content :
  all_terminated (readlines content) = true ->
  Forall line_ok (readlines content).
Proof.
  unfold all_terminated, readlines. intros Hterm.
  pose proof (splitlines_shape (universal_newlines content)) as Hshape.
  pose proof (splitlines_no_cr _ (universal_newlines_no_cr content)) as Hcr.
  rewrite forallb_forall in Hterm.
  rewrite Forall_forall in Hshape, Hcr |- *.
  intros l Hl. destruct (Hshape l Hl) as (b & Hb & [->| ->]).
  - exists b. repeat split; [done|]. specialize (Hcr _ Hl).
    rewrite no_char_app in Hcr. by apply andb_prop in Hcr as [? _].
  - apply list_elem_of_In in Hl. specialize (Hterm _ Hl).
    apply endswith_nl_has_lf in Hterm. congruence.
Qed.

(** * Names made of letters and digits *)

Lemma is_alnum_to_upper c : is_alnum c = true -> is_alnum (to_upper c) = true.
Proof. destruct c as [[] [] [] [] [] [] [] []]; vm_compute; done. Qed.

Lemma is_alnum_to_lower c : is_alnum c = true -> is_alnum (to_lower c) = true.
Proof. destruct c as [[] [] [] [] [] [] [] []]; vm_compute; done. Qed.

Lemma alnum_str_map_lower s :
  str_forall is_alnum s = true -> str_forall is_alnum (str_map to_lower s) = true.
Proof.
  induction s as [|c s IH]; [done|]. cbn [str_forall str_map].
  intros [Hc Hs]%andb_prop. by rewrite (is_alnum_to_lower _ Hc), IH.
Qed.

Lemma alnum_capitalize s :
  str_forall is_alnum s = true -> str_forall is_alnum (capitalize s) = true.
Proof.
  destruct s as [|c s]; [done|]. cbn [str_forall capitalize].
  intros [Hc Hs]%andb_prop.
  by rewrite (is_alnum_to_upper _ Hc), alnum_str_map_lower.
Qed.

Lemma isalnum_forall m : isalnum m = true -> str_forall is_alnum m = true.
Proof. by intros [_ H]%andb_prop. Qed.

(** The camel-case name of an alphanumeric module name is alphanumeric. *)
Lemma alnum_camel m :
  isalnum m = true -> str_forall is_alnum (get_camel_name m) = true.
Proof.
  intros H%isalnum_forall. unfold get_camel_name.
  rewrite (alnum_single_segment _ H). cbn. by apply alnum_capitalize.
Qed.

Lemma alnum_no_char c s :
  is_alnum c = false -> str_forall is_alnum s = true -> no_char c s = true.
Proof.
  intros Hc. induction s as [|x s IH]; [done|]. cbn [str_forall no_char].
  intros [Hx Hs]%andb_prop. change (str_forall _ s) with (no_char c s).
  rewrite (IH Hs), andb_true_r. apply negb_true_iff, Ascii.eqb_neq.
  intros ->. congruence.
Qed.

Lemma str_in_char c s : str_in (String c EmptyString) s = negb (no_char c s).
Proof.
  induction s as [|x s IH]; [done|]. cbn [str_in no_char str_forall].
  change (str_forall _ s) with (no_char c s).
  rewrite prefix_char, IH, negb_andb, negb_involutive.
  f_equal. rewrite Ascii.eqb_sym.
  destruct (Ascii.eqb_spec c x) as [->|Hne].
  - by rewrite bool_decide_eq_true_2.
  - by rewrite bool_decide_eq_false_2.
Qed.

(** ** The candidate lines of an alphanumeric name are complete lines *)

Lemma line_ok_wrap (pre s post : string) :
  no_char lf pre = true -> no_char cr pre = true ->
  no_char lf s = true -> no_char cr s = true ->
  no_char lf post = true -> no_char cr post = true ->
  line_ok (pre +:+ s +:+ post +:+ nl).
Proof.
  intros. exists (pre +:+ s +:+ post). split.
  - by rewrite !append_assoc.
  - rewrite !no_char_app. by repeat (split || apply andb_true_intro).
Qed.

Lemma line_ok_add_subdirectory module :
  str_forall is_alnum module = true -> line_ok (add_subdirectory_line_of module).
Proof.
  intros H. apply line_ok_wrap; try done; by apply alnum_no_char.
Qed.

Lemma line_ok_clang_library module_camel :
  str_forall is_alnum module_camel = true ->
  line_ok (clang_library_line_of module_camel).
Proof.
  intros H. apply line_ok_wrap; try done; by apply alnum_no_char.
Qed.

Lemma clang_library_no_paren module_camel :
  str_forall is_alnum module_camel = true ->
  str_in ")" (clang_library_line_of module_camel) = false.
Proof.
  intros H. rewrite str_in_char. apply negb_false_iff.
  unfold clang_library_line_of. rewrite !no_char_app.
  by rewrite (alnum_no_char ")" _ eq_refl H).
Qed.

Lemma line_ok_link_lines module_camel :
  str_forall is_alnum module_camel = true ->
  Forall line_ok (link_lines_of module_camel).
Proof.
  intros H. unfold link_lines_of.
  repeat (constructor; [apply line_ok_wrap; try done; by apply alnum_no_char|]).
  constructor; [|done]. exists EmptyString. by repeat split.
Qed.

Lemma line_ok_pending line :
  line_ok line -> Forall line_ok (pending line).
Proof. intros H. unfold pending. destruct (str_true line); by repeat constructor. Qed.

(** [linesout] of complete lines is made of complete lines. *)
Lemma cmake_linesout_line_ok module module_camel lines :
  str_forall is_alnum module = true ->
  str_forall is_alnum module_camel = true ->
  Forall line_ok lines ->
  Forall line_ok (cmake_linesout module module_camel lines).
Proof.
  intros Hm Hc Hlines. rewrite cmake_linesout_shape.
  pose proof (line_ok_add_subdirectory _ Hm) as H2.
  pose proof (line_ok_clang_library _ Hc) as H4.
  repeat (apply Forall_app; split).
  - by apply Forall_take.
  - destruct (scan_subdirectories_snd_cases (add_subdirectory_line_of module)
                (drop (subdirs_start lines) lines)) as [E|E];
      unfold subdirs_scan; rewrite E; [by apply line_ok_pending|done].
  - unfold slice. by apply Forall_take, Forall_drop.
  - destruct (scan_libraries_snd (clang_library_line_of module_camel)
                (drop (libs_start module lines) lines)) as [E|E];
      unfold libs_scan; rewrite E; [by apply line_ok_pending|done].
  - by apply Forall_drop.
Qed.

Lemma force_linker_linesout_line_ok module_camel lines :
  str_forall is_alnum module_camel = true ->
  Forall line_ok lines ->
  Forall line_ok (force_linker_linesout module_camel lines).
Proof.
  intros Hc Hlines. rewrite force_linker_linesout_shape.
  repeat (apply Forall_app; split).
  - by apply Forall_take.
  - destruct (scan_anchors_snd_cases (link_lines_of module_camel)
                (drop (anchors_start lines) lines)) as [E|E];
      unfold anchors_scan; rewrite E; [by apply line_ok_link_lines|done].
  - by apply Forall_drop.
Qed.

(** * A run after a run: steps that find their work done *)

Lemma appends_ret {A} (a : A) : appends (ret a).
Proof. intros m tr. cbn. by rewrite app_nil_r. Qed.

Lemma appends_emit e : appends (emit e).
Proof. by intros m tr. Qed.

Lemma appends_path_exists p : appends (path_exists p).
Proof. intros m tr. cbn. by rewrite app_nil_r. Qed.

Lemma appends_mkdir p : appends (mkdir p).
Proof.
  intros m tr. unfold run, mkdir. cbn [fs trace].
  destruct (m !! p); cbn; [by rewrite app_nil_r|].
  destruct (parent_check m p); cbn; by rewrite ?app_nil_r.
Qed.

Lemma appends_write_file p data : appends (write_file p data).
Proof.
  intros m tr. unfold run, write_file. cbn [fs trace].
  destruct (parent_check m p); cbn; [by rewrite app_nil_r|].
  destruct (m !! p) as [[]|]; cbn; by rewrite ?app_nil_r.
Qed.

Lemma appends_read_lines p : appends (read_lines p).
Proof.
  intros m tr. unfold run, read_lines. cbn [fs trace].
  destruct (m !! p) as [[]|]; cbn; by rewrite ?app_nil_r.
Qed.

Lemma appends_bind {A B} (a : io A) (k : A -> io B) :
  appends a -> (forall x, appends (k x)) -> appends (bind a k).
Proof.
  intros Ha Hk m tr. unfold run, bind. rewrite (Ha m tr).
  unfold run. destruct (a (World m [])) as [[x|e] [m' tr']]; cbn [fst snd fs trace].
  - rewrite (Hk x m' (tr ++ tr')), (Hk x m' tr').
    unfold run. destruct (k x (World m' [])) as [r [m'' tr'']]; cbn.
    by rewrite app_assoc.
  - done.
Qed.

Lemma appends_if {A} (b : bool) (x y : io A) :
  appends x -> appends y -> appends (if b then x else y).
Proof. by destruct b. Qed.

(** The run of [a >> k] from the run of [a]. *)
Lemma run_bind_ok (a k : io unit) m m' tr :
  appends k ->
  run a m = (Ok tt, World m' tr) ->
  run (a >> k) m
  = (fst (run k m'), World (fs (snd (run k m'))) (tr ++ trace (snd (run k m')))).
Proof.
  intros Hk Ha. unfold run in *. unfold bind. rewrite Ha. apply Hk.
Qed.

Lemma run_bind_raise (a k : io unit) m e w :
  run a m = (Raise e, w) -> run (a >> k) m = (Raise e, w).
Proof. intros Ha. unfold run in *. unfold bind. by rewrite Ha. Qed.

Lemma appends_steps_then steps last :
  Forall step_ok steps -> appends last -> appends (steps_then steps last).
Proof.
  intros Hsteps Hlast. induction Hsteps as [|s r Hs _ IH]; [done|].
  change (steps_then (s :: r) last) with (act s >> steps_then r last).
  apply appends_bind; [apply Hs|done].
Qed.

(** Settled steps only print, and what follows them runs from the same
    file system. *)
Lemma run_settled_steps done k m :
  Forall step_ok done ->
  Forall (fun s => settled s (m !! target s)) done ->
  appends k ->
  exists msgs,
    prints_only msgs /\
    run (steps_then done k) m
    = (fst (run k m), World (fs (snd (run k m))) (msgs ++ trace (snd (run k m)))).
Proof.
  intros Hok Hset Hk. induction Hok as [|s r Hs Hr IH].
  - exists []. split; [constructor|]. cbn [steps_then fold_right app].
    by destruct (run k m) as [? []].
  - inversion Hset as [|? ? Hs1 Hr1]; subst.
    destruct (IH Hr1) as (msgs & Hmsgs & Hrun).
    destruct (ok_quiet s Hs m Hs1) as (msgs0 & Hrun0 & Hmsgs0).
    exists (msgs0 ++ msgs). split; [by apply Forall_app|].
    change (steps_then (s :: r) k) with (act s >> steps_then r k).
    rewrite (run_bind_ok _ _ _ _ _ (appends_steps_then _ _ Hr Hk) Hrun0).
    rewrite Hrun. cbn [fst snd fs trace].
    by rewrite app_assoc.
Qed.

Lemma compatible_list_app done s rest :
  compatible_list (done ++ s :: rest) ->
  Forall (fun d => compatible d s) done /\ Forall (compatible s) rest.
Proof.
  induction done as [|d done IH]; cbn.
  - intros [H _]. by split.
  - intros [Hd Hrest]. destruct (IH Hrest) as [H1 H2]. split; [|done].
    constructor; [|done]. apply Forall_app in Hd as [_ Hd]. by inversion Hd.
Qed.

(** After a run of the steps, a second run from the file system the first
    one left has the same result, changes nothing and only prints. *)
Lemma second_run_from done rest last m :
  Forall step_ok (done ++ rest) ->
  compatible_list (done ++ rest) ->
  appends last ->
  (forall m', exists msgs, run last m' = (Ok tt, World m' msgs)
                           /\ prints_only msgs) ->
  Forall (fun s => settled s (m !! target s)) done ->
  Forall (fun s => pre s (m !! target s)) rest ->
  forall r1 w1,
    run (steps_then rest last) m = (r1, w1) ->
    exists msgs,
      run (steps_then (done ++ rest) last) (fs w1) = (r1, World (fs w1) msgs)
      /\ prints_only msgs.
Proof.
  intros Hok Hcompat Hlast Hlastq. revert done m Hok Hcompat.
  induction rest as [|s rest IH]; intros done m Hok Hcompat Hset Hpre r1 w1 Hrun.
  - rewrite app_nil_r in *.
    change (steps_then [] last) with last in Hrun.
    destruct (Hlastq m) as (msgs0 & Hl & Hmsgs0).
    rewrite Hl in Hrun. injection Hrun as <- <-. cbn [fs].
    destruct (run_settled_steps done last m Hok Hset Hlast) as (msgs & Hmsgs & Hr).
    rewrite Hr, Hl. cbn. eexists. split; [done|]. by apply Forall_app.
  - pose proof Hok as Hok'. apply Forall_app in Hok' as [Hokd Hoks].
    inversion Hoks as [|? ? Hs Hokr]; subst.
    inversion Hpre as [|? ? Hpres Hprer]; subst.
    destruct (compatible_list_app _ _ _ Hcompat) as [Hcd Hcr].
    assert (Hk : appends (steps_then rest last))
      by (by apply appends_steps_then).
    change (steps_then (s :: rest) last)
      with (act s >> steps_then rest last) in Hrun.
    destruct (ok_effect s Hs m Hpres)
      as [(msgs0 & Hrun0 & Hsets)
         |[(x & tr0 & Hrun0 & Hsetx & Hwx)|(e & msgs0 & Hrun0 & Hmsgs0)]].
    + rewrite (run_bind_ok _ _ _ _ _ Hk Hrun0) in Hrun.
      destruct (run (steps_then rest last) m) as [r [m' tr']] eqn:Erest.
      cbn [fst snd fs trace] in Hrun. injection Hrun as <- <-. cbn [fs].
      destruct (IH (done ++ [s]) m) with (r1 := r) (w1 := World m' tr')
        as (msgs & Hr2 & Hmsgs); rewrite <- ?app_assoc; try done.
      { apply Forall_app. split; [done|]. by repeat constructor. }
      exists msgs. by rewrite <- app_assoc in Hr2.
    + rewrite (run_bind_ok _ _ _ _ _ Hk Hrun0) in Hrun.
      set (m1 := <[target s := x]> m) in *.
      destruct (run (steps_then rest last) m1) as [r [m' tr']] eqn:Erest.
      cbn [fst snd fs trace] in Hrun. injection Hrun as <- <-. cbn [fs].
      destruct (IH (done ++ [s]) m1) with (r1 := r) (w1 := World m' tr')
        as (msgs & Hr2 & Hmsgs); rewrite <- ?app_assoc; try done.
      { apply Forall_app. split.
        - rewrite Forall_forall in Hset, Hcd |- *. intros d Hd.
          unfold m1. destruct (decide (target s = target d)) as [Heq|Hne].
          + rewrite Heq, lookup_insert_eq.
            by apply (Hcd d Hd (eq_sym Heq) x).
          + rewrite lookup_insert_ne by done. by apply Hset.
        - repeat constructor. unfold m1. by rewrite lookup_insert_eq. }
      { rewrite Forall_forall in Hprer, Hcr |- *. intros b Hb.
        unfold m1. destruct (decide (target s = target b)) as [Heq|Hne].
        - rewrite Heq, lookup_insert_eq. by apply (Hcr b Hb Heq x).
        - rewrite lookup_insert_ne by done. by apply Hprer. }
      exists msgs. by rewrite <- app_assoc in Hr2.
    + rewrite (run_bind_raise _ _ _ _ _ Hrun0) in Hrun.
      injection Hrun as <- <-. cbn [fs].
      destruct (run_settled_steps done (steps_then (s :: rest) last) m
                  Hokd Hset) as (msgs & Hmsgs & Hr).
      { by apply appends_steps_then. }
      assert (Happ : steps_then (done ++ s :: rest) last
                     = steps_then done (steps_then (s :: rest) last))
        by (unfold steps_then; by rewrite fold_right_app).
      rewrite Happ, Hr.
      change (steps_then (s :: rest) last) with (act s >> steps_then rest last).
      rewrite (run_bind_raise _ _ _ _ _ Hrun0). cbn.
      eexists. split; [done|]. by apply Forall_app.
Qed.

Theorem second_run_quiet steps last m :
  Forall step_ok steps ->
  compatible_list steps ->
  appends last ->
  (forall m', exists msgs, run last m' = (Ok tt, World m' msgs)
                           /\ prints_only msgs) ->
  Forall (fun s => pre s (m !! target s)) steps ->
  forall r1 w1,
    run (steps_then steps last) m = (r1, w1) ->
    exists msgs,
      run (steps_then steps last) (fs w1) = (r1, World (fs w1) msgs)
      /\ prints_only msgs.
Proof.
  intros Hok Hc Hl Hlq Hpre. by apply (second_run_from [] steps last m).
Qed.

(** * The steps of [main] *)

(** ** [main] as a list of steps *)

Lemma main_as_steps argv0 args name :
  module args = Some name ->
  isalnum name = true ->
  main argv0 args
  = steps_then (main_steps argv0 name) (print "Done. Now it's your turn!").
Proof.
  intros Hm Hal. unfold main. rewrite Hm.
  assert (Ht : module_true (Some name) = true).
  { unfold isalnum in Hal. by apply andb_prop in Hal as [? _]. }
  rewrite Ht. change (default EmptyString (Some name)) with name.
  rewrite Hal. reflexivity.
Qed.

(** ** The steps do what [step_ok] says *)

#[local] Arguments path_join : simpl never.
#[local] Arguments cmake_template : simpl never.
#[local] Arguments module_cpp_template : simpl never.
#[local] Arguments basename : simpl never.
#[local] Arguments str_repeat : simpl never.
#[local] Arguments writelines : simpl never.
#[local] Arguments readlines : simpl never.

Lemma dir_step_ok found creating p : step_ok (dir_step found creating p).
Proof.
  split; cbn [act target pre settled writes dir_step].
  - apply appends_bind; [apply appends_path_exists|]. intros b.
    apply appends_if; [apply appends_emit|].
    apply appends_bind; [apply appends_emit|]. intros _. apply appends_mkdir.
  - intros m Hs. exists [EPrint found]. split; [|by repeat constructor].
    unfold run, bind, path_exists. cbn [fs trace].
    by rewrite bool_decide_eq_true_2.
  - intros m _. unfold run, bind, path_exists, mkdir, print, emit. cbn [fs trace].
    destruct (m !! p) as [x|] eqn:E.
    + left. exists [EPrint found]. rewrite bool_decide_eq_true_2 by done.
      split; [done|]. by eexists.
    + rewrite bool_decide_eq_false_2 by (by intros [? ?]). cbn. rewrite E.
      destruct (parent_check m p) as [e|].
      * right. right. exists e, [EPrint creating]. split; [done|by repeat constructor].
      * right. left. exists Dir. eexists. split; [done|]. by split.
Qed.

Lemma write_cmake_step_ok module_path module_camel :
  step_ok (write_cmake_step module_path module_camel).
Proof.
  split; cbn [act target pre settled writes write_cmake_step].
  - apply appends_bind; [apply appends_path_exists|]. intros b.
    apply appends_if; [apply appends_ret|].
    apply appends_bind; [apply appends_emit|]. intros _. apply appends_write_file.
  - intros m Hs. exists []. split; [|constructor].
    unfold run, write_cmake, bind, path_exists. cbn [fs trace].
    by rewrite bool_decide_eq_true_2.
  - intros m _. unfold run, write_cmake, bind, path_exists, write_file, print, emit.
    cbn [fs trace]. set (p := path_join module_path ["CMakeLists.txt"]).
    destruct (m !! p) as [x|] eqn:E.
    + left. exists []. rewrite bool_decide_eq_true_2 by done.
      split; [done|]. by eexists.
    + rewrite bool_decide_eq_false_2 by (by intros [? ?]). cbn.
      destruct (parent_check m p) as [e|].
      * right. right. eexists e, _. split; [done|by repeat constructor].
      * rewrite E. right. left. eexists (File _), _.
        split; [done|]. split; [done|by eexists].
Qed.

Lemma write_module_cpp_step_ok module_path module module_camel :
  step_ok (write_module_cpp_step module_path module module_camel).
Proof.
  split; cbn [act target pre settled writes write_module_cpp_step].
  - apply appends_bind; [apply appends_path_exists|]. intros b.
    apply appends_if; [apply appends_emit|].
    apply appends_bind; [apply appends_emit|]. intros _. apply appends_write_file.
  - intros m Hs. eexists [EPrint _]. split; [|by repeat constructor].
    unfold run, write_module_cpp, bind, path_exists. cbn [fs trace].
    by rewrite bool_decide_eq_true_2.
  - intros m _.
    unfold run, write_module_cpp, bind, path_exists, write_file, print, emit.
    cbn [fs trace].
    set (p := path_join module_path [module_camel +:+ "TidyModule.cpp"]).
    destruct (m !! p) as [x|] eqn:E.
    + left. eexists [EPrint _]. rewrite bool_decide_eq_true_2 by done.
      split; [done|]. by eexists.
    + rewrite bool_decide_eq_false_2 by (by intros [? ?]). cbn.
      destruct (parent_check m p) as [e|].
      * right. right. eexists e, _. split; [done|by repeat constructor].
      * rewrite E. right. left. eexists (File _), _.
        split; [done|]. split; [done|by eexists].
Qed.

Lemma update_cmake_step_ok clang_tidy_path module module_camel :
  str_forall is_alnum module = true ->
  str_forall is_alnum module_camel = true ->
  step_ok (update_cmake_step clang_tidy_path module module_camel).
Proof.
  intros Hm Hc.
  split; cbn [act target pre settled writes update_cmake_step].
  - apply appends_bind; [apply appends_read_lines|]. intros lines.
    apply appends_if; [apply appends_emit|].
    apply appends_bind; [apply appends_emit|]. intros _. apply appends_write_file.
  - intros m (c & Hf & Hout). eexists. split.
    + by apply run_update_cmake_unchanged with (content := c).
    + by repeat constructor.
  - intros m Hpre.
    set (p := path_join clang_tidy_path ["CMakeLists.txt"]) in *.
    unfold run, update_clang_tidy_cmake, bind, read_lines, write_file, print, emit.
    cbn [fs trace]. fold p.
    destruct (m !! p) as [[|c]|] eqn:E.
    + right. right. eexists _, []. split; [done|constructor].
    + destruct (Hpre c eq_refl) as [Hterm Hfound].
      set (lines := readlines c).
      set (out := cmake_linesout module module_camel lines).
      destruct (decide (lines = out)) as [Heq|Hne].
      * left. rewrite bool_decide_eq_true_2 by done. eexists. split; [done|].
        by exists c.
      * rewrite bool_decide_eq_false_2 by done. cbn.
        destruct (parent_check m p) as [e|].
        -- right. right. eexists e, _. split; [done|by repeat constructor].
        -- rewrite ?E. right. left. eexists (File (writelines out)), _.
           split; [done|]. split; [|by eexists].
           exists (writelines out). split; [done|].
           assert (Hok : Forall line_ok out).
           { apply cmake_linesout_line_ok; try done.
             by apply readlines_line_ok. }
           rewrite (readlines_writelines _ Hok).
           apply cmake_linesout_idem; [done|].
           by apply clang_library_no_paren.
    + right. right. eexists _, []. split; [done|constructor].
Qed.

Lemma update_force_linker_step_ok clang_tidy_path module_camel :
  str_forall is_alnum module_camel = true ->
  step_ok (update_force_linker_step clang_tidy_path module_camel).
Proof.
  intros Hc.
  split; cbn [act target pre settled writes update_force_linker_step].
  - apply appends_bind; [apply appends_read_lines|]. intros lines.
    apply appends_if; [apply appends_emit|].
    apply appends_bind; [apply appends_emit|]. intros _. apply appends_write_file.
  - intros m (c & Hf & Hout). eexists. split.
    + by apply run_update_force_linker_unchanged with (content := c).
    + by repeat constructor.
  - intros m Hpre.
    set (p := path_join clang_tidy_path ["ClangTidyForceLinker.h"]) in *.
    unfold run, update_clang_tidy_force_linker, bind, read_lines, write_file,
      print, emit.
    cbn [fs trace]. fold p.
    destruct (m !! p) as [[|c]|] eqn:E.
    + right. right. eexists _, []. split; [done|constructor].
    + destruct (Hpre c eq_refl) as [Hterm Hclosed].
      set (lines := readlines c).
      set (out := force_linker_linesout module_camel lines).
      destruct (decide (lines = out)) as [Heq|Hne].
      * left. rewrite bool_decide_eq_true_2 by done. eexists. split; [done|].
        by exists c.
      * rewrite bool_decide_eq_false_2 by done. cbn.
        destruct (parent_check m p) as [e|].
        -- right. right. eexists e, _. split; [done|by repeat constructor].
        -- rewrite ?E. right. left. eexists (File (writelines out)), _.
           split; [done|]. split; [|by eexists].
           exists (writelines out). split; [done|].
           assert (Hok : Forall line_ok out).
           { apply force_linker_linesout_line_ok; try done.
             by apply readlines_line_ok. }
           rewrite (readlines_writelines _ Hok).
           by apply force_linker_linesout_idem.
    + right. right. eexists _, []. split; [done|constructor].
Qed.

(** * The paths of the files that are written *)

Lemma join2_with_sep path b :
  startswith b "/" = false -> join2 path b = with_sep path +:+ b.
Proof.
  intros Hb. unfold join2, with_sep. rewrite Hb.
  destruct (negb (str_true path) || endswith path "/"); [done|].
  by rewrite append_assoc.
Qed.

Lemma startswith_slash s : no_char "/" s = true -> startswith s "/" = false.
Proof.
  destruct s as [|c s]; [done|]. cbn [no_char str_forall].
  intros [Hc _]%andb_prop. rewrite startswith_cons.
  apply negb_true_iff, Ascii.eqb_neq in Hc.
  rewrite bool_decide_eq_false_2; [done|congruence].
Qed.

Lemma endswith_app_slash s t :
  t <> EmptyString -> endswith (s +:+ t) "/" = endswith t "/".
Proof.
  intros Ht. induction s as [|c s IH]; [done|].
  rewrite append_cons. cbn [endswith]. rewrite IH.
  destruct (s +:+ t) as [|c' r] eqn:E.
  - destruct s; [by subst|done].
  - cbn [String.eqb]. by destruct (Ascii.eqb c "/").
Qed.

Lemma endswith_slash_no_char s : no_char "/" s = true -> endswith s "/" = false.
Proof.
  induction s as [|c s IH]; [done|]. cbn [no_char str_forall endswith].
  intros [Hc Hs]%andb_prop. change (str_forall _ s) with (no_char "/" s) in Hs.
  rewrite (IH Hs), orb_false_r. cbn [String.eqb].
  apply negb_true_iff in Hc. rewrite Hc. done.
Qed.

(** Joining a name without [/] to a path that ends with such a name. *)
Lemma join2_after_name path name b :
  name <> EmptyString -> no_char "/" name = true ->
  startswith b "/" = false ->
  join2 (path +:+ name) b = path +:+ name +:+ "/" +:+ b.
Proof.
  intros Hne Hname Hb. unfold join2. rewrite Hb.
  rewrite endswith_app_slash, (endswith_slash_no_char _ Hname) by done.
  assert (Ht : str_true (path +:+ name) = true).
  { destruct path; [by destruct name|done]. }
  rewrite Ht. cbn. by rewrite append_assoc.
Qed.

Lemma append_inj_l (p a b : string) : p +:+ a = p +:+ b -> a = b.
Proof.
  induction p as [|c p IH]; [done|]. rewrite !append_cons.
  intros [= H]. by apply IH.
Qed.

Lemma isalnum_nonempty m : isalnum m = true -> m <> EmptyString.
Proof. by intros H ->. Qed.

Section Paths.
Variables (clang_tidy_path name : string).
Hypothesis Hname : isalnum name = true.

Let module_path := path_join clang_tidy_path [name].
Let cmake_path := path_join clang_tidy_path ["CMakeLists.txt"].
Let header_path := path_join clang_tidy_path ["ClangTidyForceLinker.h"].

Lemma name_no_slash : no_char "/" name = true.
Proof. apply alnum_no_char; [done|by apply isalnum_forall]. Qed.

Lemma module_path_eq : module_path = with_sep clang_tidy_path +:+ name.
Proof.
  unfold module_path, path_join. cbn [fold_left].
  apply join2_with_sep, startswith_slash, name_no_slash.
Qed.

Lemma cmake_path_eq : cmake_path = with_sep clang_tidy_path +:+ "CMakeLists.txt".
Proof. unfold cmake_path, path_join. cbn [fold_left]. by apply join2_with_sep. Qed.

Lemma header_path_eq :
  header_path = with_sep clang_tidy_path +:+ "ClangTidyForceLinker.h".
Proof. unfold header_path, path_join. cbn [fold_left]. by apply join2_with_sep. Qed.

(** A file in the module directory. *)
Lemma module_file_eq file :
  startswith file "/" = false ->
  path_join module_path [file]
  = with_sep clang_tidy_path +:+ (name +:+ "/" +:+ file).
Proof.
  intros Hf. unfold path_join at 1. cbn [fold_left]. rewrite module_path_eq.
  rewrite join2_after_name;
    [done|by apply isalnum_nonempty|apply name_no_slash|done].
Qed.

Lemma module_file_not_shared file shared :
  startswith file "/" = false ->
  no_char "/" shared = true ->
  path_join module_path [file] <> with_sep clang_tidy_path +:+ shared.
Proof.
  intros Hf Hs. rewrite module_file_eq by done.
  intros H%append_inj_l. rewrite <- H in Hs.
  rewrite !no_char_app in Hs. cbn in Hs. by rewrite andb_false_r in Hs.
Qed.

Lemma cmake_path_not_header : cmake_path <> header_path.
Proof.
  rewrite cmake_path_eq, header_path_eq. by intros H%append_inj_l.
Qed.
End Paths.

(** * Whole runs *)

Lemma main_steps_ok argv0 name :
  isalnum name = true -> Forall step_ok (main_steps argv0 name).
Proof.
  intros Hname. pose proof (isalnum_forall _ Hname) as Hm.
  pose proof (alnum_camel _ Hname) as Hc.
  unfold main_steps.
  constructor; [apply dir_step_ok|].
  constructor; [apply write_cmake_step_ok|].
  constructor; [apply write_module_cpp_step_ok|].
  constructor; [apply dir_step_ok|].
  constructor; [apply dir_step_ok|].
  constructor; [by apply update_cmake_step_ok|].
  constructor; [by apply update_force_linker_step_ok|].
  constructor.
Qed.

Lemma creator_compatible (a b : step) :
  (forall v, settled a v = is_Some v) ->
  (forall v, pre b v = True) ->
  compatible a b.
Proof.
  intros Ha Hb _ x. split; intros _; [rewrite Ha; by eexists|by rewrite Hb].
Qed.

Lemma main_steps_compatible argv0 name :
  isalnum name = true -> compatible_list (main_steps argv0 name).
Proof.
  intros Hname. pose proof (alnum_camel _ Hname) as Hc.
  assert (Hcpp : startswith (get_camel_name name +:+ "TidyModule.cpp") "/" = false).
  { apply startswith_slash. rewrite no_char_app.
    by rewrite (alnum_no_char "/" _ eq_refl Hc). }
  assert (Hdir : forall found creating p b,
             (exists P, pre b = fun v => forall c, v = Some (File c) -> P c) ->
             compatible (dir_step found creating p) b).
  { intros found creating p b [P HP] _ x. split; [intros _; by eexists|].
    cbn. intros ->. rewrite HP. by intros c [=]. }
  unfold main_steps. cbn [compatible_list].
  repeat match goal with
         | |- _ /\ _ => split
         | |- Forall _ _ => constructor
         | |- True => exact I
         end;
    try (apply creator_compatible; done);
    try (apply Hdir; eexists; reflexivity).
  - intros Heq. exfalso. revert Heq. cbn [target write_cmake_step update_cmake_step].
    rewrite (cmake_path_eq (dirname argv0)).
    by apply module_file_not_shared.
  - intros Heq. exfalso. revert Heq.
    cbn [target write_cmake_step update_force_linker_step].
    rewrite (header_path_eq (dirname argv0)).
    by apply module_file_not_shared.
  - intros Heq. exfalso. revert Heq.
    cbn [target write_module_cpp_step update_cmake_step].
    rewrite (cmake_path_eq (dirname argv0)).
    by apply module_file_not_shared.
  - intros Heq. exfalso. revert Heq.
    cbn [target write_module_cpp_step update_force_linker_step].
    rewrite (header_path_eq (dirname argv0)).
    by apply module_file_not_shared.
  - intros Heq. exfalso. revert Heq.
    cbn [target update_cmake_step update_force_linker_step].
    apply cmake_path_not_header.
Qed.

(** C1: when the CMake file and the header the first run finds end with a
    newline, the CMake file has a [set(ALL_CLANG_TIDY_CHECKS] line at or
    after the place where the [add_subdirectory] line goes, and every [#if]
    line of the header has a later [#endif] line, a second run of [main]
    with the same arguments, from the file system the first run left, ends
    as the first did, leaves that file system as it is and only prints: no
    directory is created, no file is written. *)
Theorem C1_second_run_changes_nothing (argv0 : string) (args : Args)
    (files : gmap string node) :
  (forall c,
      files !! path_join (dirname argv0) ["CMakeLists.txt"] = Some (File c) ->
      cmake_file_ok (default EmptyString (module args)) c) ->
  (forall c,
      files !! path_join (dirname argv0) ["ClangTidyForceLinker.h"]
      = Some (File c) ->
      header_file_ok c) ->
  forall r1 w1,
    run (main argv0 args) files = (r1, w1) ->
    exists msgs,
      run (main argv0 args) (fs w1) = (r1, World (fs w1) msgs)
      /\ prints_only msgs.
Proof.
  intros Hcmake Hheader r1 w1 Hrun.
  destruct (module_true (module args)) eqn:Ht.
  - destruct (module args) as [name|] eqn:Hm; [|done].
    change (default EmptyString (Some name)) with name in Hcmake.
    destruct (isalnum name) eqn:Hal.
    + rewrite (main_as_steps _ _ _ Hm Hal) in Hrun |- *.
      eapply second_run_quiet; [..|exact Hrun].
      * by apply main_steps_ok.
      * by apply main_steps_compatible.
      * apply appends_emit.
      * intros m'. eexists. split; [done|by repeat constructor].
      * unfold main_steps.
        do 5 (constructor; [exact I|]).
        constructor; [exact Hcmake|]. constructor; [exact Hheader|].
        constructor.
    + unfold run, main in Hrun |- *. rewrite Hm, Ht in Hrun |- *.
      change (default EmptyString (Some name)) with name in Hrun |- *.
      rewrite Hal in Hrun |- *. cbn in Hrun. injection Hrun as <- <-.
      eexists. split; [done|by repeat constructor].
  - unfold run, main in Hrun |- *. rewrite Ht in Hrun |- *.
    cbn in Hrun. injection Hrun as <- <-.
    eexists. split; [done|by repeat constructor].
Qed.

Lemma C1_witness :
  let argv0 := "ct/add_new_module.py" in
  let args := {| description := "FIXME: Write a short description";
                 module := Some "perf" |} in
  let cmake := writelines
      [ln "add_subdirectory(abseil)"; ln "if(CLANG_TIDY_ENABLE_STATIC_ANALYZER)";
       ln "  add_subdirectory(mpi)"; ln "endif()"; ln "add_subdirectory(zircon)";
       ln "set(ALL_CLANG_TIDY_CHECKS"; ln "  clangTidyAbseilModule";
       ln "  clangTidyZirconModule"; ln "  )"] in
  let header := writelines
      [ln "#ifndef LLVM_CLANG_TOOLS_EXTRA_CLANG_TIDY_CLANGTIDYFORCELINKER_H";
       ln "namespace clang::tidy {";
       ln "// This anchor is used to force the linker to link the AbseilModule.";
       ln "extern volatile int AbseilModuleAnchorSource;";
       ln "} // namespace clang::tidy";
       ln "#endif"] in
  let files : gmap string node :=
    <["ct" := Dir]>
      (<["ct/../docs/clang-tidy/checks" := Dir]>
         (<["ct/../test/clang-tidy/checkers" := Dir]>
            (<["ct/CMakeLists.txt" := File cmake]>
               {[ "ct/ClangTidyForceLinker.h" := File header ]}))) in
  (forall c,
      files !! path_join (dirname argv0) ["CMakeLists.txt"] = Some (File c) ->
      cmake_file_ok (default EmptyString (module args)) c) /\
  (forall c,
      files !! path_join (dirname argv0) ["ClangTidyForceLinker.h"]
      = Some (File c) ->
      header_file_ok c) /\
  exists msgs,
    run (main argv0 args) (fs (snd (run (main argv0 args) files)))
    = (fst (run (main argv0 args) files),
       World (fs (snd (run (main argv0 args) files))) msgs)
    /\ prints_only msgs.
Proof.
  intros argv0 args cmake header files.
  assert (H1 : forall c,
             files !! path_join (dirname argv0) ["CMakeLists.txt"]
             = Some (File c) ->
             cmake_file_ok (default EmptyString (module args)) c).
  { intros c H. vm_compute in H. injection H as <-.
    split; vm_compute; reflexivity. }
  assert (H2 : forall c,
             files !! path_join (dirname argv0) ["ClangTidyForceLinker.h"]
             = Some (File c) ->
             header_file_ok c).
  { intros c H. vm_compute in H. injection H as <-.
    split; vm_compute; reflexivity. }
  split; [exact H1|]. split; [exact H2|].
  apply (C1_second_run_changes_nothing argv0 args files H1 H2).
  by destruct (run (main argv0 args) files).
Defined.

(** A CMake file without the [set(ALL_CLANG_TIDY_CHECKS] line: each run
    puts the library line at the end of the file once more. *)
Lemma C1_counterexample :
  let argv0 := "ct/add_new_module.py" in
  let args := {| description := "FIXME: Write a short description";
                 module := Some "perf" |} in
  let cmake := writelines
      [ln "add_subdirectory(abseil)"; ln "add_subdirectory(zircon)"] in
  let header := writelines
      [ln "#ifndef LLVM_CLANG_TOOLS_EXTRA_CLANG_TIDY_CLANGTIDYFORCELINKER_H";
       ln "namespace clang::tidy {";
       ln "// This anchor is used to force the linker to link the AbseilModule.";
       ln "extern volatile int AbseilModuleAnchorSource;";
       ln "} // namespace clang::tidy";
       ln "#endif"] in
  let files : gmap string node :=
    <["ct" := Dir]>
      (<["ct/../docs/clang-tidy/checks" := Dir]>
         (<["ct/../test/clang-tidy/checkers" := Dir]>
            (<["ct/CMakeLists.txt" := File cmake]>
               {[ "ct/ClangTidyForceLinker.h" := File header ]}))) in
  let w1 := snd (run (main argv0 args) files) in
  let w2 := snd (run (main argv0 args) (fs w1)) in
  fs w1 !! "ct/CMakeLists.txt"
  = Some (File (writelines
      [ln "add_subdirectory(abseil)"; ln "add_subdirectory(perf)";
       ln "add_subdirectory(zircon)"; ln "  clangTidyPerfModule"])) /\
  fs w2 !! "ct/CMakeLists.txt"
  = Some (File (writelines
      [ln "add_subdirectory(abseil)"; ln "add_subdirectory(perf)";
       ln "add_subdirectory(zircon)"; ln "  clangTidyPerfModule";
       ln "  clangTidyPerfModule"])) /\
  fs w2 <> fs w1 /\
  ~ prints_only (trace w2).
Proof.
  intros argv0 args cmake header files w1 w2.
  assert (E1 : fs w1 !! "ct/CMakeLists.txt"
               = Some (File (writelines
                   [ln "add_subdirectory(abseil)"; ln "add_subdirectory(perf)";
                    ln "add_subdirectory(zircon)"; ln "  clangTidyPerfModule"])))
    by (vm_compute; reflexivity).
  assert (E2 : fs w2 !! "ct/CMakeLists.txt"
               = Some (File (writelines
                   [ln "add_subdirectory(abseil)"; ln "add_subdirectory(perf)";
                    ln "add_subdirectory(zircon)"; ln "  clangTidyPerfModule";
                    ln "  clangTidyPerfModule"])))
    by (vm_compute; reflexivity).
  split; [exact E1|]. split; [exact E2|]. split.
  - intros Heq. rewrite Heq, E1 in E2. vm_compute in E2. discriminate E2.
  - intros H. unfold prints_only in H. rewrite Forall_forall in H.
    assert (Hin : EWrite "ct/CMakeLists.txt" (writelines
                   [ln "add_subdirectory(abseil)"; ln "add_subdirectory(perf)";
                    ln "add_subdirectory(zircon)"; ln "  clangTidyPerfModule";
                    ln "  clangTidyPerfModule"]) ∈ trace w2).
    { vm_compute. repeat (first [by apply list_elem_of_here | apply list_elem_of_further]). }
    specialize (H _ Hin). discriminate H.
Qed.

(** The other two conditions of C1 cannot be dropped either.  A header
    that does not end with a newline and has no anchor comment: the link
    lines are written after the unfinished last line, which then hides the
    anchor comment from the second run. *)
Lemma second_run_needs_final_newline :
  let header := "#ifndef GUARD" +:+ nl +:+ "#endif" in
  let out := force_linker_linesout "Perf" (readlines header) in
  blocks_closed "#if" "#endif" (readlines header) = true /\
  all_terminated (readlines header) = false /\
  force_linker_linesout "Perf" (readlines (writelines out))
  <> readlines (writelines out).
Proof.
  intros header out. split; [reflexivity|]. split; [reflexivity|].
  vm_compute. discriminate.
Qed.

(** A header with an [#if] line that no [#endif] line follows: the scan
    leaves the file from inside the block, in the second run as in the
    first, and the link lines are added at the end each time. *)
Lemma second_run_needs_closed_blocks :
  let header := writelines
      [ln "// This anchor is used to force the linker to link the AbseilModule.";
       ln "#if CLANG_TIDY_ENABLE_STATIC_ANALYZER";
       ln "// This anchor is used to force the linker to link the MPIModule."] in
  let out := force_linker_linesout "Perf" (readlines header) in
  all_terminated (readlines header) = true /\
  blocks_closed "#if" "#endif" (readlines header) = false /\
  force_linker_linesout "Perf" (readlines (writelines out))
  <> readlines (writelines out).
Proof.
  intros header out. split; [reflexivity|]. split; [reflexivity|].
  vm_compute. discriminate.
Qed.

(** * C8: the two template writers on files that exist *)

(** C8, on files that exist: [write_module_cpp] prints that the file is
    there, [write_cmake] returns without a word; both leave the file
    system as it is.  On a directory without the files, both print
    "Creating" and write their template. *)
Theorem C8_template_writers_on_existing_files :
  let files : gmap string node :=
    <["ct/perf" := Dir]>
      (<["ct/perf/CMakeLists.txt" := File (ln "# my build file")]>
         {[ "ct/perf/PerfTidyModule.cpp" := File (ln "// my module") ]}) in
  let fresh : gmap string node := {[ "ct/perf" := Dir ]} in
  run (write_cmake "ct/perf" "Perf") files = (Ok tt, World files []) /\
  run (write_module_cpp "ct/perf" "perf" "Perf" "perf") files
  = (Ok tt, World files
       [EPrint "File already exists: ct/perf/PerfTidyModule.cpp"]) /\
  run (write_cmake "ct/perf" "Perf") fresh
  = (Ok tt,
     World (<["ct/perf/CMakeLists.txt" :=
               File (cmake_template "clangTidyPerfModule" "PerfTidyModule.cpp")]>
              fresh)
       [EPrint "Creating ct/perf/CMakeLists.txt...";
        EWrite "ct/perf/CMakeLists.txt"
          (cmake_template "clangTidyPerfModule" "PerfTidyModule.cpp")]) /\
  let cpp := "//===--- PerfTidyModule.cpp - clang-tidy "
             +:+ str_repeat "-" 33 +:+ "-===//"
             +:+ module_cpp_template "perf" "PerfModule" "perf" in
  run (write_module_cpp "ct/perf" "perf" "Perf" "perf") fresh
  = (Ok tt,
     World (<["ct/perf/PerfTidyModule.cpp" := File cpp]> fresh)
       [EPrint "Creating ct/perf/PerfTidyModule.cpp...";
        EWrite "ct/perf/PerfTidyModule.cpp" cpp]).
Proof.
  intros files fresh. repeat split; vm_compute; reflexivity.
Qed.

(** * More on the camel-case name *)

Lemma to_lower_to_upper c : to_lower (to_upper c) = to_lower c.
Proof. destruct c as [[] [] [] [] [] [] [] []]; vm_compute; done. Qed.

Lemma to_lower_idem c : to_lower (to_lower c) = to_lower c.
Proof. destruct c as [[] [] [] [] [] [] [] []]; vm_compute; done. Qed.


Lemma to_upper_not_hyphen c : c <> "-"%char -> to_upper c <> "-"%char.
Proof. destruct c as [[] [] [] [] [] [] [] []]; vm_compute; congruence. Qed.

Lemma to_lower_not_hyphen c : c <> "-"%char -> to_lower c <> "-"%char.
Proof. destruct c as [[] [] [] [] [] [] [] []]; vm_compute; congruence. Qed.

Lemma str_map_idem f s :
  (forall c, f (f c) = f c) -> str_map f (str_map f s) = str_map f s.
Proof.
  intros Hf. induction s as [|c s IH]; [done|].
  cbn [str_map]. by rewrite Hf, IH.
Qed.

Lemma str_map_length f s : String.length (str_map f s) = String.length s.
Proof. induction s as [|c s IH]; [done|]. cbn. by rewrite IH. Qed.

Lemma str_map_app f a b : str_map f (a +:+ b) = str_map f a +:+ str_map f b.
Proof.
  induction a as [|c a IH]; [done|].
  rewrite append_cons. cbn [str_map]. by rewrite append_cons, IH.
Qed.

Lemma length_app_str a b :
  String.length (a +:+ b) = String.length a + String.length b.
Proof.
  induction a as [|c a IH]; [done|]. rewrite append_cons. cbn. by rewrite IH.
Qed.

Lemma lower_capitalize s : str_map to_lower (capitalize s) = str_map to_lower s.
Proof.
  destruct s as [|c s]; [done|]. cbn [capitalize str_map].
  by rewrite to_lower_to_upper, (str_map_idem _ _ to_lower_idem).
Qed.

Lemma capitalize_length s : String.length (capitalize s) = String.length s.
Proof. destruct s as [|c s]; [done|]. cbn. by rewrite str_map_length. Qed.


Lemma no_hyphen_str_map_lower s :
  no_char "-" s = true -> no_char "-" (str_map to_lower s) = true.
Proof.
  induction s as [|c s IH]; [done|]. cbn [no_char str_forall str_map].
  intros [Hc Hs]%andb_prop. apply andb_true_intro. split; [|by apply IH].
  apply negb_true_iff, Ascii.eqb_neq, to_lower_not_hyphen.
  by apply Ascii.eqb_neq, negb_true_iff.
Qed.

Lemma no_hyphen_capitalize s :
  no_char "-" s = true -> no_char "-" (capitalize s) = true.
Proof.
  destruct s as [|c s]; [done|]. cbn [no_char str_forall capitalize].
  intros [Hc Hs]%andb_prop. apply andb_true_intro. split.
  - apply negb_true_iff, Ascii.eqb_neq, to_upper_not_hyphen.
    by apply Ascii.eqb_neq, negb_true_iff.
  - by apply no_hyphen_str_map_lower.
Qed.

(** ** [split] and [join] *)

Lemma str_split_cons sep c r :
  str_split sep (String c r)
  = if Ascii.eqb c sep then EmptyString :: str_split sep r
    else String c (hd EmptyString (str_split sep r)) :: tl (str_split sep r).
Proof. cbn [str_split]. by destruct (Ascii.eqb c sep), (str_split sep r). Qed.

Lemma str_split_not_nil sep s : str_split sep s <> [].
Proof.
  induction s as [|c r IH]; [done|]. rewrite str_split_cons.
  by destruct (Ascii.eqb c sep).
Qed.

Lemma str_split_no_sep sep s : no_char sep s = true -> str_split sep s = [s].
Proof.
  induction s as [|c r IH]; [done|]. cbn [no_char str_forall].
  intros [Hc Hr]%andb_prop. rewrite str_split_cons, (IH Hr).
  apply negb_true_iff in Hc. by rewrite Hc.
Qed.

Lemma str_split_app sep a b :
  no_char sep a = true ->
  str_split sep (a +:+ String sep b) = a :: str_split sep b.
Proof.
  induction a as [|c a IH].
  - intros _. change (EmptyString +:+ String sep b) with (String sep b).
    by rewrite str_split_cons, Ascii.eqb_refl.
  - cbn [no_char str_forall]. intros [Hc Ha]%andb_prop.
    rewrite append_cons, str_split_cons, (IH Ha).
    apply negb_true_iff in Hc. by rewrite Hc.
Qed.

Lemma segments_no_sep sep s :
  Forall (fun x => no_char sep x = true) (str_split sep s).
Proof.
  induction s as [|c r IH]; [by constructor|]. rewrite str_split_cons.
  destruct (Ascii.eqb c sep) eqn:Hc; [by constructor|].
  destruct (str_split sep r) as [|h t]; [by constructor; [cbn; rewrite Hc|]|].
  inversion_clear IH as [|? ? Hh Ht]. constructor; [|done].
  cbn [hd no_char str_forall]. by rewrite Hc.
Qed.

Lemma concat_nil_cons x xs :
  String.concat EmptyString (x :: xs) = x +:+ String.concat EmptyString xs.
Proof. destruct xs; [by rewrite append_nil_r|done]. Qed.

Lemma join_split sep s :
  String.concat EmptyString (str_split sep s) = remove_char sep s.
Proof.
  induction s as [|c r IH]; [done|]. rewrite str_split_cons. cbn [remove_char].
  destruct (Ascii.eqb c sep); rewrite <- IH.
  - by rewrite concat_nil_cons.
  - pose proof (str_split_not_nil sep r).
    destruct (str_split sep r) as [|h t]; [done|].
    cbn [hd tl]. by rewrite !concat_nil_cons, append_cons.
Qed.

Lemma str_map_concat f ls :
  str_map f (String.concat EmptyString ls)
  = String.concat EmptyString (map (str_map f) ls).
Proof.
  induction ls as [|x xs IH]; [done|].
  rewrite map_cons, !concat_nil_cons, str_map_app. by rewrite IH.
Qed.

Lemma no_char_concat c ls :
  Forall (fun x => no_char c x = true) ls ->
  no_char c (String.concat EmptyString ls) = true.
Proof.
  induction 1 as [|x xs Hx _ IH]; [done|].
  by rewrite concat_nil_cons, no_char_app, Hx, IH.
Qed.

Lemma length_concat ls :
  String.length (String.concat EmptyString ls)
  = sum_list (map String.length ls).
Proof.
  induction ls as [|x xs IH]; [done|].
  by rewrite concat_nil_cons, length_app_str, IH.
Qed.

(** X1: splitting at hyphens undoes joining with hyphens, so that the
    camel-case name of a hyphenated check name is the concatenation of its
    capitalized segments. *)
Theorem camel_of_joined_segments (segs : list string) :
  segs <> [] ->
  Forall (fun s => no_char "-" s = true) segs ->
  str_split "-" (String.concat "-" segs) = segs /\
  get_camel_name (String.concat "-" segs)
  = String.concat EmptyString (map capitalize segs).
Proof.
  intros Hne Hall.
  assert (str_split "-" (String.concat "-" segs) = segs) as Hsplit.
  { induction Hall as [|x xs Hx Hxs IH]; [done|].
    destruct xs as [|y ys].
    - by apply str_split_no_sep.
    - change (String.concat "-" (x :: y :: ys))
        with (x +:+ String "-" (String.concat "-" (y :: ys))).
      by rewrite (str_split_app _ _ _ Hx), IH. }
  split; [done|]. unfold get_camel_name. by rewrite Hsplit.
Qed.

Lemma camel_of_joined_segments_witness :
  ["readability"; "identifier"; "naming"] <> [] /\
  Forall (fun s => no_char "-" s = true)
    ["readability"; "identifier"; "naming"] /\
  str_split "-" "readability-identifier-naming"
  = ["readability"; "identifier"; "naming"] /\
  get_camel_name "readability-identifier-naming" = "ReadabilityIdentifierNaming".
Proof.
  assert (["readability"; "identifier"; "naming"] <> []) as H1 by done.
  assert (Forall (fun s => no_char "-" s = true)
            ["readability"; "identifier"; "naming"]) as H2
    by (repeat constructor).
  split; [exact H1|]. split; [exact H2|].
  exact (camel_of_joined_segments _ H1 H2).
Defined.

(** X2: the camel-case name of an ASCII name has no hyphen and is, up to
    the case of its letters, the name without its hyphens; it has as many
    characters. *)
Theorem camel_name_drops_hyphens_only (check_name : string) :
  str_forall is_ascii check_name = true ->
  no_char "-" (get_camel_name check_name) = true /\
  str_map to_lower (get_camel_name check_name)
  = str_map to_lower (remove_char "-" check_name) /\
  String.length (get_camel_name check_name)
  = String.length (remove_char "-" check_name).
Proof.
  intros _. unfold get_camel_name. split; [|split].
  - apply no_char_concat, Forall_map.
    eapply Forall_impl; [apply segments_no_sep|].
    intros x Hx. by apply no_hyphen_capitalize.
  - rewrite str_map_concat, map_map.
    rewrite (map_ext _ (str_map to_lower)) by apply lower_capitalize.
    by rewrite <- str_map_concat, join_split.
  - rewrite length_concat, map_map.
    rewrite (map_ext _ String.length) by apply capitalize_length.
    by rewrite <- length_concat, join_split.
Qed.

Lemma camel_name_drops_hyphens_only_witness :
  str_forall is_ascii "misc-Unused-aliasDecls" = true /\
  no_char "-" (get_camel_name "misc-Unused-aliasDecls") = true /\
  str_map to_lower (get_camel_name "misc-Unused-aliasDecls")
  = str_map to_lower (remove_char "-" "misc-Unused-aliasDecls") /\
  String.length (get_camel_name "misc-Unused-aliasDecls")
  = String.length (remove_char "-" "misc-Unused-aliasDecls").
Proof.
  split; [reflexivity|].
  exact (camel_name_drops_hyphens_only "misc-Unused-aliasDecls" eq_refl).
Defined.



(** * More on the two merges *)

(** ** The candidates are in [linesout] *)

Lemma clang_library_line_true module_camel :
  str_true (clang_library_line_of module_camel) = true.
Proof. done. Qed.

Lemma pending_nil line : pending line = [] -> line = EmptyString.
Proof.
  unfold pending, str_true. destruct (String.eqb_spec line EmptyString); done.
Qed.

Lemma cmake_linesout_incl module module_camel lines x :
  x ∈ lines -> x ∈ cmake_linesout module module_camel lines.
Proof.
  destruct (linesout_kept module module_camel lines)
    as [(a & b & c & s & l & Hl & Ho & _) _].
  rewrite Ho. rewrite Hl at 1. rewrite !elem_of_app. tauto.
Qed.

Lemma force_linker_linesout_incl module_camel lines x :
  x ∈ lines -> x ∈ force_linker_linesout module_camel lines.
Proof.
  destruct (linesout_kept EmptyString module_camel lines)
    as [_ (a & c & s & Hl & Ho & _)].
  rewrite Ho. rewrite Hl at 1. rewrite !elem_of_app. tauto.
Qed.

(** A candidate that the scan emptied was met where the scan stopped. *)
Lemma subdirs_met module lines :
  snd (subdirs_scan module lines) = EmptyString ->
  lines !! subdirs_stop module lines = Some (add_subdirectory_line_of module).
Proof.
  unfold subdirs_stop, subdirs_scan. intros H.
  rewrite scan_subdirectories_snd, lookup_drop in H.
  destruct (lines !! _) as [l|] eqn:El; [|done].
  destruct (startswith l _); [done|].
  destruct (String.eqb_spec l (add_subdirectory_line_of module)); [by subst|done].
Qed.

Lemma libs_met module module_camel lines :
  snd (libs_scan module module_camel lines) = EmptyString ->
  lines !! libs_stop module module_camel lines
  = Some (clang_library_line_of module_camel).
Proof.
  unfold libs_stop, libs_scan. intros H.
  destruct (scan_libraries_met _ _ H) as [?|[r Hr]]; [done|].
  rewrite drop_drop in Hr.
  apply (f_equal (fun l => l !! 0)) in Hr. rewrite lookup_drop in Hr.
  by rewrite Nat.add_0_r in Hr.
Qed.

Lemma anchors_met module_camel lines :
  snd (anchors_scan module_camel lines) = [] ->
  lines !! anchors_stop module_camel lines
  = Some (first_line (link_lines_of module_camel)).
Proof.
  unfold anchors_stop, anchors_scan. intros H.
  rewrite scan_anchors_snd, lookup_drop in H.
  destruct (lines !! _) as [l|] eqn:El; [|done].
  destruct (startswith l _); [done|].
  destruct (String.eqb_spec l (first_line (link_lines_of module_camel)));
    [by subst|done].
Qed.

Lemma add_subdirectory_line_in_linesout module module_camel lines :
  add_subdirectory_line_of module ∈ cmake_linesout module module_camel lines.
Proof.
  destruct (scan_subdirectories_snd_cases (add_subdirectory_line_of module)
              (drop (subdirs_start lines) lines)) as [E|E];
    fold (subdirs_scan module lines) in E.
  - rewrite cmake_linesout_shape, E.
    rewrite (pending_true _ (add_subdirectory_line_true module)).
    rewrite !elem_of_app, list_elem_of_singleton. tauto.
  - apply cmake_linesout_incl.
    eapply list_elem_of_lookup_2, subdirs_met, E.
Qed.

Lemma clang_library_line_in_linesout module module_camel lines :
  clang_library_line_of module_camel ∈ cmake_linesout module module_camel lines.
Proof.
  destruct (scan_libraries_snd (clang_library_line_of module_camel)
              (drop (libs_start module lines) lines)) as [E|E];
    fold (libs_scan module module_camel lines) in E.
  - rewrite cmake_linesout_shape, E.
    rewrite (pending_true _ (clang_library_line_true module_camel)).
    rewrite !elem_of_app, list_elem_of_singleton. tauto.
  - apply cmake_linesout_incl.
    eapply list_elem_of_lookup_2, libs_met, E.
Qed.

Lemma first_link_line_in_linesout module_camel lines :
  first_line (link_lines_of module_camel)
    ∈ force_linker_linesout module_camel lines.
Proof.
  destruct (scan_anchors_snd_cases (link_lines_of module_camel)
              (drop (anchors_start lines) lines)) as [E|E];
    fold (anchors_scan module_camel lines) in E.
  - rewrite force_linker_linesout_shape, E.
    rewrite !elem_of_app. right; left. apply list_elem_of_here.
  - apply force_linker_linesout_incl.
    eapply list_elem_of_lookup_2, anchors_met, E.
Qed.

(** X4: whatever the file holds, the lines the merges make hold the
    [add_subdirectory] line and the library line of the module, and the
    first link line of the module. *)
Theorem candidates_in_linesout (module module_camel : string)
    (lines : list string) :
  add_subdirectory_line_of module ∈ cmake_linesout module module_camel lines /\
  clang_library_line_of module_camel ∈ cmake_linesout module module_camel lines /\
  first_line (link_lines_of module_camel)
    ∈ force_linker_linesout module_camel lines.
Proof.
  split; [apply add_subdirectory_line_in_linesout|].
  split; [apply clang_library_line_in_linesout|].
  apply first_link_line_in_linesout.
Qed.

(** ** When a merge rewrites its file *)

Lemma cmake_linesout_length module module_camel lines :
  length (cmake_linesout module module_camel lines)
  = length lines
    + length (pending (snd (subdirs_scan module lines)))
    + length (pending (snd (libs_scan module module_camel lines))).
Proof.
  pose proof (subdirs_stop_le module lines).
  pose proof (libs_start_le module lines).
  pose proof (libs_stop_le module module_camel lines).
  rewrite cmake_linesout_shape. unfold slice.
  rewrite !length_app, !length_take, !length_drop. lia.
Qed.

Lemma force_linker_linesout_length module_camel lines :
  length (force_linker_linesout module_camel lines)
  = length lines + length (snd (anchors_scan module_camel lines)).
Proof.
  pose proof (anchors_stop_le module_camel lines).
  rewrite force_linker_linesout_shape.
  rewrite !length_app, !length_take, !length_drop. lia.
Qed.

Lemma cmake_linesout_eq_iff module module_camel lines :
  cmake_linesout module module_camel lines = lines <->
  snd (subdirs_scan module lines) = EmptyString /\
  snd (libs_scan module module_camel lines) = EmptyString.
Proof.
  split; [|intros [? ?]; by apply cmake_linesout_unchanged].
  intros H%(f_equal length). rewrite cmake_linesout_length in H.
  split; apply pending_nil, length_zero_iff_nil; lia.
Qed.

Lemma force_linker_linesout_eq_iff module_camel lines :
  force_linker_linesout module_camel lines = lines <->
  snd (anchors_scan module_camel lines) = [].
Proof.
  split; [|apply force_linker_linesout_unchanged].
  intros H%(f_equal length). rewrite force_linker_linesout_length in H.
  apply length_zero_iff_nil. lia.
Qed.

(** X5: [update_clang_tidy_cmake] on a file it can read and write back.  The
    comparison of line 192 is exact: the lines come out as they were read
    if and only if both candidates were met.  In that case the routine only
    prints its message; in every other case it announces the update and
    puts [linesout], written line after line, in the place of the file. *)
Theorem update_cmake_writes_iff_pending (clang_tidy_path module module_camel : string)
    (files : gmap string node) (content : string) :
  let path := path_join clang_tidy_path ["CMakeLists.txt"] in
  let lines := readlines content in
  let linesout := cmake_linesout module module_camel lines in
  let met :=
    snd (subdirs_scan module lines) = EmptyString /\
    snd (libs_scan module module_camel lines) = EmptyString in
  files !! path = Some (File content) ->
  parent_check files path = None ->
  (lines = linesout <-> met) /\
  run (update_clang_tidy_cmake clang_tidy_path module module_camel) files
  = if bool_decide met
    then (Ok tt, World files [EPrint ("Module already included: " +:+ path)])
    else (Ok tt, World (<[path := File (writelines linesout)]> files)
                   [EPrint ("Updating " +:+ path +:+ "...");
                    EWrite path (writelines linesout)]).
Proof.
  intros path lines linesout met Hf Hp.
  assert (lines = linesout <-> met) as Hiff.
  { split; [intros H; by apply cmake_linesout_eq_iff|].
    intros H. symmetry. by apply cmake_linesout_eq_iff. }
  split; [done|].
  unfold run, update_clang_tidy_cmake, bind, read_lines, print, emit, write_file.
  cbn [fs trace]. fold path. rewrite Hf. fold lines. fold linesout.
  rewrite (bool_decide_ext _ _ Hiff).
  destruct (bool_decide met); [done|].
  cbn [fs trace]. by rewrite Hp, Hf.
Qed.

Lemma update_cmake_writes_iff_pending_witness :
  let cmake := writelines
      [ln "add_subdirectory(abseil)"; ln "set(ALL_CLANG_TIDY_CHECKS";
       ln "  clangTidyAbseilModule"; ln "  )"] in
  let cmake' := writelines
      [ln "add_subdirectory(abseil)"; ln "add_subdirectory(perf)";
       ln "set(ALL_CLANG_TIDY_CHECKS";
       ln "  clangTidyAbseilModule"; ln "  clangTidyPerfModule"; ln "  )"] in
  let files : gmap string node :=
    <["ct" := Dir]> {[ "ct/CMakeLists.txt" := File cmake ]} in
  files !! path_join "ct" ["CMakeLists.txt"] = Some (File cmake) /\
  parent_check files (path_join "ct" ["CMakeLists.txt"]) = None /\
  run (update_clang_tidy_cmake "ct" "perf" "Perf") files
  = (Ok tt, World (<["ct/CMakeLists.txt" := File cmake']> files)
              [EPrint "Updating ct/CMakeLists.txt...";
               EWrite "ct/CMakeLists.txt" cmake']).
Proof.
  intros cmake cmake' files.
  assert (files !! path_join "ct" ["CMakeLists.txt"] = Some (File cmake)) as H1
    by reflexivity.
  assert (parent_check files (path_join "ct" ["CMakeLists.txt"]) = None) as H2
    by reflexivity.
  split; [exact H1|]. split; [exact H2|].
  exact (proj2 (update_cmake_writes_iff_pending "ct" "perf" "Perf" files cmake
                  H1 H2)).
Defined.

(** X6: the same for [update_clang_tidy_force_linker] and the comparison of
    line 256: the header is rewritten if and only if its first link line
    was not met, and then with the five link lines added. *)
Theorem update_force_linker_writes_iff_pending (clang_tidy_path module_camel : string)
    (files : gmap string node) (content : string) :
  let path := path_join clang_tidy_path ["ClangTidyForceLinker.h"] in
  let lines := readlines content in
  let linesout := force_linker_linesout module_camel lines in
  let met := snd (anchors_scan module_camel lines) = [] in
  files !! path = Some (File content) ->
  parent_check files path = None ->
  (lines = linesout <-> met) /\
  (~ met -> length linesout = length lines + 5) /\
  run (update_clang_tidy_force_linker clang_tidy_path module_camel) files
  = if bool_decide met
    then (Ok tt, World files
                   [EPrint ("Module already has forced link: " +:+ path)])
    else (Ok tt, World (<[path := File (writelines linesout)]> files)
                   [EPrint ("Updating " +:+ path +:+ "...");
                    EWrite path (writelines linesout)]).
Proof.
  intros path lines linesout met Hf Hp.
  assert (lines = linesout <-> met) as Hiff.
  { split; [intros H; by apply force_linker_linesout_eq_iff|].
    intros H. symmetry. by apply force_linker_linesout_eq_iff. }
  split; [done|]. split.
  - intros Hn. unfold linesout. rewrite force_linker_linesout_length.
    destruct (scan_anchors_snd_cases (link_lines_of module_camel)
                (drop (anchors_start lines) lines)) as [E|E];
      fold (anchors_scan module_camel lines) in E; [by rewrite E|done].
  - unfold run, update_clang_tidy_force_linker, bind, read_lines, print, emit,
      write_file.
    cbn [fs trace]. fold path. rewrite Hf. fold lines. fold linesout.
    rewrite (bool_decide_ext _ _ Hiff).
    destruct (bool_decide met); [done|].
    cbn [fs trace]. by rewrite Hp, Hf.
Qed.

Lemma update_force_linker_writes_iff_pending_witness :
  let header := writelines
      [ln "namespace clang::tidy {";
       ln "// This anchor is used to force the linker to link the AbseilModule.";
       ln "extern volatile int AbseilModuleAnchorSource;";
       ln "} // namespace clang::tidy"] in
  let header' := writelines
      ([ln "namespace clang::tidy {";
        ln "// This anchor is used to force the linker to link the AbseilModule.";
        ln "extern volatile int AbseilModuleAnchorSource;"]
       ++ link_lines_of "Perf" ++ [ln "} // namespace clang::tidy"]) in
  let files : gmap string node :=
    <["ct" := Dir]> {[ "ct/ClangTidyForceLinker.h" := File header ]} in
  files !! path_join "ct" ["ClangTidyForceLinker.h"] = Some (File header) /\
  parent_check files (path_join "ct" ["ClangTidyForceLinker.h"]) = None /\
  run (update_clang_tidy_force_linker "ct" "Perf") files
  = (Ok tt, World (<["ct/ClangTidyForceLinker.h" := File header']> files)
              [EPrint "Updating ct/ClangTidyForceLinker.h...";
               EWrite "ct/ClangTidyForceLinker.h" header']).
Proof.
  intros header header' files.
  assert (files !! path_join "ct" ["ClangTidyForceLinker.h"]
          = Some (File header)) as H1 by reflexivity.
  assert (parent_check files (path_join "ct" ["ClangTidyForceLinker.h"]) = None)
    as H2 by reflexivity.
  split; [exact H1|]. split; [exact H2|].
  exact (proj2 (proj2 (update_force_linker_writes_iff_pending "ct" "Perf" files
                         header H1 H2))).
Defined.

(** * The merges on files without their lists *)

Lemma seek_prefix_none p ls :
  Forall (fun l => startswith l p = false) ls -> seek_prefix p ls = length ls.
Proof.
  intros H. pose proof (seek_prefix_app p ls [] H) as E.
  rewrite app_nil_r in E. rewrite E. simpl. lia.
Qed.

Lemma seek_past_checks_none ls :
  existsb (fun l => startswith l "set(ALL_CLANG_TIDY_CHECKS") ls = false ->
  seek_past_checks ls = length ls.
Proof.
  induction ls as [|l r IH]; [done|]. cbn [existsb seek_past_checks length].
  intros [Hl Hr]%orb_false_elim. by rewrite Hl, IH.
Qed.

(** X7: a file without any line that starts the list gets the candidates at
    its end: without an [add_subdirectory(] line both lines of the CMake
    merge are appended, in this order; without an anchor comment the five
    link lines are appended.  This is so for the empty file. *)
Theorem candidates_appended_without_list (module module_camel : string)
    (lines : list string) :
  (Forall (fun l => startswith l "add_subdirectory(" = false) lines ->
   cmake_linesout module module_camel lines
   = lines ++ [add_subdirectory_line_of module;
               clang_library_line_of module_camel]) /\
  (Forall (fun l => startswith l anchor_comment = false) lines ->
   force_linker_linesout module_camel lines
   = lines ++ link_lines_of module_camel).
Proof.
  split; intros H%seek_prefix_none.
  - unfold cmake_linesout. rewrite H.
    rewrite drop_all. simp scan_subdirectories. cbn zeta.
    rewrite !Nat.add_0_r, drop_all. cbn [seek_past_checks].
    rewrite !Nat.add_0_r, drop_all. cbn [scan_libraries].
    rewrite !Nat.add_0_r, drop_all. unfold slice.
    rewrite !Nat.sub_diag, drop_0, Nat.sub_0_r, take_0, firstn_all.
    fold (add_subdirectory_line_of module).
    fold (clang_library_line_of module_camel).
    rewrite add_subdirectory_line_true, clang_library_line_true.
    cbn [app]. by rewrite !app_nil_r, <- app_assoc.
  - unfold force_linker_linesout. rewrite H.
    rewrite drop_all. simp scan_anchors. cbn zeta.
    rewrite !Nat.add_0_r, drop_all. unfold slice.
    rewrite drop_0, Nat.sub_0_r, firstn_all. cbn [app link_lines_of].
    by rewrite app_nil_r.
Qed.

Lemma candidates_appended_without_list_witness :
  let cmake := [ln "# no list here"] in
  let header := [ln "#ifndef GUARD"; ln "#endif"] in
  Forall (fun l => startswith l "add_subdirectory(" = false) cmake /\
  Forall (fun l => startswith l anchor_comment = false) header /\
  cmake_linesout "perf" "Perf" cmake
  = [ln "# no list here"; ln "add_subdirectory(perf)"; ln "  clangTidyPerfModule"] /\
  force_linker_linesout "Perf" header
  = [ln "#ifndef GUARD"; ln "#endif"] ++ link_lines_of "Perf".
Proof.
  intros cmake header.
  assert (Forall (fun l => startswith l "add_subdirectory(" = false) cmake) as H1
    by (by repeat constructor).
  assert (Forall (fun l => startswith l anchor_comment = false) header) as H2
    by (by repeat constructor).
  split; [exact H1|]. split; [exact H2|]. split.
  - exact (proj1 (candidates_appended_without_list "perf" "Perf" cmake) H1).
  - exact (proj2 (candidates_appended_without_list "perf" "Perf" header) H2).
Defined.

(** X8: when no [set(ALL_CLANG_TIDY_CHECKS] line follows the place where
    the scan of the [add_subdirectory] list stopped, the third loop runs to
    the end of the file and the library line is appended there, whether
    the file already has it or not. *)
Theorem library_line_appended_without_marker (module module_camel : string)
    (lines : list string) :
  checks_marker_found module lines = false ->
  exists a c s,
    lines = a ++ c /\
    (s = [] \/ s = [add_subdirectory_line_of module]) /\
    cmake_linesout module module_camel lines
    = a ++ s ++ c ++ [clang_library_line_of module_camel].
Proof.
  unfold checks_marker_found. intros Hno%seek_past_checks_none.
  pose proof (subdirs_stop_le module lines) as Hle.
  rewrite length_drop in Hno.
  assert (libs_start module lines = length lines) as Hstart
    by (unfold libs_start; lia).
  assert (libs_scan module module_camel lines
          = (0, clang_library_line_of module_camel)) as Hscan
    by (unfold libs_scan; by rewrite Hstart, drop_all).
  assert (libs_stop module module_camel lines = length lines) as Hstop
    by (unfold libs_stop; rewrite Hscan, Hstart; simpl; lia).
  exists (take (subdirs_stop module lines) lines),
    (drop (subdirs_stop module lines) lines),
    (pending (snd (subdirs_scan module lines))).
  split; [by rewrite take_drop|]. split.
  - destruct (scan_subdirectories_snd_cases (add_subdirectory_line_of module)
                (drop (subdirs_start lines) lines)) as [E|E];
      unfold subdirs_scan; rewrite E; [apply pending_cases|by left].
  - rewrite cmake_linesout_shape, Hscan, Hstop, drop_all. cbn [snd].
    rewrite (pending_true _ (clang_library_line_true module_camel)).
    unfold slice. rewrite (take_ge (drop _ _)) by (rewrite length_drop; lia).
    by rewrite app_nil_r.
Qed.

Lemma library_line_appended_without_marker_witness :
  let lines := [ln "add_subdirectory(abseil)"; ln "add_subdirectory(zircon)";
                ln "  clangTidyPerfModule"] in
  checks_marker_found "perf" lines = false /\
  exists a c s,
    lines = a ++ c /\
    (s = [] \/ s = [add_subdirectory_line_of "perf"]) /\
    cmake_linesout "perf" "Perf" lines
    = a ++ s ++ c ++ [clang_library_line_of "Perf"].
Proof.
  intros lines. split; [reflexivity|].
  exact (library_line_appended_without_marker "perf" "Perf" lines eq_refl).
Defined.

(** ** Where the link lines go *)

(** X9: the link lines go into the header in one piece, at or after the
    first anchor comment of the file (no line before that place starts with
    the anchor comment), and what follows them is the end of the file, a
    line that starts with ["} // namespace"] or an anchor comment.  When
    nothing is added, the line at that place is the first link line of the
    module. *)
Theorem link_lines_insertion_point (module_camel : string) (lines : list string) :
  exists k s,
    anchors_start lines <= k <= length lines /\
    Forall (fun l => startswith l anchor_comment = false)
      (take (anchors_start lines) lines) /\
    force_linker_linesout module_camel lines = take k lines ++ s ++ drop k lines /\
    (s = link_lines_of module_camel \/
     s = [] /\ lines !! k = Some (first_line (link_lines_of module_camel))) /\
    match lines !! k with
    | None => k = length lines
    | Some l => startswith l "} // namespace" = true
                \/ startswith l anchor_comment = true
    end.
Proof.
  exists (anchors_stop module_camel lines), (snd (anchors_scan module_camel lines)).
  pose proof (anchors_stop_le module_camel lines) as Hle.
  split; [done|]. split; [apply seek_prefix_before|].
  split; [apply force_linker_linesout_shape|]. split.
  - destruct (scan_anchors_snd_cases (link_lines_of module_camel)
                (drop (anchors_start lines) lines)) as [E|E];
      fold (anchors_scan module_camel lines) in E; [by left|right].
    split; [done|]. by apply anchors_met.
  - destruct (lines !! anchors_stop module_camel lines) as [l|] eqn:El.
    + pose proof (lookup_lt_Some _ _ _ El) as Hlt.
      unfold anchors_stop, anchors_scan in El, Hlt.
      rewrite scan_anchors_fst in El, Hlt.
      destruct (gscan_stop_line "#if" "#endif"
                  (anchors_stop_line (first_line (link_lines_of module_camel)))
                  (drop (anchors_start lines) lines)) as (l' & Hl' & _ & Hstop).
      { rewrite length_drop. lia. }
      rewrite lookup_drop, El in Hl'. injection Hl' as <-.
      unfold anchors_stop_line in Hstop.
      apply orb_prop in Hstop as [?|[? _]%andb_prop]; auto.
    + apply lookup_ge_None in El. lia.
Qed.

(** ** A block that is never closed *)

Lemma skip_block_none cls ls :
  Forall (fun l => startswith l cls = false) ls -> skip_block cls ls = length ls.
Proof.
  induction 1 as [|l r Hl _ IH]; [done|]. cbn [skip_block length].
  by rewrite Hl, IH.
Qed.

Lemma gscan_unclosed opn cls stop a o body :
  Forall (fun l => startswith l opn = false /\ stop l = false) a ->
  startswith o opn = true ->
  Forall (fun l => startswith l cls = false) (o :: body) ->
  guarded_scan opn cls stop (a ++ o :: body) = length (a ++ o :: body).
Proof.
  intros Ha Ho Hb. rewrite gscan_pass_app by done.
  rewrite gscan_cons, Ho, (skip_block_none _ _ Hb), drop_all, gscan_nil.
  rewrite length_app. lia.
Qed.

(** X22: a block that opens in the list and is never closed takes the scan
    to the end of the file: when the lines from the start of the list on
    are lines the scan passes and then an [if(] line with no [endif()]
    line after it, both candidates of the CMake merge are appended to the
    file; in the header, after a [#if] line with no [#endif] line after it,
    the link lines are appended to the file. *)
Theorem candidates_appended_after_unclosed_block (module module_camel : string)
    (lines a body : list string) (o : string) :
  (drop (subdirs_start lines) lines = a ++ o :: body ->
   Forall (fun l => startswith l "if(" = false /\
             subdirs_stop_line (add_subdirectory_line_of module) l = false) a ->
   startswith o "if(" = true ->
   Forall (fun l => startswith l "endif()" = false) body ->
   cmake_linesout module module_camel lines
   = lines ++ [add_subdirectory_line_of module;
               clang_library_line_of module_camel]) /\
  (drop (anchors_start lines) lines = a ++ o :: body ->
   Forall (fun l => startswith l "#if" = false /\
             anchors_stop_line (first_line (link_lines_of module_camel)) l
             = false) a ->
   startswith o "#if" = true ->
   Forall (fun l => startswith l "#endif" = false) body ->
   force_linker_linesout module_camel lines
   = lines ++ link_lines_of module_camel).
Proof.
  split; intros Hrest Ha Ho Hbody.
  - pose proof (subdirs_start_le lines) as Hle.
    assert (fst (subdirs_scan module lines)
            = length (drop (subdirs_start lines) lines)) as Hfst.
    { unfold subdirs_scan. rewrite scan_subdirectories_fst, Hrest.
      apply gscan_unclosed; [done|done|].
      constructor; [by apply if_not_endif|done]. }
    assert (snd (subdirs_scan module lines) = add_subdirectory_line_of module)
      as Hsnd.
    { unfold subdirs_scan in *. rewrite scan_subdirectories_snd, Hfst.
      by rewrite lookup_ge_None_2. }
    assert (subdirs_stop module lines = length lines) as Hstop.
    { unfold subdirs_stop. rewrite Hfst, length_drop. lia. }
    assert (libs_start module lines = length lines) as Hstart.
    { unfold libs_start. by rewrite Hstop, drop_all, Nat.add_0_r. }
    assert (libs_scan module module_camel lines
            = (0, clang_library_line_of module_camel)) as Hscan
      by (unfold libs_scan; by rewrite Hstart, drop_all).
    assert (libs_stop module module_camel lines = length lines) as Hstop'
      by (unfold libs_stop; rewrite Hscan, Hstart; simpl; lia).
    rewrite cmake_linesout_shape, Hsnd, Hscan, Hstop, Hstop'. cbn [snd].
    rewrite (pending_true _ (add_subdirectory_line_true module)).
    rewrite (pending_true _ (clang_library_line_true module_camel)).
    unfold slice. rewrite Nat.sub_diag, take_0, drop_all, firstn_all.
    by rewrite app_nil_r.
  - pose proof (seek_prefix_le anchor_comment lines) as Hle.
    fold (anchors_start lines) in Hle.
    assert (fst (anchors_scan module_camel lines)
            = length (drop (anchors_start lines) lines)) as Hfst.
    { unfold anchors_scan. rewrite scan_anchors_fst, Hrest.
      apply gscan_unclosed; [done|done|].
      constructor; [by apply hash_if_not_endif|done]. }
    assert (snd (anchors_scan module_camel lines) = link_lines_of module_camel)
      as Hsnd.
    { unfold anchors_scan in *. rewrite scan_anchors_snd, Hfst.
      by rewrite lookup_ge_None_2. }
    assert (anchors_stop module_camel lines = length lines) as Hstop.
    { unfold anchors_stop. rewrite Hfst, length_drop. lia. }
    rewrite force_linker_linesout_shape, Hsnd, Hstop.
    by rewrite drop_all, firstn_all, app_nil_r.
Qed.

Lemma candidates_appended_after_unclosed_block_witness :
  let cmake := [ln "add_subdirectory(abseil)";
                ln "if(CLANG_TIDY_ENABLE_STATIC_ANALYZER)";
                ln "  add_subdirectory(mpi)";
                ln "set(ALL_CLANG_TIDY_CHECKS"; ln "  )"] in
  drop (subdirs_start cmake) cmake
  = [ln "add_subdirectory(abseil)"]
    ++ ln "if(CLANG_TIDY_ENABLE_STATIC_ANALYZER)"
    :: [ln "  add_subdirectory(mpi)"; ln "set(ALL_CLANG_TIDY_CHECKS"; ln "  )"] /\
  Forall (fun l => startswith l "if(" = false /\
            subdirs_stop_line (add_subdirectory_line_of "perf") l = false)
    [ln "add_subdirectory(abseil)"] /\
  startswith (ln "if(CLANG_TIDY_ENABLE_STATIC_ANALYZER)") "if(" = true /\
  Forall (fun l => startswith l "endif()" = false)
    [ln "  add_subdirectory(mpi)"; ln "set(ALL_CLANG_TIDY_CHECKS"; ln "  )"] /\
  cmake_linesout "perf" "Perf" cmake
  = cmake ++ [ln "add_subdirectory(perf)"; ln "  clangTidyPerfModule"].
Proof.
  intros cmake.
  assert (Forall (fun l => startswith l "if(" = false /\
            subdirs_stop_line (add_subdirectory_line_of "perf") l = false)
            [ln "add_subdirectory(abseil)"]) as H2
    by (by repeat constructor).
  assert (Forall (fun l => startswith l "endif()" = false)
            [ln "  add_subdirectory(mpi)"; ln "set(ALL_CLANG_TIDY_CHECKS";
             ln "  )"]) as H4
    by (by repeat constructor).
  split; [reflexivity|]. split; [exact H2|]. split; [reflexivity|].
  split; [exact H4|].
  exact (proj1 (candidates_appended_after_unclosed_block "perf" "Perf" cmake
                  [ln "add_subdirectory(abseil)"]
                  [ln "  add_subdirectory(mpi)"; ln "set(ALL_CLANG_TIDY_CHECKS";
                   ln "  )"]
                  (ln "if(CLANG_TIDY_ENABLE_STATIC_ANALYZER)"))
           eq_refl H2 eq_refl H4).
Defined.

(** * Sorted lists stay sorted *)

Lemma ascending_cons a b r :
  ascending (a :: b :: r) = negb (str_ge a b) && ascending (b :: r).
Proof. done. Qed.

Lemma ascending_tail a r : ascending (a :: r) = true -> ascending r = true.
Proof. destruct r; [done|]. rewrite ascending_cons. by intros [_ ?]%andb_prop. Qed.

(** A line that is greater than or equal to another one and not equal to
    it is not smaller than or equal to it. *)
Lemma str_ge_strict a b : str_ge a b = true -> a <> b -> str_ge b a = false.
Proof.
  unfold str_ge. intros Hba Hne.
  destruct (String.leb a b) eqn:Hab; [|done].
  by destruct Hne; apply String.leb_antisym.
Qed.

Lemma ascending_insert line region :
  ascending region = true -> ascending (insert_unless_met line region) = true.
Proof.
  induction region as [|l r IH]; [done|]. intros Hasc.
  cbn [insert_unless_met].
  destruct (String.eqb_spec l line) as [->|Hne]; [done|].
  destruct (str_ge l line) eqn:Hge.
  - by rewrite ascending_cons, (str_ge_strict _ _ Hge Hne).
  - specialize (IH (ascending_tail _ _ Hasc)).
    destruct r as [|l2 r2]; [by cbn; rewrite Hge|].
    rewrite ascending_cons in Hasc. apply andb_prop in Hasc as [Hl _].
    cbn [insert_unless_met] in *.
    destruct (String.eqb l2 line); [by rewrite ascending_cons, Hl|].
    destruct (str_ge l2 line).
    + by rewrite ascending_cons, Hge.
    + by rewrite ascending_cons, Hl.
Qed.

Lemma insert_unless_met_in line region : line ∈ insert_unless_met line region.
Proof.
  induction region as [|l r IH]; [apply list_elem_of_here|].
  cbn [insert_unless_met].
  destruct (String.eqb_spec l line) as [->|_]; [apply list_elem_of_here|].
  destruct (str_ge l line); [apply list_elem_of_here|].
  by apply list_elem_of_further.
Qed.

Lemma insert_unless_met_incl line region x :
  x ∈ region -> x ∈ insert_unless_met line region.
Proof.
  induction region as [|l r IH]; [by intros ?%elem_of_nil|].
  cbn [insert_unless_met].
  destruct (String.eqb l line); [done|].
  destruct (str_ge l line); [by apply list_elem_of_further|].
  rewrite !elem_of_cons. intros [?|?]; auto.
Qed.

(** X10: on a CMake file whose two lists are sorted (every line strictly
    smaller than the next one, no [if(] block in the list of directories)
    the merge leaves both lists sorted, with the line of the module in
    each of them and every line they had. *)
Theorem sorted_lists_stay_sorted (module module_camel : string)
    (pre region libs tail : list string) (mk close : string) :
  Forall (fun l => startswith l "add_subdirectory(" = false) pre ->
  startswith (hd EmptyString region) "add_subdirectory(" = true ->
  Forall (fun l => startswith l "if(" = false /\
            startswith l "set(ALL_CLANG_TIDY_CHECKS" = false) region ->
  startswith mk "set(ALL_CLANG_TIDY_CHECKS" = true ->
  Forall (fun l => str_in ")" l = false) libs ->
  str_in ")" close = true ->
  ascending region = true ->
  ascending libs = true ->
  exists region' libs',
    cmake_linesout module module_camel
      (pre ++ region ++ mk :: libs ++ close :: tail)
    = pre ++ region' ++ mk :: libs' ++ close :: tail /\
    ascending region' = true /\
    ascending libs' = true /\
    add_subdirectory_line_of module ∈ region' /\
    clang_library_line_of module_camel ∈ libs' /\
    (forall x, x ∈ region -> x ∈ region') /\
    (forall x, x ∈ libs -> x ∈ libs').
Proof.
  intros Hpre Hhd Hregion Hmk Hlibs Hclose Hs1 Hs2.
  exists (insert_unless_met (add_subdirectory_line_of module) region),
    (insert_unless_met (clang_library_line_of module_camel) libs).
  split.
  - rewrite (cmake_linesout_region _ _ _ _ _ _ Hpre Hhd Hregion Hmk).
    by rewrite (libs_merge_region _ _ _ _ Hlibs Hclose).
  - repeat split;
      auto using ascending_insert, insert_unless_met_in, insert_unless_met_incl.
Qed.

Lemma sorted_lists_stay_sorted_witness :
  let pre := [ln "# Checks."] in
  let region := [ln "add_subdirectory(abseil)"; ln "add_subdirectory(boost)";
                 ln "add_subdirectory(zircon)"] in
  let mk := ln "set(ALL_CLANG_TIDY_CHECKS" in
  let libs := [ln "  clangTidyAbseilModule"; ln "  clangTidyBoostModule";
               ln "  clangTidyZirconModule"] in
  let close := ln "  )" in
  Forall (fun l => startswith l "add_subdirectory(" = false) pre /\
  startswith (hd EmptyString region) "add_subdirectory(" = true /\
  Forall (fun l => startswith l "if(" = false /\
            startswith l "set(ALL_CLANG_TIDY_CHECKS" = false) region /\
  startswith mk "set(ALL_CLANG_TIDY_CHECKS" = true /\
  Forall (fun l => str_in ")" l = false) libs /\
  str_in ")" close = true /\
  ascending region = true /\
  ascending libs = true /\
  exists region' libs',
    cmake_linesout "perf" "Perf" (pre ++ region ++ mk :: libs ++ close :: [])
    = pre ++ region' ++ mk :: libs' ++ close :: [] /\
    ascending region' = true /\
    ascending libs' = true /\
    add_subdirectory_line_of "perf" ∈ region' /\
    clang_library_line_of "Perf" ∈ libs' /\
    (forall x, x ∈ region -> x ∈ region') /\
    (forall x, x ∈ libs -> x ∈ libs').
Proof.
  intros pre region mk libs close.
  assert (Forall (fun l => startswith l "add_subdirectory(" = false) pre) as H1
    by (by repeat constructor).
  assert (Forall (fun l => startswith l "if(" = false /\
            startswith l "set(ALL_CLANG_TIDY_CHECKS" = false) region) as H3
    by (by repeat constructor).
  assert (Forall (fun l => str_in ")" l = false) libs) as H5
    by (by repeat constructor).
  split; [exact H1|]. split; [reflexivity|]. split; [exact H3|].
  split; [reflexivity|]. split; [exact H5|]. split; [reflexivity|].
  split; [reflexivity|]. split; [reflexivity|].
  exact (sorted_lists_stay_sorted "perf" "Perf" pre region libs [] mk close
           H1 eq_refl H3 eq_refl H5 eq_refl eq_refl eq_refl).
Defined.

(** * The text of the two shared files *)

Lemma writelines_app a b : writelines (a ++ b) = writelines a +:+ writelines b.
Proof.
  induction a as [|x a IH]; [done|].
  by rewrite <- app_comm_cons, !writelines_cons, IH, append_assoc.
Qed.

Lemma writelines_splitlines s : writelines (splitlines s) = s.
Proof.
  induction s as [|c r IH]; [done|]. cbn [splitlines].
  destruct (Ascii.eqb c lf).
  - by rewrite writelines_cons, IH.
  - destruct (splitlines r) as [|l ls].
    + by rewrite <- IH.
    + by rewrite writelines_cons, append_cons, <- writelines_cons, IH.
Qed.

(** X11: the lines of a file, written back one after the other, are the
    text of the file with every line end turned into a newline, and
    nothing else changed. *)
Theorem lines_written_back (content : string) :
  writelines (readlines content) = universal_newlines content /\
  no_char cr (writelines (readlines content)) = true.
Proof.
  unfold readlines. rewrite writelines_splitlines.
  split; [done|apply universal_newlines_no_cr].
Qed.

Lemma pending_text line :
  writelines (pending line) = EmptyString \/ writelines (pending line) = line.
Proof.
  destruct (pending_cases line) as [->| ->]; [by left|right].
  by rewrite writelines_cons, append_nil_r.
Qed.

(** X12: what a merge writes is the text it read (line ends turned into
    newlines) with the lines of the module put in: the text before, between
    and after the places of insertion is kept character by character. *)
Theorem merges_keep_the_text (module module_camel content : string) :
  (exists a b c s l,
      universal_newlines content = a +:+ b +:+ c /\
      writelines (cmake_linesout module module_camel (readlines content))
      = a +:+ s +:+ b +:+ l +:+ c /\
      (s = EmptyString \/ s = add_subdirectory_line_of module) /\
      (l = EmptyString \/ l = clang_library_line_of module_camel)) /\
  (exists a c s,
      universal_newlines content = a +:+ c /\
      writelines (force_linker_linesout module_camel (readlines content))
      = a +:+ s +:+ c /\
      (s = EmptyString \/ s = writelines (link_lines_of module_camel))).
Proof.
  destruct (linesout_kept module module_camel (readlines content))
    as [(a & b & c & s & l & Hl & Ho & Hs & Hll) (a' & c' & s' & Hl' & Ho' & Hs')].
  assert (writelines (readlines content) = universal_newlines content)
    as Htext by apply writelines_splitlines.
  split.
  - exists (writelines a), (writelines b), (writelines c),
      (writelines s), (writelines l).
    split; [by rewrite <- Htext, Hl, !writelines_app|].
    split; [by rewrite Ho, !writelines_app|].
    split.
    + destruct Hs as [->| ->]; [by left|right].
      by rewrite writelines_cons, append_nil_r.
    + destruct Hll as [->| ->]; [by left|right].
      by rewrite writelines_cons, append_nil_r.
  - exists (writelines a'), (writelines c'), (writelines s').
    split; [by rewrite <- Htext, Hl', !writelines_app|].
    split; [by rewrite Ho', !writelines_app|].
    destruct Hs' as [->| ->]; [by left|by right].
Qed.

(** ** Reading back what a merge wrote *)

Lemma read_back_written (p : string) (files : gmap string node)
    (lines : list string) (tr : list event) :
  Forall line_ok lines ->
  fst (read_lines p (World (<[p := File (writelines lines)]> files) tr))
  = Ok lines.
Proof.
  intros H. unfold read_lines. cbn [fs]. rewrite lookup_insert_eq.
  cbn [fst]. by rewrite readlines_writelines.
Qed.

(** X13: after a merge that ended well, reading the file again gives
    exactly the lines [linesout] of that merge, provided the file ended
    with a newline and the names are alphanumeric: the next run starts from
    the lines this run made. *)
Theorem merged_lines_read_back (clang_tidy_path module module_camel : string)
    (files : gmap string node) (content : string) (w : world) :
  str_forall is_alnum module = true ->
  str_forall is_alnum module_camel = true ->
  all_terminated (readlines content) = true ->
  (files !! path_join clang_tidy_path ["CMakeLists.txt"] = Some (File content) ->
   run (update_clang_tidy_cmake clang_tidy_path module module_camel) files
   = (Ok tt, w) ->
   fst (read_lines (path_join clang_tidy_path ["CMakeLists.txt"]) w)
   = Ok (cmake_linesout module module_camel (readlines content))) /\
  (files !! path_join clang_tidy_path ["ClangTidyForceLinker.h"]
   = Some (File content) ->
   run (update_clang_tidy_force_linker clang_tidy_path module_camel) files
   = (Ok tt, w) ->
   fst (read_lines (path_join clang_tidy_path ["ClangTidyForceLinker.h"]) w)
   = Ok (force_linker_linesout module_camel (readlines content))).
Proof.
  intros Hm Hc Hterm. pose proof (readlines_line_ok _ Hterm) as Hok.
  split; intros Hf.
  - unfold run, update_clang_tidy_cmake, bind, read_lines at 1, print, emit,
      write_file.
    cbn [fs trace]. rewrite Hf.
    destruct (bool_decide_reflect
                (readlines content
                 = cmake_linesout module module_camel (readlines content)))
      as [E|_].
    + intros [= <-]. unfold read_lines. cbn [fs]. rewrite Hf. cbn [fst].
      by rewrite <- E.
    + cbn [fs trace]. destruct (parent_check files _); [done|]. rewrite Hf.
      intros [= <-]. apply read_back_written.
      by apply cmake_linesout_line_ok.
  - unfold run, update_clang_tidy_force_linker, bind, read_lines at 1, print,
      emit, write_file.
    cbn [fs trace]. rewrite Hf.
    destruct (bool_decide_reflect
                (readlines content
                 = force_linker_linesout module_camel (readlines content)))
      as [E|_].
    + intros [= <-]. unfold read_lines. cbn [fs]. rewrite Hf. cbn [fst].
      by rewrite <- E.
    + cbn [fs trace]. destruct (parent_check files _); [done|]. rewrite Hf.
      intros [= <-]. apply read_back_written.
      by apply force_linker_linesout_line_ok.
Qed.

Lemma merged_lines_read_back_witness :
  let cmake := writelines
      [ln "add_subdirectory(abseil)"; ln "set(ALL_CLANG_TIDY_CHECKS";
       ln "  clangTidyAbseilModule"; ln "  )"] in
  let files : gmap string node :=
    <["ct" := Dir]> {[ "ct/CMakeLists.txt" := File cmake ]} in
  let w := snd (run (update_clang_tidy_cmake "ct" "perf" "Perf") files) in
  str_forall is_alnum "perf" = true /\
  str_forall is_alnum "Perf" = true /\
  all_terminated (readlines cmake) = true /\
  files !! path_join "ct" ["CMakeLists.txt"] = Some (File cmake) /\
  run (update_clang_tidy_cmake "ct" "perf" "Perf") files = (Ok tt, w) /\
  fst (read_lines (path_join "ct" ["CMakeLists.txt"]) w)
  = Ok (cmake_linesout "perf" "Perf" (readlines cmake)).
Proof.
  intros cmake files w.
  split; [reflexivity|]. split; [reflexivity|]. split; [reflexivity|].
  split; [reflexivity|]. split; [reflexivity|].
  exact (proj1 (merged_lines_read_back "ct" "perf" "Perf" files cmake w
                  eq_refl eq_refl eq_refl) eq_refl eq_refl).
Defined.

(** * Runs of the steps of [main], case by case *)

#[local] Arguments path_join : simpl never.
#[local] Arguments cmake_template : simpl never.
#[local] Arguments module_cpp_template : simpl never.
#[local] Arguments basename : simpl never.
#[local] Arguments str_repeat : simpl never.
#[local] Arguments writelines : simpl never.
#[local] Arguments readlines : simpl never.

Lemma dir_step_run found creating p m :
  run (act (dir_step found creating p)) m
  = match m !! p with
    | Some _ => (Ok tt, World m [EPrint found])
    | None =>
        match parent_check m p with
        | Some e => (Raise e, World m [EPrint creating])
        | None => (Ok tt, World (<[p := Dir]> m) [EPrint creating; EMkdir p])
        end
    end.
Proof.
  cbn [act dir_step]. unfold run, bind, path_exists, mkdir, print, emit.
  cbn [fs trace].
  destruct (m !! p) eqn:E.
  - by rewrite bool_decide_eq_true_2.
  - rewrite bool_decide_eq_false_2 by (by intros [? ?]).
    cbn [fs trace app]. rewrite E. by destruct (parent_check m p).
Qed.

Lemma write_cmake_run module_path module_camel m :
  let p := path_join module_path ["CMakeLists.txt"] in
  let data := cmake_template ("clangTidy" +:+ module_camel +:+ "Module")
                (module_camel +:+ "TidyModule.cpp") in
  run (write_cmake module_path module_camel) m
  = match m !! p with
    | Some _ => (Ok tt, World m [])
    | None =>
        match parent_check m p with
        | Some e => (Raise e, World m [EPrint ("Creating " +:+ p +:+ "...")])
        | None => (Ok tt, World (<[p := File data]> m)
                            [EPrint ("Creating " +:+ p +:+ "..."); EWrite p data])
        end
    end.
Proof.
  intros p data.
  unfold run, write_cmake, bind, path_exists, write_file, print, emit.
  cbn [fs trace]. fold p. fold data.
  destruct (m !! p) eqn:E.
  - by rewrite bool_decide_eq_true_2.
  - rewrite bool_decide_eq_false_2 by (by intros [? ?]).
    cbn [fs trace app]. destruct (parent_check m p); [done|]. by rewrite E.
Qed.

Lemma write_module_cpp_run module_path module module_camel namespace m :
  let p := path_join module_path [module_camel +:+ "TidyModule.cpp"] in
  let data :=
    "//===--- " +:+ basename p +:+ " - clang-tidy "
    +:+ str_repeat "-" (51 - String.length (basename p)) +:+ "-===//"
    +:+ module_cpp_template namespace (module_camel +:+ "Module") module in
  run (write_module_cpp module_path module module_camel namespace) m
  = match m !! p with
    | Some _ => (Ok tt, World m [EPrint ("File already exists: " +:+ p)])
    | None =>
        match parent_check m p with
        | Some e => (Raise e, World m [EPrint ("Creating " +:+ p +:+ "...")])
        | None => (Ok tt, World (<[p := File data]> m)
                            [EPrint ("Creating " +:+ p +:+ "..."); EWrite p data])
        end
    end.
Proof.
  intros p data.
  unfold run, write_module_cpp, bind, path_exists, write_file, print, emit.
  cbn [fs trace]. fold p. fold data.
  destruct (m !! p) eqn:E.
  - by rewrite bool_decide_eq_true_2.
  - rewrite bool_decide_eq_false_2 by (by intros [? ?]).
    cbn [fs trace app]. destruct (parent_check m p); [done|]. by rewrite E.
Qed.

Lemma update_cmake_run clang_tidy_path module module_camel m :
  let p := path_join clang_tidy_path ["CMakeLists.txt"] in
  run (update_clang_tidy_cmake clang_tidy_path module module_camel) m
  = match m !! p with
    | None => (Raise (FileNotFoundError p), World m [])
    | Some Dir => (Raise (IsADirectoryError p), World m [])
    | Some (File c) =>
        let out := cmake_linesout module module_camel (readlines c) in
        if bool_decide (readlines c = out) then
          (Ok tt, World m [EPrint ("Module already included: " +:+ p)])
        else
          match parent_check m p with
          | Some e => (Raise e, World m [EPrint ("Updating " +:+ p +:+ "...")])
          | None => (Ok tt, World (<[p := File (writelines out)]> m)
                              [EPrint ("Updating " +:+ p +:+ "...");
                               EWrite p (writelines out)])
          end
    end.
Proof.
  intros p.
  unfold run, update_clang_tidy_cmake, bind, read_lines, write_file, print, emit.
  cbn [fs trace]. fold p.
  destruct (m !! p) as [[|c]|] eqn:E; [done| |done]. cbn zeta.
  destruct (bool_decide _); [done|].
  cbn [fs trace app]. destruct (parent_check m p); [done|]. by rewrite E.
Qed.

Lemma update_force_linker_run clang_tidy_path module_camel m :
  let p := path_join clang_tidy_path ["ClangTidyForceLinker.h"] in
  run (update_clang_tidy_force_linker clang_tidy_path module_camel) m
  = match m !! p with
    | None => (Raise (FileNotFoundError p), World m [])
    | Some Dir => (Raise (IsADirectoryError p), World m [])
    | Some (File c) =>
        let out := force_linker_linesout module_camel (readlines c) in
        if bool_decide (readlines c = out) then
          (Ok tt, World m [EPrint ("Module already has forced link: " +:+ p)])
        else
          match parent_check m p with
          | Some e => (Raise e, World m [EPrint ("Updating " +:+ p +:+ "...")])
          | None => (Ok tt, World (<[p := File (writelines out)]> m)
                              [EPrint ("Updating " +:+ p +:+ "...");
                               EWrite p (writelines out)])
          end
    end.
Proof.
  intros p.
  unfold run, update_clang_tidy_force_linker, bind, read_lines, write_file,
    print, emit.
  cbn [fs trace]. fold p.
  destruct (m !! p) as [[|c]|] eqn:E; [done| |done]. cbn zeta.
  destruct (bool_decide _); [done|].
  cbn [fs trace app]. destruct (parent_check m p); [done|]. by rewrite E.
Qed.

(** * The two template writers *)

(** X14: the template writers add at most the one file they are for and
    never touch a node that is there: whatever the tree, every path that
    holds a node, and every path other than the one of the file, holds
    after the run what it held before. *)
Theorem template_writers_never_overwrite
    (module_path module module_camel namespace : string)
    (files : gmap string node) :
  let cmake := path_join module_path ["CMakeLists.txt"] in
  let cpp := path_join module_path [module_camel +:+ "TidyModule.cpp"] in
  let after_cmake := fs (snd (run (write_cmake module_path module_camel) files)) in
  let after_cpp :=
    fs (snd (run (write_module_cpp module_path module module_camel namespace)
               files)) in
  (forall p, is_Some (files !! p) \/ p <> cmake ->
             after_cmake !! p = files !! p) /\
  (forall p, is_Some (files !! p) \/ p <> cpp ->
             after_cpp !! p = files !! p).
Proof.
  intros cmake cpp after_cmake after_cpp. split; intros p Hp.
  - unfold after_cmake. rewrite write_cmake_run. fold cmake.
    destruct (files !! cmake) eqn:E; [done|].
    destruct (parent_check files cmake); [done|]. cbn [snd fs].
    apply lookup_insert_ne. intros <-. rewrite E in Hp.
    by destruct Hp as [[? ?]|?].
  - unfold after_cpp. rewrite write_module_cpp_run. fold cpp.
    destruct (files !! cpp) eqn:E; [done|].
    destruct (parent_check files cpp); [done|]. cbn [snd fs].
    apply lookup_insert_ne. intros <-. rewrite E in Hp.
    by destruct Hp as [[? ?]|?].
Qed.

(** ** The first line of the module file *)

Lemma basename_cons c r :
  basename (String c r)
  = if str_in "/" r then basename r
    else if Ascii.eqb c "/" then r else String c r.
Proof. reflexivity. Qed.

Lemma basename_no_slash f : no_char "/" f = true -> basename f = f.
Proof.
  destruct f as [|c r]; [done|]. cbn [no_char str_forall].
  intros [Hc Hr]%andb_prop. change (str_forall _ r) with (no_char "/" r) in Hr.
  rewrite basename_cons, str_in_char, Hr. cbn [negb].
  apply negb_true_iff in Hc. by rewrite Hc.
Qed.

Lemma basename_app p f :
  p = EmptyString \/ endswith p "/" = true ->
  no_char "/" f = true ->
  basename (p +:+ f) = f.
Proof.
  intros Hp Hf. induction p as [|c p IH].
  - by apply basename_no_slash.
  - destruct Hp as [?|Hp]; [done|]. rewrite append_cons, basename_cons.
    cbn [endswith] in Hp. apply orb_prop in Hp as [Hp|Hp].
    + cbn [String.eqb] in Hp. destruct (Ascii.eqb_spec c "/") as [->|]; [|done].
      destruct p; [|done].
      change (EmptyString +:+ f) with f. rewrite str_in_char, Hf.
      cbn [negb]. done.
    + assert (str_in "/" (p +:+ f) = true) as ->.
      { rewrite str_in_char, no_char_app.
        destruct (no_char "/" p) eqn:Hn; [|done].
        by rewrite (endswith_slash_no_char _ Hn) in Hp. }
      apply IH. by right.
Qed.

Lemma with_sep_cases path :
  with_sep path = EmptyString \/ endswith (with_sep path) "/" = true.
Proof.
  unfold with_sep. destruct path as [|c r]; [by left|right].
  cbn [str_true String.eqb negb orb].
  destruct (endswith (String c r) "/") eqn:E; [done|].
  by rewrite endswith_app_slash.
Qed.

Lemma basename_join path f :
  no_char "/" f = true -> basename (path_join path [f]) = f.
Proof.
  intros Hf. unfold path_join. cbn [fold_left].
  rewrite join2_with_sep by (by apply startswith_slash).
  apply basename_app; [apply with_sep_cases|done].
Qed.

Lemma length_str_repeat n : String.length (str_repeat "-" n) = n.
Proof.
  induction n as [|n IH]; [done|].
  change (str_repeat "-" (S n)) with ("-" +:+ str_repeat "-" n).
  by rewrite length_app_str, IH.
Qed.

Lemma no_char_str_repeat c n :
  c <> "-"%char -> no_char c (str_repeat "-" n) = true.
Proof.
  intros Hc. induction n as [|n IH]; [done|].
  change (str_repeat "-" (S n)) with ("-" +:+ str_repeat "-" n).
  rewrite no_char_app, IH, andb_true_r. cbn [no_char str_forall].
  rewrite andb_true_r. apply negb_true_iff, Ascii.eqb_neq. congruence.
Qed.

(** X15: the first line of a module file that is created names the file
    without its directory and is filled with dashes to 80 columns; the
    name of the module takes what it needs when its camel-case form has
    more than 37 characters, and the line is longer then. *)
Theorem module_cpp_first_line (module_path module module_camel namespace : string)
    (files : gmap string node) :
  let filename := path_join module_path [module_camel +:+ "TidyModule.cpp"] in
  let first :=
    "//===--- " +:+ module_camel +:+ "TidyModule.cpp - clang-tidy "
    +:+ str_repeat "-" (37 - String.length module_camel) +:+ "-===//" in
  str_forall is_alnum module_camel = true ->
  files !! filename = None ->
  parent_check files filename = None ->
  (exists rest,
      fs (snd (run (write_module_cpp module_path module module_camel namespace)
                 files)) !! filename
      = Some (File (first +:+ nl +:+ rest))) /\
  no_char lf first = true /\
  String.length first = Nat.max 80 (43 + String.length module_camel).
Proof.
  intros filename first Hal Hnone Hparent.
  assert (no_char "/" (module_camel +:+ "TidyModule.cpp") = true) as Hns.
  { rewrite no_char_app, (alnum_no_char "/" _ eq_refl Hal). done. }
  split; [|split].
  - rewrite write_module_cpp_run. fold filename. rewrite Hnone, Hparent.
    cbn [snd fs]. rewrite lookup_insert_eq.
    unfold filename. rewrite (basename_join _ _ Hns).
    unfold module_cpp_template, unlines. rewrite map_cons, concat_nil_cons.
    eexists. do 2 f_equal. unfold first.
    rewrite length_app_str.
    replace (51 - (String.length module_camel + String.length "TidyModule.cpp"))
      with (37 - String.length module_camel) by (cbn; lia).
    rewrite !append_assoc. reflexivity.
  - unfold first. rewrite !no_char_app, (alnum_no_char lf _ eq_refl Hal).
    by rewrite no_char_str_repeat.
  - unfold first. rewrite !length_app_str, length_str_repeat. cbn. lia.
Qed.

Lemma module_cpp_first_line_witness :
  let files : gmap string node := {[ "ct/perf" := Dir ]} in
  let filename := path_join "ct/perf" ["Perf" +:+ "TidyModule.cpp"] in
  let first :=
    "//===--- PerfTidyModule.cpp - clang-tidy "
    +:+ "---------------------------------" +:+ "-===//" in
  str_forall is_alnum "Perf" = true /\
  files !! filename = None /\
  parent_check files filename = None /\
  (exists rest,
      fs (snd (run (write_module_cpp "ct/perf" "perf" "Perf" "perf") files))
        !! filename
      = Some (File (first +:+ nl +:+ rest))) /\
  no_char lf first = true /\
  String.length first = 80.
Proof.
  intros files filename first.
  split; [reflexivity|]. split; [reflexivity|]. split; [reflexivity|].
  exact (module_cpp_first_line "ct/perf" "perf" "Perf" "perf" files
           eq_refl eq_refl eq_refl).
Defined.

(** * Whole runs of [main]: what is kept and what is said *)

Lemma kept_except_refl shared m : kept_except shared m m.
Proof. intros p x Hp. by left. Qed.

Lemma kept_except_trans shared m1 m2 m3 :
  kept_except shared m1 m2 -> kept_except shared m2 m3 ->
  kept_except shared m1 m3.
Proof.
  intros H12 H23 p x Hp.
  destruct (H12 p x Hp) as [H2|(Hs & d & d' & -> & H2)].
  - apply (H23 p x H2).
  - right. split; [done|].
    destruct (H23 p _ H2) as [H3|(_ & d1 & d2 & [= <-] & H3)];
      by eexists _, _.
Qed.

Lemma kept_insert_new shared m p x :
  m !! p = None -> kept_except shared m (<[p := x]> m).
Proof.
  intros Hn q y Hq. left. rewrite lookup_insert_ne; [done|]. by intros ->; congruence.
Qed.

Lemma kept_insert_shared shared m p c d :
  p ∈ shared -> m !! p = Some (File c) ->
  kept_except shared m (<[p := File d]> m).
Proof.
  intros Hs Hp q y Hq. destruct (decide (q = p)) as [->|Hne].
  - right. split; [done|]. exists c, d. rewrite lookup_insert_eq.
    split; congruence.
  - left. by rewrite lookup_insert_ne.
Qed.

(** Steps that keep the tree, one after the other. *)
Lemma steps_kept shared steps last :
  Forall step_ok steps -> appends last ->
  Forall (fun s => forall m,
            kept_except shared m (fs (snd (run (act s) m)))) steps ->
  (forall m, kept_except shared m (fs (snd (run last m)))) ->
  forall m, kept_except shared m (fs (snd (run (steps_then steps last) m))).
Proof.
  intros Hok Hlast Hkept Hl.
  induction Hok as [|s r Hs Hr IH]; [done|]. intros m.
  inversion Hkept as [|? ? Hks Hkr]; subst.
  change (steps_then (s :: r) last) with (act s >> steps_then r last).
  specialize (Hks m).
  destruct (run (act s) m) as [[[]|e] [m1 tr1]] eqn:E.
  - rewrite (run_bind_ok _ _ _ _ _ (appends_steps_then _ _ Hr Hlast) E).
    cbn [snd fs] in *. eapply kept_except_trans; [done|]. by apply IH.
  - by rewrite (run_bind_raise _ _ _ _ _ E).
Qed.

Lemma main_steps_kept argv0 name :
  Forall (fun s => forall m,
            kept_except (shared_files argv0) m (fs (snd (run (act s) m))))
    (main_steps argv0 name).
Proof.
  assert (forall found creating p m,
            kept_except (shared_files argv0) m
              (fs (snd (run (act (dir_step found creating p)) m)))) as Hdir.
  { intros found creating p m. rewrite dir_step_run.
    destruct (m !! p) eqn:E; [apply kept_except_refl|].
    destruct (parent_check m p); [apply kept_except_refl|].
    by apply kept_insert_new. }
  unfold main_steps.
  constructor; [apply Hdir|].
  constructor.
  { intros m. cbn [act write_cmake_step]. rewrite write_cmake_run.
    destruct (m !! _) eqn:E; [apply kept_except_refl|].
    destruct (parent_check m _); [apply kept_except_refl|].
    by apply kept_insert_new. }
  constructor.
  { intros m. cbn [act write_module_cpp_step]. rewrite write_module_cpp_run.
    destruct (m !! _) eqn:E; [apply kept_except_refl|].
    destruct (parent_check m _); [apply kept_except_refl|].
    by apply kept_insert_new. }
  constructor; [apply Hdir|].
  constructor; [apply Hdir|].
  constructor.
  { intros m. cbn [act update_cmake_step]. rewrite update_cmake_run.
    destruct (m !! _) as [[|c]|] eqn:E; try apply kept_except_refl.
    cbn zeta. destruct (bool_decide _); [apply kept_except_refl|].
    destruct (parent_check m _); [apply kept_except_refl|].
    eapply kept_insert_shared; [|done]. apply list_elem_of_here. }
  constructor.
  { intros m. cbn [act update_force_linker_step].
    rewrite update_force_linker_run.
    destruct (m !! _) as [[|c]|] eqn:E; try apply kept_except_refl.
    cbn zeta. destruct (bool_decide _); [apply kept_except_refl|].
    destruct (parent_check m _); [apply kept_except_refl|].
    eapply kept_insert_shared; [|done].
    apply list_elem_of_further, list_elem_of_here. }
  constructor.
Qed.

(** A run of [main] that stops at the validation of the name. *)
Lemma main_rejected argv0 args files :
  (forall name, module args = Some name -> isalnum name = false) ->
  exists msgs,
    run (main argv0 args) files = (Ok tt, World files msgs)
    /\ prints_only msgs.
Proof.
  intros Hbad. unfold main.
  destruct (module args) as [name|] eqn:Hm; cbn [module_true].
  - change (default EmptyString (Some name)) with name.
    destruct (str_true name); cbn [negb].
    + cbn zeta. rewrite (Hbad name eq_refl). cbn [negb].
      eexists. split; [done|]. by repeat constructor.
    + eexists. split; [done|]. by repeat constructor.
  - eexists. split; [done|]. by repeat constructor.
Qed.

(** X16: whatever its arguments and whatever the tree, a run of [main]
    removes nothing and overwrites nothing but the two shared files: every
    node of the tree is there afterwards as it was, except that
    [CMakeLists.txt] and [ClangTidyForceLinker.h] beside the script, when
    they are files, may have got another content.  This holds as well for
    the runs that end with an exception. *)
Theorem main_keeps_the_tree (argv0 : string) (args : Args)
    (files : gmap string node) :
  kept_except (shared_files argv0) files
    (fs (snd (run (main argv0 args) files))).
Proof.
  destruct (module args) as [name|] eqn:Hm.
  - destruct (isalnum name) eqn:Hal.
    + rewrite (main_as_steps _ _ _ Hm Hal).
      apply steps_kept;
        [by apply main_steps_ok|apply appends_emit|apply main_steps_kept|].
      intros m. apply kept_except_refl.
    + destruct (main_rejected argv0 args files) as (msgs & -> & _).
      * intros ? ?. congruence.
      * apply kept_except_refl.
  - destruct (main_rejected argv0 args files) as (msgs & -> & _).
    + intros ? ?. congruence.
    + apply kept_except_refl.
Qed.

(** ** Every change is announced *)

Lemma announced_weaken prev tr :
  announced_after None tr -> announced_after prev tr.
Proof.
  destruct tr as [|e r]; [done|]. cbn [announced_after]. intros [H1 H2].
  split; [|done]. intros Hf. by destruct (H1 Hf) as (a & ? & _).
Qed.

Lemma announced_app prev a b :
  announced_after prev a -> announced_after None b ->
  announced_after prev (a ++ b).
Proof.
  revert prev. induction a as [|e r IH]; intros prev Ha Hb.
  - by apply announced_weaken.
  - cbn [app announced_after] in *. destruct Ha as [H1 H2]. split; [done|].
    by apply IH.
Qed.

Lemma steps_announced steps last :
  Forall step_ok steps -> appends last ->
  Forall (fun s => forall m,
            mutations_announced (trace (snd (run (act s) m)))) steps ->
  (forall m, mutations_announced (trace (snd (run last m)))) ->
  forall m, mutations_announced (trace (snd (run (steps_then steps last) m))).
Proof.
  intros Hok Hlast Hann Hl.
  induction Hok as [|s r Hs Hr IH]; [done|]. intros m.
  inversion Hann as [|? ? Has Har]; subst.
  change (steps_then (s :: r) last) with (act s >> steps_then r last).
  specialize (Has m).
  destruct (run (act s) m) as [[[]|e] [m1 tr1]] eqn:E.
  - rewrite (run_bind_ok _ _ _ _ _ (appends_steps_then _ _ Hr Hlast) E).
    cbn [snd trace] in *. apply announced_app; [done|]. by apply IH.
  - by rewrite (run_bind_raise _ _ _ _ _ E).
Qed.

Lemma prints_announced msgs : prints_only msgs -> mutations_announced msgs.
Proof.
  intros H. unfold mutations_announced. generalize (@None event).
  induction H as [|e r He _ IH]; intros prev; [done|].
  cbn [announced_after]. split; [|apply IH]. intros Hf. congruence.
Qed.

Lemma main_steps_announced argv0 name :
  Forall (fun s => forall m,
            mutations_announced (trace (snd (run (act s) m))))
    (main_steps argv0 name).
Proof.
  assert (forall found p m,
            mutations_announced
              (trace (snd (run (act (dir_step found
                                      ("Creating " +:+ p +:+ "...") p)) m))))
    as Hdir.
  { intros found p m. rewrite dir_step_run.
    destruct (m !! p) eqn:E; [by apply prints_announced; repeat constructor|].
    destruct (parent_check m p);
      [by apply prints_announced; repeat constructor|].
    cbn [snd trace]. split; [done|]. split; [|done].
    intros _. by eexists. }
  unfold main_steps.
  constructor; [apply Hdir|].
  constructor.
  { intros m. cbn [act write_cmake_step]. rewrite write_cmake_run.
    destruct (m !! _) eqn:E; [by apply prints_announced; repeat constructor|].
    destruct (parent_check m _);
      [by apply prints_announced; repeat constructor|].
    cbn [snd trace]. split; [done|]. split; [|done].
    intros _. eexists. split; [done|]. by left. }
  constructor.
  { intros m. cbn [act write_module_cpp_step]. rewrite write_module_cpp_run.
    destruct (m !! _) eqn:E; [by apply prints_announced; repeat constructor|].
    destruct (parent_check m _);
      [by apply prints_announced; repeat constructor|].
    cbn [snd trace]. split; [done|]. split; [|done].
    intros _. eexists. split; [done|]. by left. }
  constructor; [apply Hdir|].
  constructor; [apply Hdir|].
  constructor.
  { intros m. cbn [act update_cmake_step]. rewrite update_cmake_run.
    destruct (m !! _) as [[|c]|] eqn:E;
      try (by apply prints_announced; repeat constructor).
    cbn zeta.
    destruct (bool_decide _); [by apply prints_announced; repeat constructor|].
    destruct (parent_check m _);
      [by apply prints_announced; repeat constructor|].
    cbn [snd trace]. split; [done|]. split; [|done].
    intros _. eexists. split; [done|]. by right. }
  constructor.
  { intros m. cbn [act update_force_linker_step].
    rewrite update_force_linker_run.
    destruct (m !! _) as [[|c]|] eqn:E;
      try (by apply prints_announced; repeat constructor).
    cbn zeta.
    destruct (bool_decide _); [by apply prints_announced; repeat constructor|].
    destruct (parent_check m _);
      [by apply prints_announced; repeat constructor|].
    cbn [snd trace]. split; [done|]. split; [|done].
    intros _. eexists. split; [done|]. by right. }
  constructor.
Qed.

(** X17: in every run of [main] each change of the tree comes directly
    after its message: a directory is made and a new file is written
    right after ["Creating <path>..."], a shared file is rewritten right
    after ["Updating <path>..."].  Nothing is changed without a message,
    also in the runs that end with an exception. *)
Theorem main_announces_every_change (argv0 : string) (args : Args)
    (files : gmap string node) :
  mutations_announced (trace (snd (run (main argv0 args) files))).
Proof.
  destruct (module args) as [name|] eqn:Hm.
  - destruct (isalnum name) eqn:Hal.
    + rewrite (main_as_steps _ _ _ Hm Hal).
      apply steps_announced;
        [by apply main_steps_ok|apply appends_emit|apply main_steps_announced|].
      intros m. by apply prints_announced; repeat constructor.
    + destruct (main_rejected argv0 args files) as (msgs & -> & Hp).
      * intros ? ?. congruence.
      * by apply prints_announced.
  - destruct (main_rejected argv0 args files) as (msgs & -> & Hp).
    + intros ? ?. congruence.
    + by apply prints_announced.
Qed.

(** * Runs of [main] that end well *)

#[local] Arguments path_join : simpl never.
#[local] Arguments writelines : simpl never.
#[local] Arguments readlines : simpl never.

Lemma insert_is_Some (m : gmap string node) p x q :
  is_Some (m !! q) -> is_Some (<[p := x]> m !! q).
Proof.
  intros Hq. destruct (decide (q = p)) as [->|Hne].
  - by rewrite lookup_insert_eq.
  - by rewrite lookup_insert_ne.
Qed.

(** The run of the first step, when the whole run ends well. *)
Lemma steps_then_cons_inv s r last m w :
  Forall step_ok r -> appends last ->
  run (steps_then (s :: r) last) m = (Ok tt, w) ->
  exists m1 tr1 tr2,
    run (act s) m = (Ok tt, World m1 tr1) /\
    run (steps_then r last) m1 = (Ok tt, World (fs w) tr2) /\
    trace w = tr1 ++ tr2.
Proof.
  intros Hr Hlast.
  change (steps_then (s :: r) last) with (act s >> steps_then r last).
  destruct (run (act s) m) as [[[]|e] [m1 tr1]] eqn:E.
  - rewrite (run_bind_ok _ _ _ _ _ (appends_steps_then _ _ Hr Hlast) E).
    destruct (run (steps_then r last) m1) as [r2 [m2 tr2]] eqn:E2.
    cbn [fst snd fs trace]. intros [= -> <-]. by exists m1, tr1, tr2.
  - by rewrite (run_bind_raise _ _ _ _ _ E).
Qed.

(** What a step that ended well leaves. *)
Lemma dir_step_post found creating p m m1 tr1 :
  run (act (dir_step found creating p)) m = (Ok tt, World m1 tr1) ->
  is_Some (m1 !! p) /\
  (forall q, is_Some (m !! q) -> is_Some (m1 !! q)) /\
  (forall q c, m1 !! q = Some (File c) -> m !! q = Some (File c)).
Proof.
  rewrite dir_step_run. destruct (m !! p) eqn:E.
  - intros [= <- <-]. rewrite E. eauto.
  - destruct (parent_check m p); [done|]. intros [= <- <-].
    split; [by rewrite lookup_insert_eq|]. split.
    + intros q. apply insert_is_Some.
    + intros q c. destruct (decide (q = p)) as [->|Hne].
      * by rewrite lookup_insert_eq.
      * by rewrite lookup_insert_ne.
Qed.

Lemma write_cmake_post module_path module_camel m m1 tr1 :
  let p := path_join module_path ["CMakeLists.txt"] in
  run (write_cmake module_path module_camel) m = (Ok tt, World m1 tr1) ->
  is_Some (m1 !! p) /\
  (forall q, is_Some (m !! q) -> is_Some (m1 !! q)) /\
  (forall q, q <> p -> m1 !! q = m !! q).
Proof.
  intros p. rewrite write_cmake_run. fold p. destruct (m !! p) eqn:E.
  - intros [= <- <-]. rewrite E. eauto.
  - destruct (parent_check m p); [done|]. intros [= <- <-].
    split; [by rewrite lookup_insert_eq|]. split.
    + intros q. apply insert_is_Some.
    + intros q Hne. by rewrite lookup_insert_ne.
Qed.

Lemma write_module_cpp_post module_path module module_camel namespace m m1 tr1 :
  let p := path_join module_path [module_camel +:+ "TidyModule.cpp"] in
  run (write_module_cpp module_path module module_camel namespace) m
  = (Ok tt, World m1 tr1) ->
  is_Some (m1 !! p) /\
  (forall q, is_Some (m !! q) -> is_Some (m1 !! q)) /\
  (forall q, q <> p -> m1 !! q = m !! q).
Proof.
  intros p. rewrite write_module_cpp_run. fold p. destruct (m !! p) eqn:E.
  - intros [= <- <-]. rewrite E. eauto.
  - destruct (parent_check m p); [done|]. intros [= <- <-].
    split; [by rewrite lookup_insert_eq|]. split.
    + intros q. apply insert_is_Some.
    + intros q Hne. by rewrite lookup_insert_ne.
Qed.

Lemma update_cmake_post clang_tidy_path module module_camel m m1 tr1 :
  let p := path_join clang_tidy_path ["CMakeLists.txt"] in
  str_forall is_alnum module = true ->
  str_forall is_alnum module_camel = true ->
  run (update_clang_tidy_cmake clang_tidy_path module module_camel) m
  = (Ok tt, World m1 tr1) ->
  (exists c c1,
      m !! p = Some (File c) /\ m1 !! p = Some (File c1) /\
      (all_terminated (readlines c) = true ->
       readlines c1 = cmake_linesout module module_camel (readlines c))) /\
  (forall q, is_Some (m !! q) -> is_Some (m1 !! q)) /\
  (forall q, q <> p -> m1 !! q = m !! q).
Proof.
  intros p Hm Hc. rewrite update_cmake_run. fold p.
  destruct (m !! p) as [[|c]|] eqn:E; [done| |done]. cbn zeta.
  destruct (bool_decide_reflect
              (readlines c = cmake_linesout module module_camel (readlines c)))
    as [Heq|_].
  - intros [= <- <-]. split; [|by split]. by exists c, c.
  - destruct (parent_check m p); [done|]. intros [= <- <-]. split; [|split].
    + eexists c, _. split; [done|]. split; [by rewrite lookup_insert_eq|].
      intros Hterm. apply readlines_writelines, cmake_linesout_line_ok; try done.
      by apply readlines_line_ok.
    + intros q. apply insert_is_Some.
    + intros q Hne. by rewrite lookup_insert_ne.
Qed.

Lemma update_force_linker_post clang_tidy_path module_camel m m1 tr1 :
  let p := path_join clang_tidy_path ["ClangTidyForceLinker.h"] in
  str_forall is_alnum module_camel = true ->
  run (update_clang_tidy_force_linker clang_tidy_path module_camel) m
  = (Ok tt, World m1 tr1) ->
  (exists c c1,
      m !! p = Some (File c) /\ m1 !! p = Some (File c1) /\
      (all_terminated (readlines c) = true ->
       readlines c1 = force_linker_linesout module_camel (readlines c))) /\
  (forall q, is_Some (m !! q) -> is_Some (m1 !! q)) /\
  (forall q, q <> p -> m1 !! q = m !! q).
Proof.
  intros p Hc. rewrite update_force_linker_run. fold p.
  destruct (m !! p) as [[|c]|] eqn:E; [done| |done]. cbn zeta.
  destruct (bool_decide_reflect
              (readlines c = force_linker_linesout module_camel (readlines c)))
    as [Heq|_].
  - intros [= <- <-]. split; [|by split]. by exists c, c.
  - destruct (parent_check m p); [done|]. intros [= <- <-]. split; [|split].
    + eexists c, _. split; [done|]. split; [by rewrite lookup_insert_eq|].
      intros Hterm.
      apply readlines_writelines, force_linker_linesout_line_ok; try done.
      by apply readlines_line_ok.
    + intros q. apply insert_is_Some.
    + intros q Hne. by rewrite lookup_insert_ne.
Qed.

(** A run of the steps of [main] that ends well found the two shared files
    and leaves the five paths of the module and the two merged files. *)
Lemma main_steps_ok_inv argv0 name files w :
  let ctp := dirname argv0 in
  let camel := get_camel_name name in
  let module_path := path_join ctp [name] in
  let cmake_path := path_join ctp ["CMakeLists.txt"] in
  let header_path := path_join ctp ["ClangTidyForceLinker.h"] in
  isalnum name = true ->
  run (steps_then (main_steps argv0 name) (print "Done. Now it's your turn!"))
    files = (Ok tt, w) ->
  exists c h c' h',
    files !! cmake_path = Some (File c) /\
    files !! header_path = Some (File h) /\
    fs w !! cmake_path = Some (File c') /\
    fs w !! header_path = Some (File h') /\
    (all_terminated (readlines c) = true ->
     readlines c' = cmake_linesout name camel (readlines c)) /\
    (all_terminated (readlines h) = true ->
     readlines h' = force_linker_linesout camel (readlines h)) /\
    is_Some (fs w !! module_path) /\
    is_Some (fs w !! path_join module_path ["CMakeLists.txt"]) /\
    is_Some (fs w !! path_join module_path [camel +:+ "TidyModule.cpp"]) /\
    is_Some (fs w !! path_join ctp [".."; "docs"; "clang-tidy"; "checks"; name]) /\
    is_Some (fs w !! path_join ctp [".."; "test"; "clang-tidy"; "checkers"; name]) /\
    last (trace w) = Some (EPrint "Done. Now it's your turn!").
Proof.
  intros ctp camel module_path cmake_path header_path Hname Hrun.
  pose proof (isalnum_forall _ Hname) as Hal.
  pose proof (alnum_camel _ Hname) as Hcamel. fold camel in Hcamel.
  pose proof (main_steps_ok argv0 name Hname) as Hok.
  unfold main_steps in Hrun, Hok.
  fold ctp camel module_path in Hrun, Hok.
  assert (appends (print "Done. Now it's your turn!")) as Hlast
    by apply appends_emit.
  apply Forall_cons in Hok as [_ Hok].
  apply (steps_then_cons_inv _ _ _ _ _ Hok Hlast) in Hrun
    as (m1 & tr1 & t1 & H1 & Hrun & Ht1).
  apply Forall_cons in Hok as [_ Hok].
  apply (steps_then_cons_inv _ _ _ _ _ Hok Hlast) in Hrun
    as (m2 & tr2 & t2 & H2 & Hrun & Ht2).
  apply Forall_cons in Hok as [_ Hok].
  apply (steps_then_cons_inv _ _ _ _ _ Hok Hlast) in Hrun
    as (m3 & tr3 & t3 & H3 & Hrun & Ht3).
  apply Forall_cons in Hok as [_ Hok].
  apply (steps_then_cons_inv _ _ _ _ _ Hok Hlast) in Hrun
    as (m4 & tr4 & t4 & H4 & Hrun & Ht4).
  apply Forall_cons in Hok as [_ Hok].
  apply (steps_then_cons_inv _ _ _ _ _ Hok Hlast) in Hrun
    as (m5 & tr5 & t5 & H5 & Hrun & Ht5).
  apply Forall_cons in Hok as [_ Hok].
  apply (steps_then_cons_inv _ _ _ _ _ Hok Hlast) in Hrun
    as (m6 & tr6 & t6 & H6 & Hrun & Ht6).
  apply Forall_cons in Hok as [_ Hok].
  apply (steps_then_cons_inv _ _ _ _ _ Hok Hlast) in Hrun
    as (m7 & tr7 & t7 & H7 & Hrun & Ht7).
  cbn [fs trace] in *.
  injection Hrun as Hfs <-. subst t6 t5 t4 t3 t2 t1.
  apply dir_step_post in H1 as (A1 & M1 & B1).
  apply write_cmake_post in H2 as (A2 & M2 & E2).
  apply write_module_cpp_post in H3 as (A3 & M3 & E3).
  apply dir_step_post in H4 as (A4 & M4 & B4).
  apply dir_step_post in H5 as (A5 & M5 & B5).
  apply (update_cmake_post _ _ _ _ _ _ Hal Hcamel) in H6
    as ((c & c' & K5 & K6 & Kr) & M6 & E6).
  apply (update_force_linker_post _ _ _ _ _ Hcamel) in H7
    as ((h & h' & L6 & L7 & Lr) & M7 & E7).
  fold cmake_path in K5, K6, E6. fold header_path in L6, L7, E7.
  assert (cmake_path <> header_path) as Hkh
    by apply (cmake_path_not_header ctp).
  assert (forall shared, no_char "/" shared = true ->
            with_sep ctp +:+ shared <> path_join module_path ["CMakeLists.txt"])
    as Hb.
  { intros shared Hs Heq.
    by apply (module_file_not_shared ctp name Hname "CMakeLists.txt" shared). }
  assert (forall shared, no_char "/" shared = true ->
            with_sep ctp +:+ shared
            <> path_join module_path [camel +:+ "TidyModule.cpp"]) as Hc.
  { intros shared Hs Heq.
    apply (module_file_not_shared ctp name Hname
             (camel +:+ "TidyModule.cpp") shared); [|done..].
    apply startswith_slash. rewrite no_char_app.
    by rewrite (alnum_no_char "/" _ eq_refl Hcamel). }
  pose proof (cmake_path_eq ctp) as Hk. fold cmake_path in Hk.
  pose proof (header_path_eq ctp) as Hh. fold header_path in Hh.
  assert (forall q x, (q = cmake_path \/ q = header_path) ->
            m5 !! q = Some (File x) -> files !! q = Some (File x)) as Hback.
  { intros q x Hq H. apply B1. rewrite <- E2, <- E3.
    - by apply B4, B5.
    - destruct Hq as [-> | ->]; [rewrite Hk|rewrite Hh]; by apply Hc.
    - destruct Hq as [-> | ->]; [rewrite Hk|rewrite Hh]; by apply Hb. }
  rewrite (E6 header_path) in L6 by done.
  exists c, h, c', h'. subst m7.
  split; [apply Hback; auto|]. split; [apply Hback; auto|].
  split; [by rewrite E7|]. split; [done|]. split; [done|]. split; [done|].
  split; [auto 10|]. split; [auto 10|]. split; [auto 10|].
  split; [auto 10|]. split; [auto 10|].
  rewrite Ht1, !app_assoc. apply last_snoc.
Qed.

(** X18: a run of [main] that ends well, on shared files that end with a
    newline, leaves the directory of the module with its two files, the
    directories for the documentation and for the tests, a
    [CMakeLists.txt] that has the [add_subdirectory] line and the library
    line of the module among its lines, and a [ClangTidyForceLinker.h]
    that has the first link line of the module; the last thing it prints
    is ["Done. Now it's your turn!"]. *)
Theorem main_success (argv0 : string) (args : Args) (name : string)
    (files : gmap string node) (w : world) :
  let ctp := dirname argv0 in
  let camel := get_camel_name name in
  let module_path := path_join ctp [name] in
  module args = Some name ->
  isalnum name = true ->
  (forall c, files !! path_join ctp ["CMakeLists.txt"] = Some (File c) ->
             all_terminated (readlines c) = true) ->
  (forall h, files !! path_join ctp ["ClangTidyForceLinker.h"] = Some (File h) ->
             all_terminated (readlines h) = true) ->
  run (main argv0 args) files = (Ok tt, w) ->
  is_Some (fs w !! module_path) /\
  is_Some (fs w !! path_join module_path ["CMakeLists.txt"]) /\
  is_Some (fs w !! path_join module_path [camel +:+ "TidyModule.cpp"]) /\
  is_Some (fs w !! path_join ctp [".."; "docs"; "clang-tidy"; "checks"; name]) /\
  is_Some (fs w !! path_join ctp [".."; "test"; "clang-tidy"; "checkers"; name]) /\
  (exists c, fs w !! path_join ctp ["CMakeLists.txt"] = Some (File c) /\
             add_subdirectory_line_of name ∈ readlines c /\
             clang_library_line_of camel ∈ readlines c) /\
  (exists h, fs w !! path_join ctp ["ClangTidyForceLinker.h"] = Some (File h) /\
             first_line (link_lines_of camel) ∈ readlines h) /\
  last (trace w) = Some (EPrint "Done. Now it's your turn!").
Proof.
  intros ctp camel module_path Hm Hname HK HH Hrun.
  rewrite (main_as_steps _ _ _ Hm Hname) in Hrun.
  destruct (main_steps_ok_inv argv0 name files w Hname Hrun)
    as (c & h & c' & h' & Hc & Hh & Hc' & Hh' & Hrc & Hrh
        & A1 & A2 & A3 & A4 & A5 & Hl).
  repeat (split; [done|]). split; [|split; [|done]].
  - exists c'. split; [done|]. rewrite (Hrc (HK c Hc)).
    split; [apply add_subdirectory_line_in_linesout
           |apply clang_library_line_in_linesout].
  - exists h'. split; [done|]. rewrite (Hrh (HH h Hh)).
    apply first_link_line_in_linesout.
Qed.

(** X19: [main] needs the two shared files: for a name it accepts, a run on
    a tree in which [CMakeLists.txt] or [ClangTidyForceLinker.h] beside
    the script is not a file never ends well: it ends with an exception. *)
Theorem main_needs_the_shared_files (argv0 : string) (args : Args)
    (name : string) (files : gmap string node) :
  module args = Some name ->
  isalnum name = true ->
  (forall c, files !! path_join (dirname argv0) ["CMakeLists.txt"]
             <> Some (File c)) \/
  (forall h, files !! path_join (dirname argv0) ["ClangTidyForceLinker.h"]
             <> Some (File h)) ->
  exists e w, run (main argv0 args) files = (Raise e, w).
Proof.
  intros Hm Hname Hmissing.
  destruct (run (main argv0 args) files) as [[[]|e] w] eqn:Hrun; [|by eauto].
  rewrite (main_as_steps _ _ _ Hm Hname) in Hrun.
  destruct (main_steps_ok_inv argv0 name files w Hname Hrun)
    as (c & h & c' & h' & Hc & Hh & _).
  destruct Hmissing as [H|H]; [by destruct (H c)|by destruct (H h)].
Qed.

Lemma main_success_witness :
  let argv0 := "ct/add_new_module.py" in
  let args := {| description := "FIXME: Write a short description";
                 module := Some "perf" |} in
  let cmake := writelines
      [ln "add_subdirectory(abseil)"; ln "add_subdirectory(zircon)";
       ln "set(ALL_CLANG_TIDY_CHECKS"; ln "  clangTidyAbseilModule";
       ln "  clangTidyZirconModule"; ln "  )"] in
  let header := writelines
      [ln "#ifndef LLVM_CLANG_TOOLS_EXTRA_CLANG_TIDY_CLANGTIDYFORCELINKER_H";
       ln "namespace clang::tidy {";
       ln "// This anchor is used to force the linker to link the AbseilModule.";
       ln "extern volatile int AbseilModuleAnchorSource;";
       ln "} // namespace clang::tidy";
       ln "#endif"] in
  let files : gmap string node :=
    <["ct" := Dir]>
      (<["ct/../docs/clang-tidy/checks" := Dir]>
         (<["ct/../test/clang-tidy/checkers" := Dir]>
            (<["ct/CMakeLists.txt" := File cmake]>
               {[ "ct/ClangTidyForceLinker.h" := File header ]}))) in
  let w := snd (run (main argv0 args) files) in
  module args = Some "perf" /\
  isalnum "perf" = true /\
  (forall c, files !! path_join (dirname argv0) ["CMakeLists.txt"]
             = Some (File c) ->
             all_terminated (readlines c) = true) /\
  (forall h, files !! path_join (dirname argv0) ["ClangTidyForceLinker.h"]
             = Some (File h) ->
             all_terminated (readlines h) = true) /\
  run (main argv0 args) files = (Ok tt, w) /\
  is_Some (fs w !! "ct/perf") /\
  is_Some (fs w !! "ct/perf/CMakeLists.txt") /\
  is_Some (fs w !! "ct/perf/PerfTidyModule.cpp") /\
  is_Some (fs w !! "ct/../docs/clang-tidy/checks/perf") /\
  is_Some (fs w !! "ct/../test/clang-tidy/checkers/perf") /\
  (exists c, fs w !! "ct/CMakeLists.txt" = Some (File c) /\
             ln "add_subdirectory(perf)" ∈ readlines c /\
             ln "  clangTidyPerfModule" ∈ readlines c) /\
  (exists h, fs w !! "ct/ClangTidyForceLinker.h" = Some (File h) /\
             ln "// This anchor is used to force the linker to link the PerfModule."
               ∈ readlines h) /\
  last (trace w) = Some (EPrint "Done. Now it's your turn!").
Proof.
  intros argv0 args cmake header files w.
  assert (H1 : forall c,
             files !! path_join (dirname argv0) ["CMakeLists.txt"]
             = Some (File c) ->
             all_terminated (readlines c) = true).
  { intros c H. vm_compute in H. injection H as <-. vm_compute. reflexivity. }
  assert (H2 : forall h,
             files !! path_join (dirname argv0) ["ClangTidyForceLinker.h"]
             = Some (File h) ->
             all_terminated (readlines h) = true).
  { intros h H. vm_compute in H. injection H as <-. vm_compute. reflexivity. }
  assert (H3 : run (main argv0 args) files = (Ok tt, w))
    by (vm_compute; reflexivity).
  split; [reflexivity|]. split; [reflexivity|].
  split; [exact H1|]. split; [exact H2|]. split; [exact H3|].
  exact (main_success argv0 args "perf" files w eq_refl eq_refl H1 H2 H3).
Defined.

Lemma main_needs_the_shared_files_witness :
  let argv0 := "ct/add_new_module.py" in
  let args := {| description := "FIXME: Write a short description";
                 module := Some "perf" |} in
  let cmake := writelines
      [ln "add_subdirectory(abseil)"; ln "set(ALL_CLANG_TIDY_CHECKS";
       ln "  clangTidyAbseilModule"; ln "  )"] in
  let cmake' := writelines
      [ln "add_subdirectory(abseil)"; ln "add_subdirectory(perf)";
       ln "set(ALL_CLANG_TIDY_CHECKS"; ln "  clangTidyAbseilModule";
       ln "  clangTidyPerfModule"; ln "  )"] in
  let files : gmap string node :=
    <["ct" := Dir]>
      (<["ct/../docs/clang-tidy/checks" := Dir]>
         (<["ct/../test/clang-tidy/checkers" := Dir]>
            {[ "ct/CMakeLists.txt" := File cmake ]})) in
  module args = Some "perf" /\
  isalnum "perf" = true /\
  (forall h, files !! path_join (dirname argv0) ["ClangTidyForceLinker.h"]
             <> Some (File h)) /\
  (exists e w, run (main argv0 args) files = (Raise e, w)) /\
  fst (run (main argv0 args) files)
  = Raise (FileNotFoundError "ct/ClangTidyForceLinker.h") /\
  fs (snd (run (main argv0 args) files)) !! "ct/CMakeLists.txt"
  = Some (File cmake').
Proof.
  intros argv0 args cmake cmake' files.
  assert (H1 : forall h,
             files !! path_join (dirname argv0) ["ClangTidyForceLinker.h"]
             <> Some (File h)).
  { intros h H. vm_compute in H. discriminate H. }
  split; [reflexivity|]. split; [reflexivity|]. split; [exact H1|].
  split; [|split; vm_compute; reflexivity].
  exact (main_needs_the_shared_files argv0 args "perf" files eq_refl eq_refl
           (or_intror H1)).
Defined.

(** * The paths of a run of [main] *)

#[local] Arguments path_join : simpl never.

(** Joining names without [/] to a path that ends with such a name. *)
Lemma path_join_after_name path n comps :
  n <> EmptyString -> no_char "/" n = true ->
  Forall (fun c => c <> EmptyString /\ no_char "/" c = true) comps ->
  fold_left join2 comps (path +:+ n)
  = path +:+ n +:+ String.concat EmptyString (map (fun c => "/" +:+ c) comps).
Proof.
  intros Hne Hn Hcomps. revert path n Hne Hn.
  induction Hcomps as [|c r [Hc1 Hc2] _ IH]; intros path n Hne Hn.
  - cbn. by rewrite append_nil_r.
  - cbn [fold_left map].
    rewrite join2_after_name by (try done; by apply startswith_slash).
    replace (path +:+ n +:+ "/" +:+ c) with ((path +:+ n +:+ "/") +:+ c)
      by (by rewrite !append_assoc).
    rewrite (IH _ _ Hc1 Hc2), concat_nil_cons.
    by rewrite !append_assoc.
Qed.

Lemma up_path_eq clang_tidy_path a b c name :
  isalnum name = true ->
  Forall (fun x => x <> EmptyString /\ no_char "/" x = true) [a; b; c] ->
  path_join clang_tidy_path [".."; a; b; c; name]
  = with_sep clang_tidy_path
    +:+ ".." +:+ "/" +:+ a +:+ "/" +:+ b +:+ "/" +:+ c +:+ "/" +:+ name.
Proof.
  intros Hname Habc. unfold path_join.
  change (fold_left join2 [".."; a; b; c; name] clang_tidy_path)
    with (fold_left join2 [a; b; c; name] (join2 clang_tidy_path "..")).
  rewrite (join2_with_sep clang_tidy_path "..") by done.
  rewrite path_join_after_name;
    [cbn [map]; rewrite !concat_nil_cons; cbn [String.concat];
     by rewrite append_nil_r, !append_assoc|done|done|].
  repeat (apply Forall_cons in Habc as [? Habc]).
  repeat (apply Forall_cons; split; [done|]).
  apply Forall_cons. split; [|done].
  split; [by apply isalnum_nonempty|by apply name_no_slash].
Qed.

Lemma alnum_first name :
  isalnum name = true -> exists c r, name = String c r /\ is_alnum c = true.
Proof.
  destruct name as [|c r]; [done|]. intros H%isalnum_forall.
  cbn [str_forall] in H. apply andb_prop in H as [? _]. by exists c, r.
Qed.

Lemma append_longer (a b : string) : b <> EmptyString -> a <> a +:+ b.
Proof.
  intros Hb H%(f_equal String.length). rewrite length_app_str in H.
  destruct b; [done|]. cbn in H. lia.
Qed.

(** X20: for a name that [main] accepts, the seven paths a run works on are
    pairwise different: the directory of the module, its two files, the
    two directories for documentation and tests, and the two shared
    files.  No step of a run writes where another step does. *)
Theorem main_paths_distinct (argv0 name : string) :
  isalnum name = true ->
  let ctp := dirname argv0 in
  let camel := get_camel_name name in
  let module_path := path_join ctp [name] in
  NoDup [ module_path;
          path_join module_path ["CMakeLists.txt"];
          path_join module_path [camel +:+ "TidyModule.cpp"];
          path_join ctp [".."; "docs"; "clang-tidy"; "checks"; name];
          path_join ctp [".."; "test"; "clang-tidy"; "checkers"; name];
          path_join ctp ["CMakeLists.txt"];
          path_join ctp ["ClangTidyForceLinker.h"] ].
Proof.
  intros Hname ctp camel module_path.
  pose proof (alnum_camel _ Hname) as Hcamel. fold camel in Hcamel.
  pose proof (isalnum_forall _ Hname) as Hal.
  pose proof (name_no_slash name Hname) as Hslash.
  assert (no_char "." name = true) as Hdot by (by apply alnum_no_char).
  assert (startswith (camel +:+ "TidyModule.cpp") "/" = false) as Hcpp.
  { apply startswith_slash. rewrite no_char_app.
    by rewrite (alnum_no_char "/" _ eq_refl Hcamel). }
  unfold module_path.
  rewrite (module_path_eq ctp name Hname).
  rewrite <- (module_path_eq ctp name Hname) at 2 3.
  rewrite !(module_file_eq ctp name Hname) by done.
  rewrite !(up_path_eq ctp _ _ _ name Hname) by (by repeat constructor).
  rewrite (cmake_path_eq ctp), (header_path_eq ctp).
  set (ws := with_sep ctp).
  change [ ws +:+ name;
           ws +:+ name +:+ "/" +:+ "CMakeLists.txt";
           ws +:+ name +:+ "/" +:+ camel +:+ "TidyModule.cpp";
           ws +:+ ".." +:+ "/" +:+ "docs" +:+ "/" +:+ "clang-tidy" +:+ "/"
              +:+ "checks" +:+ "/" +:+ name;
           ws +:+ ".." +:+ "/" +:+ "test" +:+ "/" +:+ "clang-tidy" +:+ "/"
              +:+ "checkers" +:+ "/" +:+ name;
           ws +:+ "CMakeLists.txt";
           ws +:+ "ClangTidyForceLinker.h" ]
    with (map (String.append ws)
            [ name;
              name +:+ "/CMakeLists.txt";
              name +:+ "/" +:+ camel +:+ "TidyModule.cpp";
              "../docs/clang-tidy/checks/" +:+ name;
              "../test/clang-tidy/checkers/" +:+ name;
              "CMakeLists.txt";
              "ClangTidyForceLinker.h" ]).
  apply NoDup_fmap_2; [intros x y; apply append_inj_l|].
  destruct (alnum_first _ Hname) as (c0 & r0 & Hn0 & Hc0).
  assert (forall t, name <> String "." t) as Hnodot.
  { intros t Ht. rewrite Ht in Hdot. discriminate Hdot. }
  assert (forall t u, no_char "/" u = true -> name +:+ "/" +:+ t <> u) as Hsl.
  { intros t u Hu Heq. rewrite <- Heq, !no_char_app in Hu.
    cbn in Hu. by rewrite andb_false_r in Hu. }
  assert (forall t u, name +:+ t <> String "." u) as Hnd.
  { intros t u. rewrite Hn0, append_cons. intros [= -> _]. discriminate Hc0. }
  repeat (apply NoDup_cons; split); try apply NoDup_nil;
    rewrite ?not_elem_of_cons; repeat split; try apply not_elem_of_nil.
  all: try (by apply append_longer).
  all: try (by apply Hnd).
  all: try (by apply not_eq_sym, Hnd).
  all: try (by apply Hsl).
  all: try (by apply not_eq_sym, Hsl).
  all: try (intros H; rewrite H in Hal; discriminate Hal).
  all: try discriminate.
  - intros H%append_inj_l.
    change ("/" +:+ camel +:+ "TidyModule.cpp")
      with (String "/" (camel +:+ "TidyModule.cpp")) in H.
    injection H as H. destruct camel as [|c r]; [discriminate H|].
    apply (f_equal String.length) in H.
    rewrite append_cons in H. cbn [String.length] in H.
    rewrite length_app_str in H. cbn in H. lia.
Qed.

Lemma main_paths_distinct_witness :
  isalnum "perf" = true /\
  NoDup [ "ct/perf"; "ct/perf/CMakeLists.txt"; "ct/perf/PerfTidyModule.cpp";
          "ct/../docs/clang-tidy/checks/perf";
          "ct/../test/clang-tidy/checkers/perf";
          "ct/CMakeLists.txt"; "ct/ClangTidyForceLinker.h" ].
Proof.
  split; [reflexivity|].
  exact (main_paths_distinct "ct/add_new_module.py" "perf" eq_refl).
Defined.

(** * The names in what is generated *)

#[local] Arguments path_join : simpl never.
#[local] Arguments basename : simpl never.
#[local] Arguments str_repeat : simpl never.
#[local] Arguments writelines : simpl never.
#[local] Arguments readlines : simpl never.

Lemma readlines_unlines ls :
  Forall (fun l => no_char lf l = true /\ no_char cr l = true) ls ->
  readlines (unlines ls) = map (fun l => l +:+ nl) ls.
Proof.
  intros H. unfold unlines.
  change (String.concat EmptyString (map (fun l => l +:+ nl) ls))
    with (writelines (map (fun l => l +:+ nl) ls)).
  apply readlines_writelines, Forall_map.
  eapply Forall_impl; [done|]. intros l [? ?]. by exists l.
Qed.

Lemma unlines_cons x xs : unlines (x :: xs) = x +:+ nl +:+ unlines xs.
Proof. unfold unlines. by rewrite map_cons, concat_nil_cons, append_assoc. Qed.

Ltac plain_text :=
  rewrite ?no_char_app;
  repeat match goal with
         | H : str_forall is_alnum ?s = true |- context [no_char ?c ?s] =>
             rewrite (alnum_no_char c s eq_refl H)
         end;
  try rewrite no_char_str_repeat by done;
  done.

Lemma cmake_template_lines module_camel :
  str_forall is_alnum module_camel = true ->
  readlines (cmake_template ("clangTidy" +:+ module_camel +:+ "Module")
               (module_camel +:+ "TidyModule.cpp"))
  = map (fun l => l +:+ nl)
      [ "set(LLVM_LINK_COMPONENTS"; "  FrontendOpenMP"; "  Support"; "  )";
        EmptyString;
        "add_clang_library(" +:+ ("clangTidy" +:+ module_camel +:+ "Module")
          +:+ " STATIC";
        "  " +:+ (module_camel +:+ "TidyModule.cpp");
        EmptyString; "  LINK_LIBS"; "  clangTidy"; "  clangTidyUtils";
        EmptyString; "  DEPENDS"; "  omp_gen"; "  ClangDriverOptions"; "  )";
        EmptyString;
        "clang_target_link_libraries("
          +:+ ("clangTidy" +:+ module_camel +:+ "Module");
        "  PRIVATE"; "  clangAnalysis"; "  clangAST"; "  clangASTMatchers";
        "  clangBasic"; "  clangLex"; "  )" ].
Proof.
  intros Hc. unfold cmake_template. apply readlines_unlines.
  repeat (apply Forall_cons; split; [split; plain_text|]).
  by apply Forall_nil.
Qed.

(** The text of a module file, line by line: the first line, then the
    lines of the template. *)
Lemma module_cpp_lines first namespace class_name module :
  no_char lf first = true -> no_char cr first = true ->
  str_forall is_alnum namespace = true ->
  str_forall is_alnum class_name = true ->
  str_forall is_alnum module = true ->
  exists before after,
    readlines (first +:+ module_cpp_template namespace class_name module)
    = (first +:+ nl) :: before
      ++ ("volatile int " +:+ class_name +:+ "AnchorSource = 0;" +:+ nl)
      :: after.
Proof.
  intros Hf1 Hf2 Hn Hc Hm. unfold module_cpp_template.
  match goal with
  | |- context [unlines (EmptyString :: ?tl)] =>
      assert (first +:+ unlines (EmptyString :: tl) = unlines (first :: tl))
        as ->
        by (by rewrite (unlines_cons EmptyString), (unlines_cons first))
  end.
  match goal with
  | |- context [readlines (unlines ?ls)] =>
      assert (readlines (unlines ls) = map (fun l => l +:+ nl) ls) as ->
  end.
  { apply readlines_unlines.
    repeat (apply Forall_cons; split; [split; plain_text|]).
    by apply Forall_nil. }
  rewrite map_cons.
  match goal with
  | |- context [_ :: ?l = _] => exists (take 28 l), (drop 29 l)
  end.
  f_equal. cbn [map take drop app]. by rewrite !append_assoc.
Qed.

(** X21: the names agree across what a run generates.  The build file of
    the module defines the library [clangTidy<Camel>Module], the one the
    library line of the merge names, and builds the file
    [<Camel>TidyModule.cpp] that [write_module_cpp] writes; the module file
    defines the variable [<Camel>ModuleAnchorSource] that the link lines
    declare and read. *)
Theorem generated_names_agree (module_path module module_camel : string)
    (files : gmap string node) :
  let cmake := path_join module_path ["CMakeLists.txt"] in
  let cpp := path_join module_path [module_camel +:+ "TidyModule.cpp"] in
  let library := "clangTidy" +:+ module_camel +:+ "Module" in
  let anchor := module_camel +:+ "ModuleAnchorSource" in
  str_forall is_alnum module = true ->
  str_forall is_alnum module_camel = true ->
  files !! cmake = None -> parent_check files cmake = None ->
  files !! cpp = None -> parent_check files cpp = None ->
  (exists d,
      fs (snd (run (write_cmake module_path module_camel) files)) !! cmake
      = Some (File d) /\
      ("add_clang_library(" +:+ library +:+ " STATIC" +:+ nl) ∈ readlines d /\
      ("  " +:+ basename cpp +:+ nl) ∈ readlines d) /\
  clang_library_line_of module_camel = "  " +:+ library +:+ nl /\
  (exists d,
      fs (snd (run (write_module_cpp module_path module module_camel module)
                 files)) !! cpp
      = Some (File d) /\
      ("volatile int " +:+ anchor +:+ " = 0;" +:+ nl) ∈ readlines d) /\
  ("extern volatile int " +:+ anchor +:+ ";" +:+ nl)
    ∈ link_lines_of module_camel /\
  ("    " +:+ anchor +:+ ";" +:+ nl) ∈ link_lines_of module_camel.
Proof.
  intros cmake cpp library anchor Hm Hc Hk1 Hk2 Hp1 Hp2.
  assert (no_char "/" (module_camel +:+ "TidyModule.cpp") = true) as Hns.
  { rewrite no_char_app, (alnum_no_char "/" _ eq_refl Hc). done. }
  assert (str_forall is_alnum (module_camel +:+ "Module") = true) as Hclass.
  { by rewrite str_forall_app, Hc. }
  split; [|split; [|split; [|split]]].
  - rewrite write_cmake_run. fold cmake. rewrite Hk1, Hk2. cbn [snd fs].
    rewrite lookup_insert_eq. eexists. split; [done|].
    rewrite (cmake_template_lines _ Hc). unfold cpp.
    rewrite (basename_join _ _ Hns). unfold library. split.
    + apply (list_elem_of_lookup_2 _ 5). cbn [map lookup list_lookup].
      by rewrite !append_assoc.
    + apply (list_elem_of_lookup_2 _ 6). cbn [map lookup list_lookup].
      by rewrite !append_assoc.
  - unfold clang_library_line_of, library. by rewrite !append_assoc.
  - rewrite write_module_cpp_run. fold cpp. rewrite Hp1, Hp2. cbn [snd fs].
    rewrite lookup_insert_eq. eexists. split; [done|].
    unfold cpp. rewrite (basename_join _ _ Hns).
    match goal with
    | |- _ ∈ readlines (?a +:+ ?b +:+ ?c +:+ ?d +:+ ?e +:+ ?t) =>
        replace (a +:+ b +:+ c +:+ d +:+ e +:+ t)
          with ((a +:+ b +:+ c +:+ d +:+ e) +:+ t)
          by (by rewrite !append_assoc)
    end.
    edestruct (module_cpp_lines) as (before & after & ->);
      [| |exact Hm|exact Hclass|exact Hm|].
    + plain_text.
    + plain_text.
    + apply list_elem_of_further. rewrite elem_of_app. right.
      unfold anchor. rewrite !append_assoc. apply list_elem_of_here.
  - unfold link_lines_of, anchor. apply list_elem_of_further.
    rewrite !append_assoc. apply list_elem_of_here.
  - unfold link_lines_of, anchor. do 3 apply list_elem_of_further.
    rewrite !append_assoc. apply list_elem_of_here.
Qed.

Lemma generated_names_agree_witness :
  let files : gmap string node := {[ "ct/perf" := Dir ]} in
  str_forall is_alnum "perf" = true /\
  str_forall is_alnum "Perf" = true /\
  files !! path_join "ct/perf" ["CMakeLists.txt"] = None /\
  parent_check files (path_join "ct/perf" ["CMakeLists.txt"]) = None /\
  files !! path_join "ct/perf" ["Perf" +:+ "TidyModule.cpp"] = None /\
  parent_check files (path_join "ct/perf" ["Perf" +:+ "TidyModule.cpp"]) = None /\
  (exists d,
      fs (snd (run (write_cmake "ct/perf" "Perf") files))
        !! "ct/perf/CMakeLists.txt" = Some (File d) /\
      ln "add_clang_library(clangTidyPerfModule STATIC" ∈ readlines d /\
      ln "  PerfTidyModule.cpp" ∈ readlines d) /\
  clang_library_line_of "Perf" = ln "  clangTidyPerfModule" /\
  (exists d,
      fs (snd (run (write_module_cpp "ct/perf" "perf" "Perf" "perf") files))
        !! "ct/perf/PerfTidyModule.cpp" = Some (File d) /\
      ln "volatile int PerfModuleAnchorSource = 0;" ∈ readlines d) /\
  ln "extern volatile int PerfModuleAnchorSource;" ∈ link_lines_of "Perf" /\
  ln "    PerfModuleAnchorSource;" ∈ link_lines_of "Perf".
Proof.
  intros files.
  split; [reflexivity|]. split; [reflexivity|]. split; [reflexivity|].
  split; [reflexivity|]. split; [reflexivity|]. split; [reflexivity|].
  exact (generated_names_agree "ct/perf" "perf" "Perf" files
           eq_refl eq_refl eq_refl eq_refl eq_refl eq_refl).
Defined.
